(** * alldata-proxy-server: the response cache and its middleware

    A shallow embedding of the caching path of the proxy server:

    - [cacheMiddleware], its [saveToCache] hook, [isApiRequest] and the
      start-up block of [middleware/cache.js];
    - [proxyRequest] of [server.js] and the [/revalidate] route of
      [routes/cache.js];
    - [validateConfig] of [config/index.js];
    - the cache manager itself ([cacheManager.js]), whose file is not part
      of the sources at hand: it is modelled from the specification in
      [Module CacheManager].

    JavaScript values are the inductive [JsValue]; objects used as maps
    (request and response headers, the blob store) are [gmap]s; asynchronous
    functions are computations of a state-and-exception monad over the
    [World] a request handler can touch. *)

From Stdlib Require Import ZArith NArith String Ascii.
From stdpp Require Import base option list strings gmap sorting pretty.

Local Open Scope string_scope.
Local Open Scope list_scope.
Local Open Scope Z_scope.

(** ** JavaScript values and strings *)

#[local] Unset Elimination Schemes.
Inductive JsValue :=
| JUndefined
| JNull
| JBool (b : bool)
| JNum (n : Z)
| JStr (s : string)
| JArr (items : list JsValue)
| JObj (fields : list (string * JsValue)).
#[local] Set Elimination Schemes.

(** [if (v)]: the values JavaScript treats as false are [undefined], [null],
    [false], [0] and the empty string. *)
Definition truthy (v : JsValue) : bool :=
  match v with
  | JUndefined | JNull => false
  | JBool b => b
  | JNum n => negb (n =? 0)
  | JStr s => negb (String.eqb s EmptyString)
  | JArr _ | JObj _ => true
  end.

(** [undefined] and [null]: the two values a property cannot be read
    from. *)
Definition nullish (v : JsValue) : bool :=
  match v with
  | JUndefined | JNull => true
  | _ => false
  end.

(** [hay.startsWith(needle)] *)
Definition startsWith (hay needle : string) : bool := String.prefix needle hay.

(** [hay.includes(needle)] on strings *)
Fixpoint includes (hay needle : string) : bool :=
  startsWith hay needle ||
  match hay with
  | EmptyString => false
  | String _ rest => includes rest needle
  end.

(** [arr.includes(x)] on an array of strings *)
Definition arrayIncludes (arr : list string) (x : string) : bool :=
  existsb (String.eqb x) arr.

Definition lowerAscii (c : ascii) : ascii :=
  let n := nat_of_ascii c in
  if (65 <=? n)%nat && (n <=? 90)%nat then ascii_of_nat (n + 32) else c.

(** [s.toLowerCase()], on the ASCII range *)
Fixpoint toLowerCase (s : string) : string :=
  match s with
  | EmptyString => EmptyString
  | String c rest => String (lowerAscii c) (toLowerCase rest)
  end.

(** How a call ends: with a value, or with a thrown error. *)
Inductive Completion (A : Type) :=
| Normal (a : A)
| Throw (e : JsValue).
Arguments Normal {A} a.
Arguments Throw {A} e.

(** ** Requests and responses *)

Record Request := {
  method : string;
  originalUrl : string;
  path : string;
  headers : gmap string string;
  body : JsValue;
  user : JsValue;          (* set by [authenticate] *)
  accessToken : option string   (* set by [authMiddleware] *)
}.

Inductive Sent :=
| SentJson (v : JsValue)     (* res.json(v) *)
| SentText (s : string)      (* res.send(s) *)
| SentStream (src : JsValue) (* stream.pipe(res) *).

(** The response object. [saveToCache] is the hook [cacheMiddleware] hangs
    on it: a closure over the request, kept here as the request it closed
    over ([None] while the property is undefined). *)
Record Res := {
  statusCode : Z;
  resHeaders : gmap string string;
  sent : option Sent;
  saveToCache : option Request
}.

Definition freshRes : Res :=
  {| statusCode := 200; resHeaders := ∅; sent := None; saveToCache := None |}.

Definition headersSent (r : Res) : bool :=
  match sent r with Some _ => true | None => false end.

Definition res_setHeader (k v : string) (r : Res) : Res :=
  {| statusCode := statusCode r; resHeaders := <[k := v]> (resHeaders r);
     sent := sent r; saveToCache := saveToCache r |}.

Definition res_status (s : Z) (r : Res) : Res :=
  {| statusCode := s; resHeaders := resHeaders r;
     sent := sent r; saveToCache := saveToCache r |}.

Definition res_end (b : Sent) (r : Res) : Res :=
  {| statusCode := statusCode r; resHeaders := resHeaders r;
     sent := Some b; saveToCache := saveToCache r |}.

Definition res_attach (req : Request) (r : Res) : Res :=
  {| statusCode := statusCode r; resHeaders := resHeaders r;
     sent := sent r; saveToCache := Some req |}.

(** ** The cache manager as the middleware sees it

    [middleware/cache.js] uses the manager through four asynchronous
    methods. Each may complete normally or throw, and each may change the
    cache [C]. *)
Class CacheManagerAPI (C : Type) := {
  cm_load : string → string → JsValue → C → Completion JsValue * C;
  cm_save : string → JsValue → string → JsValue → C → Completion JsValue * C;
  cm_initializeDatabase : C → Completion unit * C;
  cm_revalidatePath : JsValue → C → Completion JsValue * C
}.

(** A call the request layer made to the manager, with its arguments. *)
Inductive CacheCall :=
| CallLoad (url method : string) (body : JsValue)
| CallSave (url : string) (data : JsValue) (method : string) (body : JsValue).

(** The (url, method, body) triple a call hands to the manager. *)
Definition call_identity (c : CacheCall) : string * string * JsValue :=
  match c with
  | CallLoad u m b => (u, m, b)
  | CallSave u _ m b => (u, m, b)
  end.

Definition is_save (c : CacheCall) : bool :=
  match c with CallSave _ _ _ _ => true | CallLoad _ _ _ => false end.

(** A line written by [console.log] / [console.error] or by the logger: the
    text of the message (for a template literal, its fixed text) and the
    values printed with it. *)
Inductive Sink := Console | Logger.

Record LogLine := {
  sink : Sink;
  level : string;
  text : string;
  args : list JsValue
}.

Definition console_log (msg : string) (vs : list JsValue) : LogLine :=
  {| sink := Console; level := "log"; text := msg; args := vs |}.
Definition console_error (msg : string) (vs : list JsValue) : LogLine :=
  {| sink := Console; level := "error"; text := msg; args := vs |}.
Definition logger_line (lvl msg : string) (vs : list JsValue) : LogLine :=
  {| sink := Logger; level := lvl; text := msg; args := vs |}.

(** What one request handler can touch: the cache, the response object, the
    console, the files it wrote under the public directory, and (a ghost
    field) the calls it made to the cache manager, oldest first. *)
Record World (C : Type) := {
  cache : C;
  res : Res;
  console : list LogLine;
  publicFiles : list string;
  calls : list CacheCall
}.
Arguments cache {C} _.
Arguments res {C} _.
Arguments console {C} _.
Arguments publicFiles {C} _.
Arguments calls {C} _.

(** ** The monad of asynchronous handlers *)

Definition M (C A : Type) : Type := World C → Completion A * World C.

Definition ret {C A} (a : A) : M C A := λ w, (Normal a, w).

Definition bind {C A B} (m : M C A) (k : A → M C B) : M C B :=
  λ w, match m w with
       | (Normal a, w') => k a w'
       | (Throw e, w') => (Throw e, w')
       end.

(** [try { m } catch (error) { h error }] *)
Definition try_catch {C A} (m : M C A) (h : JsValue → M C A) : M C A :=
  λ w, match m w with
       | (Normal a, w') => (Normal a, w')
       | (Throw e, w') => h e w'
       end.

Notation "x <- m ;; k" := (bind m (λ x, k))
  (at level 100, m at next level, right associativity).
Notation "m ;;; k" := (bind m (λ _, k))
  (at level 100, right associativity).

(** ** config/index.js *)

Record Config := {
  auth_email : option string;      (* process.env.ALLDATA_EMAIL *)
  auth_password : option string;   (* process.env.ALLDATA_PASSWORD *)
  server_port : Z;
  server_env : string
}.

(** [config.proxy.target] *)
Definition proxy_target : string := "https://data-eu.partnership.workshopdiag.com".

(** [!s] for a string that may be undefined *)
Definition falsy_string (s : option string) : bool :=
  match s with
  | None => true
  | Some v => String.eqb v EmptyString
  end.

Fixpoint join (sep : string) (l : list string) : string :=
  match l with
  | [] => EmptyString
  | [x] => x
  | x :: rest => x +:+ sep +:+ join sep rest
  end.

Definition js_error (message : string) : JsValue :=
  JObj [("message", JStr message)].

(** [o[name]] for an object (undefined for anything else) *)
Definition js_field (name : string) (o : JsValue) : JsValue :=
  match o with
  | JObj fields =>
      match List.find (λ kv, String.eqb (fst kv) name) fields with
      | Some kv => snd kv
      | None => JUndefined
      end
  | _ => JUndefined
  end.

Definition validateConfig (cfg : Config) : Completion bool :=
  let errors :=
    (if falsy_string (auth_email cfg) then ["ALLDATA_EMAIL is required"] else []) ++
    (if falsy_string (auth_password cfg) then ["ALLDATA_PASSWORD is required"] else []) in
  if (0 <? length errors)%nat
  then Throw (js_error ("Configuration errors: " +:+ join ", " errors))
  else Normal true.

(** ** What the handlers use and the sources at hand do not define

    [authMiddleware] ([middleware/auth.js]), the helpers of
    [utils/assets.js], the upstream server behind [proxyService.makeRequest]
    and the outcome of [authenticate] (which asks the auth server) are
    taken as given. None of them is handed the cache manager, and none
    assigns [res.saveToCache]. *)

Record RequestOptions := {
  ro_method : string;
  ro_url : string;
  ro_headers : gmap string string;
  ro_data : JsValue;
  ro_responseType : string
}.

Record Upstream := {
  status : Z;
  up_headers : list (string * string);
  data : JsValue;
  (* response.data is a stream: it has the methods [pipe] and [on] *)
  data_is_stream : bool
}.

(** The TypeErrors the handlers can run into: a property read from
    [undefined] or [null], and a call of what is not a function. *)
Inductive Fault :=
| ReadOfNullish (v : JsValue) (property : string)
| NotAFunction (callee : string).

Record Deps := {
  (* [Some user]: next() was called with no error and req.user is [user];
     [None]: it was not, and the response is as [authenticate] left it *)
  authenticate : Request → Res → option JsValue * Res;
  (* the value left in req.accessToken *)
  authMiddleware : Request → Res → option string * Res;
  makeRequest : RequestOptions → Completion Upstream;
  isFontFile : string → bool;
  normalizeAssetPath : string → string;
  getContentType : string → string;
  (* path.join(config.paths.public, p) *)
  publicPath : string → string;
  (* the error object the engine throws for a fault; its message and
     stack are the engine's *)
  typeError : Fault → JsValue
}.

Definition with_user (u : JsValue) (req : Request) : Request :=
  {| method := method req; originalUrl := originalUrl req; path := path req;
     headers := headers req; body := body req; user := u;
     accessToken := accessToken req |}.

Definition with_accessToken (t : option string) (req : Request) : Request :=
  {| method := method req; originalUrl := originalUrl req; path := path req;
     headers := headers req; body := body req; user := user req;
     accessToken := t |}.

Inductive ProcessState :=
| Exited (code : Z)
| Listening (port : Z).

(** ** A fresh response object, as the server hands one to each request *)

Definition freshWorld {C} (c : C) : World C :=
  {| cache := c; res := freshRes; console := []; publicFiles := []; calls := [] |}.

Section Handlers.
Context {C : Type} `{CacheManagerAPI C}.

Definition modify_res (f : Res → Res) : M C unit :=
  λ w, (Normal tt,
        {| cache := cache w; res := f (res w); console := console w;
           publicFiles := publicFiles w; calls := calls w |}).

Definition get_res : M C Res := λ w, (Normal (res w), w).

Definition console_write (l : LogLine) : M C unit :=
  λ w, (Normal tt,
        {| cache := cache w; res := res w; console := console w ++ [l];
           publicFiles := publicFiles w; calls := calls w |}).

Definition write_public (p : string) : M C unit :=
  λ w, (Normal tt,
        {| cache := cache w; res := res w; console := console w;
           publicFiles := publicFiles w ++ [p]; calls := calls w |}).

(** Run a method of the cache manager on the cache of the world, noting
    the call. *)
Definition call_manager {A} (c : CacheCall) (f : C → Completion A * C) : M C A :=
  λ w, let '(r, c') := f (cache w) in
       (r, {| cache := c'; res := res w; console := console w;
              publicFiles := publicFiles w; calls := calls w ++ [c] |}).

Definition cacheManager_load (url meth : string) (b : JsValue) : M C JsValue :=
  call_manager (CallLoad url meth b) (cm_load url meth b).

Definition cacheManager_save (url : string) (data : JsValue) (meth : string)
    (b : JsValue) : M C JsValue :=
  call_manager (CallSave url data meth b) (cm_save url data meth b).

(** *** middleware/cache.js *)

Definition headerIncludes (req : Request) (name needle : string) : bool :=
  match headers req !! name with
  | Some v => includes v needle
  | None => false
  end.

Definition isApiRequest (req : Request) : bool :=
  headerIncludes req "content-type" "application/json" ||
  headerIncludes req "accept" "application/json" ||
  includes (originalUrl req) "/api/" ||
  includes (originalUrl req) "/alldata/".

(** What became of the middleware's [next]: called, or not (the response
    was sent instead). *)
Inductive Signal := CalledNext | Responded.

(** [res.saveToCache], for the request the closure was made for. *)
Definition run_saveToCache (req : Request) (data : JsValue) : M C unit :=
  try_catch
    (cacheManager_save (originalUrl req) data (method req) (body req) ;;;
     modify_res (res_setHeader "X-Cache" "MISS"))
    (λ error, console_write (console_error "Failed to save to cache:" [error])).

Definition cacheMiddleware (req : Request) : M C Signal :=
  if negb (arrayIncludes ["GET"; "POST"] (method req)) || negb (isApiRequest req)
  then ret CalledNext
  else
    hit <- try_catch
      (cachedData <- cacheManager_load (originalUrl req) (method req) (body req) ;;
       if truthy cachedData then
         console_write (console_log "Cache hit for"
                         [JStr (method req); JStr (originalUrl req)]) ;;;
         modify_res (res_setHeader "X-Cache" "HIT") ;;;
         modify_res (res_setHeader "X-Cache-From" "SQLite-Index") ;;;
         modify_res (res_setHeader "Content-Type" "application/json") ;;;
         modify_res (res_end (SentJson cachedData)) ;;;
         ret true
       else ret false)
      (λ error,
         console_write (console_error "Cache middleware error:" [error]) ;;;
         ret false) ;;
    if (hit : bool) then ret Responded
    else
      modify_res (res_attach req) ;;;
      ret CalledNext.

(** *** services/proxy.js *)

Definition proxyService_isApiRequest (req : Request) : bool :=
  headerIncludes req "content-type" "application/json" ||
  headerIncludes req "accept" "application/json" ||
  includes (originalUrl req) "/api/" ||
  includes (originalUrl req) "/alldata/".

Definition buildHeaders (req : Request) (token : string) (isApi : bool)
    : gmap string string :=
  let h0 :=
    <["accessToken" := token]>
      (<["referer" := proxy_target +:+ "/"]>
        (<["origin" := proxy_target]>
          (<["cookie" := "accessToken=" +:+ token]> (headers req)))) in
  let h1 :=
    match headers req !! "web-from" with
    | Some v => if falsy_string (Some v) then h0 else <["web-from" := v]> h0
    | None => h0
    end in
  let h2 :=
    if isApi
    then <["Content-Type" := "application/json"]> (<["Accesstoken" := token]> h1)
    else h1 in
  delete "content-length" (delete "connection" (delete "host" h2)).

(** *** server.js *)

Context (D : Deps) (cfg : Config).

Definition lift {A} (r : Completion A) : M C A := λ w, (r, w).

(** A helper that is not among the sources at hand works on the response:
    it may set the status and headers or send, and leaves
    [res.saveToCache] alone. *)
Definition keep_hook (old new : Res) : Res :=
  {| statusCode := statusCode new; resHeaders := resHeaders new;
     sent := sent new; saveToCache := saveToCache old |}.

Definition on_res {A} (f : Res → A * Res) : M C A :=
  r <- get_res ;;
  modify_res (λ _, keep_hook r (snd (f r))) ;;;
  ret (fst (f r)).

Definition forwardHeader (acc : Res) (kv : string * string) : Res :=
  if arrayIncludes ["content-encoding"; "content-length"; "transfer-encoding"]
       (toLowerCase (fst kv))
  then acc
  else res_setHeader (fst kv) (snd kv) acc.

Definition forwardHeaders (hs : list (string * string)) (r : Res) : Res :=
  foldl forwardHeader r hs.

Definition stack_if_development (error : JsValue) : JsValue :=
  if String.eqb (server_env cfg) "development" then js_field "stack" error
  else JUndefined.

(** The [catch] of [proxyRequest]. *)
Definition proxy_error (req : Request) (error : JsValue) : M C unit :=
  console_write (logger_line "error" "Proxy error:"
                   [js_field "message" error; JStr (originalUrl req);
                    stack_if_development error]) ;;;
  modify_res (res_status 500) ;;;
  modify_res (res_end (SentJson (JObj [("error", JStr "Proxy error");
                                       ("message", js_field "message" error);
                                       ("stack", stack_if_development error)]))).

(** [proxyRequest] from [const isApiRequest = ...] to the end of its [try]
    block: the same text in both versions of [server.js]. Reading
    [req.user.email] for the log line throws when [req.user] is undefined
    or null, and [createDuplicateStream] throws at [sourceStream.on] when
    the data of a font is not a stream. *)
Definition proxy_forward (req : Request) (token : string) : M C unit :=
  let isApi := proxyService_isApiRequest req in
  (if nullish (user req)
   then lift (Throw (typeError D (ReadOfNullish (user req) "email")))
   else ret tt) ;;;
  console_write (logger_line "info" "Proxying"
                   [JStr (method req); JStr (originalUrl req);
                    js_field "email" (user req)]) ;;;
  response <- lift (makeRequest D
                {| ro_method := method req; ro_url := originalUrl req;
                   ro_headers := buildHeaders req token isApi;
                   ro_data := body req;
                   ro_responseType := if isApi then "json" else "stream" |}) ;;
  console_write (logger_line "info" "Proxy response:"
                   [JNum (status response); JStr (originalUrl req)]) ;;;
  modify_res (res_status (status response)) ;;;
  modify_res (forwardHeaders (up_headers response)) ;;;
  r <- get_res ;;
  if isFontFile D (path req) && (status response =? 200) then
    let normalizedPath := normalizeAssetPath D (path req) in
    let localPath := publicPath D normalizedPath in
    modify_res (res_setHeader "Content-Type" (getContentType D normalizedPath)) ;;;
    modify_res (res_setHeader "Cache-Control" "public, max-age=31536000") ;;;
    modify_res (res_setHeader "Access-Control-Allow-Origin" "*") ;;;
    (if nullish (data response)
     then lift (Throw (typeError D (ReadOfNullish (data response) "on")))
     else if data_is_stream response then ret tt
     else lift (Throw (typeError D (NotAFunction "sourceStream.on")))) ;;;
    write_public localPath ;;;
    modify_res (res_end (SentStream (data response)))
  else
    match (if isApi && (status response =? 200) then saveToCache r else None) with
    | Some closure =>
        run_saveToCache closure (data response) ;;;
        modify_res (res_end (SentJson (data response)))
    | None =>
        if truthy (data response) && data_is_stream response
        then modify_res (res_end (SentStream (data response)))
        else modify_res (res_end (SentJson (data response)))
    end.

(** [proxyRequest] of [server.js]: the cache middleware runs inside it,
    after the caller was authenticated. When the middleware answers from the
    cache it never calls its [next], and the handler stops there.

    [authenticate] and [authMiddleware] come in through [Deps] as what they
    make of the response: the lines they log are not on [console], which
    has the lines of the handler and of the cache middleware only. When
    [authenticate] refuses, it never calls its callback, the promise the
    handler awaits never settles and the handler runs no further: that end
    is [ret tt] here, like a return. *)
Definition proxyRequest (req : Request) : M C unit :=
  try_catch
    (auth <- on_res (authenticate D req) ;;
     match auth with
     | None => ret tt
     | Some u =>
         let req1 := with_user u req in
         tok <- on_res (authMiddleware D req1) ;;
         let req2 := with_accessToken tok req1 in
         match tok with
         | None => ret tt
         | Some token =>
             if falsy_string tok then ret tt
             else
               s <- cacheMiddleware req2 ;;
               match s with
               | Responded => ret tt
               | CalledNext =>
                   r <- get_res ;;
                   if headersSent r then ret tt else proxy_forward req2 token
               end
         end
     end)
    (proxy_error req).

(** The other [server.js]: [app.use(cacheMiddleware)] stands before the
    main handler, and [proxyRequest] does not call the middleware itself. *)
Definition proxyRequest_standalone (req : Request) : M C unit :=
  try_catch
    (auth <- on_res (authenticate D req) ;;
     match auth with
     | None => ret tt
     | Some u =>
         let req1 := with_user u req in
         tok <- on_res (authMiddleware D req1) ;;
         let req2 := with_accessToken tok req1 in
         match tok with
         | None => ret tt
         | Some token =>
             if falsy_string tok then ret tt
             else proxy_forward req2 token
         end
     end)
    (proxy_error req).

Definition cacheMiddleware_then_proxyRequest (req : Request) : M C unit :=
  s <- cacheMiddleware req ;;
  match s with
  | Responded => ret tt
  | CalledNext => proxyRequest_standalone req
  end.

(** *** Start-up

    Importing [middleware/cache.js] starts [initializeDatabase] and awaits
    it inside [try]; [server.js] then validates the configuration, leaves
    with exit code 1 when that throws, and listens otherwise. The awaited
    initialisation settles only after the module bodies have run: when the
    process has left by then, its [catch] and its log line never run.
    [boot_cache] is the cache once the initialisation has settled; a
    process that has left by then has none: the initialisation it had
    started is cut off wherever it was. *)

Record Boot := {
  process : ProcessState;
  boot_cache : option C;
  boot_log : list LogLine
}.

Definition initializeDatabase_block (c : C) : list LogLine * C :=
  match cm_initializeDatabase c with
  | (Normal _, c') =>
      ([console_log "Cache database initialized successfully" []], c')
  | (Throw error, c') =>
      ([console_error "Failed to initialize cache database:" [error]], c')
  end.

Definition startup (c : C) : Boot :=
  match validateConfig cfg with
  | Throw error =>
      {| process := Exited 1; boot_cache := None;
         boot_log := [logger_line "error" "Configuration validation failed:" [error]] |}
  | Normal _ =>
      let '(lines, c') := initializeDatabase_block c in
      {| process := Listening (server_port cfg); boot_cache := Some c';
         boot_log := logger_line "info" "Proxy server running on"
                       [JNum (server_port cfg)] :: lines |}
  end.

(** *** routes/cache.js: POST /revalidate

    Destructuring a body that is [undefined] or [null] throws a TypeError,
    whose message is the engine's ([destructure_message]). *)

Definition revalidate_route (destructure_message : string) (req : Request)
    : M C unit :=
  try_catch
    (match body req with
     | JUndefined | JNull => lift (Throw (js_error destructure_message))
     | _ =>
         let p := js_field "path" (body req) in
         if negb (truthy p) then
           modify_res (res_status 400) ;;;
           modify_res (res_end (SentJson (JObj [("error", JStr "Path is required")])))
         else
           result <- (λ w, let '(r, c') := cm_revalidatePath p (cache w) in
                           (r, {| cache := c'; res := res w; console := console w;
                                  publicFiles := publicFiles w; calls := calls w |})) ;;
           modify_res (res_end (SentJson result))
     end)
    (λ error,
       modify_res (res_status 500) ;;;
       modify_res (res_end (SentJson (JObj [("error", js_field "message" error)])))).

(** *** What one request does to the cache *)

(** The calls one request makes to the cache manager, start to end: none;
    or the load; or the load and, for an upstream response with status
    200, the save of its data. All for (originalUrl, method, body) of the
    request. *)
Definition request_calls (req : Request) (c : C) (trace : list CacheCall)
    (c' : C) : Prop :=
  let u := originalUrl req in
  let m := method req in
  let b := body req in
  (trace = [] ∧ c' = c) ∨
  (trace = [CallLoad u m b] ∧ c' = snd (cm_load u m b c)) ∨
  (∃ opts response,
     makeRequest D opts = Normal response ∧ status response = 200 ∧
     trace = [CallLoad u m b; CallSave u (data response) m b] ∧
     c' = snd (cm_save u (data response) m b (snd (cm_load u m b c)))).

(** The two ways the sources run a proxied request against the cache:
    [proxyRequest] with the middleware inside it, and the other version's chain of
    [cacheMiddleware] and [proxyRequest]. *)
Definition proxied (req : Request) (c : C)
    : list (Completion unit * World C) :=
  [proxyRequest req (freshWorld c);
   cacheMiddleware_then_proxyRequest req (freshWorld c)].

End Handlers.

Arguments forwardHeaders : simpl never.

(** What the end caller and the rest of the system can see of a handled
    request: how the handler ended, the response, the cache, the calls to
    the cache manager and the files written. The console is left out. *)
Definition outcome {C} (out : Completion unit * World C)
    : Completion unit * Res * C * list CacheCall * list string :=
  (fst out, res (snd out), cache (snd out), calls (snd out),
   publicFiles (snd out)).

(** ** The cache manager

    Modelled from the spec: [cacheManager.js] (the class [CacheManager]
    behind [load], [save], [exists], [revalidatePath], [clearAll],
    [cleanup] and [getStats]) is not among the sources at hand. The
    definitions of this module follow the specification's sections 3
    and 4: the Metadata Index is the table of [CacheEntry] rows, the Blob
    Store a map from locations to files, and every operation takes the
    store and returns its result with the store it leaves. The index is a
    list; the order of its rows carries no meaning (rows are found by
    identity). *)
Module CacheManager.

(** Modelled from the spec: the leaves of the Key Deriver, which the
    specification describes without fixing them ("a fixed set" of stripped
    parameters, "a fast, deterministic hash", "filesystem-safe
    characters", "a mutating method, e.g. POST", a "representation" of
    the body). *)
Record KeyDeriver := {
  normalizeUrl : string → string;
  mutating : string → bool;
  stringify : JsValue → string;
  digest : string → string;
  sanitize : string → string
}.

(** Modelled from the spec: CacheEntry (section 3), one row of the Metadata
    Index. Sizes and counters are natural numbers, timestamps are
    milliseconds. *)
Record CacheEntry := {
  rawUrl : string;
  normalizedUrl : string;
  method : string;
  bodyFingerprint : option string;
  location : string;
  sizeBytes : N;
  createdAt : Z;
  accessedAt : Z;
  accessCount : N
}.

(** Modelled from the spec: the serialized entry the Blob Store writes
    (section 4.2): original URL, normalized URL, method, body, timestamp,
    payload. *)
Record Blob := {
  blob_url : string;
  blob_normalizedUrl : string;
  blob_method : string;
  blob_body : JsValue;
  blob_timestamp : Z;
  payload : JsValue
}.

(** Modelled from the spec: a file under the cache root, a stored entry
    or bytes that do not parse as one (the "malformed stored entry" of
    section 7). *)
Inductive File :=
| Stored (b : Blob)
| Malformed.

(** Modelled from the spec: the state of the cache: the Metadata Index,
    the Blob Store (location to file) and the lines logged. *)
Record Store := {
  index : list CacheEntry;
  blobs : gmap string File;
  log : list LogLine
}.

(** Modelled from the spec: the cache after initialisation, before any
    Save. *)
Definition empty_store : Store := {| index := []; blobs := ∅; log := [] |}.

(** Modelled from the spec: what the disk does to one call (section 7):
    the locations at which a write, or the removal of a file, fails. *)
Record Faults := {
  write_fails : string → bool;
  unlink_fails : string → bool
}.

(** Modelled from the spec: a disk on which nothing fails. *)
Definition no_faults : Faults :=
  {| write_fails := λ _, false; unlink_fails := λ _, false |}.

(** Modelled from the spec: the identity of a logical request,
    (normalizedUrl, method, bodyFingerprint). *)
Definition Identity : Type := string * string * option string.

(** Modelled from the spec: the identity tuple of a row. *)
Definition identity (e : CacheEntry) : Identity :=
  (normalizedUrl e, method e, bodyFingerprint e).

(** Modelled from the spec: exact match of a row on the identity tuple. *)
Definition has_identity (i : Identity) (e : CacheEntry) : bool :=
  bool_decide (identity e = i).

(** Modelled from the spec: the invariant of section 3, at most one row
    per identity. *)
Definition unique_identities (rows : list CacheEntry) : Prop :=
  NoDup (identity <$> rows).

(** Modelled from the spec: the sum of [sizeBytes] over rows. *)
Fixpoint total_size (rows : list CacheEntry) : N :=
  match rows with
  | [] => 0%N
  | e :: rest => (sizeBytes e + total_size rest)%N
  end.

(** *** Metadata Index *)

(** Modelled from the spec: Lookup (section 4.3), exact match on the
    identity tuple. *)
Definition lookup_entry (i : Identity) (rows : list CacheEntry) : option CacheEntry :=
  List.find (has_identity i) rows.

(** Modelled from the spec: the separate step after a hit, which bumps
    [accessedAt] and [accessCount]. *)
Definition bump (now : Z) (e : CacheEntry) : CacheEntry :=
  {| rawUrl := rawUrl e; normalizedUrl := normalizedUrl e; method := method e;
     bodyFingerprint := bodyFingerprint e; location := location e;
     sizeBytes := sizeBytes e; createdAt := createdAt e;
     accessedAt := now; accessCount := (accessCount e + 1)%N |}.

(** Modelled from the spec: the bump, applied to the row of an identity. *)
Fixpoint touch (now : Z) (i : Identity) (rows : list CacheEntry) : list CacheEntry :=
  match rows with
  | [] => []
  | e :: rest =>
      if has_identity i e then bump now e :: rest
      else e :: touch now i rest
  end.

(** Modelled from the spec: a row with its counter set. *)
Definition with_accessCount (n : N) (e : CacheEntry) : CacheEntry :=
  {| rawUrl := rawUrl e; normalizedUrl := normalizedUrl e; method := method e;
     bodyFingerprint := bodyFingerprint e; location := location e;
     sizeBytes := sizeBytes e; createdAt := createdAt e;
     accessedAt := accessedAt e; accessCount := n |}.

(** Modelled from the spec: Upsert (section 4.3). Insert the row with
    accessCount 1, or, when its identity is already there, put the new
    size, location and timestamps in its place and count one more than
    the row counted before. *)
Fixpoint upsert (new : CacheEntry) (rows : list CacheEntry) : list CacheEntry :=
  match rows with
  | [] => [with_accessCount 1 new]
  | e :: rest =>
      if has_identity (identity new) e
      then with_accessCount (accessCount e + 1) new :: rest
      else e :: upsert new rest
  end.

(** Modelled from the spec: the row an upsert leaves for the identity it
    wrote. *)
Definition upserted (new : CacheEntry) (rows : list CacheEntry) : CacheEntry :=
  match lookup_entry (identity new) rows with
  | Some e => with_accessCount (accessCount e + 1) new
  | None => with_accessCount 1 new
  end.

(** Modelled from the spec: the [normalizedUrl] of the row starts with
    the prefix. *)
Definition under_prefix (prefix : string) (e : CacheEntry) : bool :=
  startsWith (normalizedUrl e) prefix.

(** Modelled from the spec: PrefixSearch (section 4.3), all rows whose
    [normalizedUrl] starts with the prefix. *)
Definition prefixSearch (prefix : string) (rows : list CacheEntry) : list CacheEntry :=
  List.filter (under_prefix prefix) rows.

(** Modelled from the spec: DeleteByPredicate (section 4.3): the rows
    removed, whose locations and sizes go to the caller, and the rows
    left. *)
Definition deleteByPredicate (p : CacheEntry → bool) (rows : list CacheEntry)
    : list CacheEntry * list CacheEntry :=
  (List.filter p rows, List.filter (λ e, negb (p e)) rows).

(** *** Blob Store *)

(** Modelled from the spec: Delete (section 4.2) over the removed rows. A
    removal that fails is logged and skipped: the file stays, the rest of
    the batch goes on. *)
Definition unlink_all (io : Faults) (victims : list CacheEntry)
    (files : gmap string File) : gmap string File :=
  foldl (λ acc e, if unlink_fails io (location e) then acc
                  else delete (location e) acc)
        files victims.

(** Modelled from the spec: the removed rows whose file was deleted. *)
Definition unlinked (io : Faults) (victims : list CacheEntry) : list CacheEntry :=
  List.filter (λ e, negb (unlink_fails io (location e))) victims.

(** Modelled from the spec: the log lines of the removals that failed. *)
Definition unlink_errors (io : Faults) (victims : list CacheEntry) : list LogLine :=
  (λ e, console_error "Failed to delete cache file" [JStr (location e)]) <$>
  List.filter (λ e, unlink_fails io (location e)) victims.

(** *** Eviction/Cleanup Engine *)

(** Modelled from the spec: the options of a cleanup pass,
    [{maxAgeDays, minAccessCount, maxTotalSizeBytes}], each optional. *)
Record CleanupOptions := {
  maxAgeDays : option Z;
  minAccessCount : option N;
  maxTotalSizeBytes : option N
}.

(** Modelled from the spec: what Cleanup returns, [{deletedCount,
    deletedBytes}]. *)
Record CleanupResult := {
  deletedCount : nat;
  deletedBytes : N
}.

(** Modelled from the spec: a day, in the unit of the timestamps. *)
Definition msPerDay : Z := 86400000.

(** Modelled from the spec: Max age (section 4.4): [accessedAt] is older
    than now minus the given days. *)
Definition older_than (now days : Z) (e : CacheEntry) : bool :=
  accessedAt e <? now - days * msPerDay.

(** Modelled from the spec: Min access count (section 4.4):
    [accessCount] is below the threshold. *)
Definition rarely_used (k : N) (e : CacheEntry) : bool :=
  (accessCount e <? k)%N.

(** Modelled from the spec: the order (accessedAt ascending, accessCount
    ascending) of section 4.4. *)
Definition lru_le (x y : CacheEntry) : Prop :=
  accessedAt x < accessedAt y ∨
  (accessedAt x = accessedAt y ∧ (accessCount x ≤ accessCount y)%N).

#[global] Instance lru_le_dec : RelDecision lru_le.
Proof. intros x y. unfold lru_le. apply _. Defined.

(** Modelled from the spec: the rows, ordered by (accessedAt ascending,
    accessCount ascending). *)
Definition eviction_order (rows : list CacheEntry) : list CacheEntry :=
  merge_sort lru_le rows.

(** Modelled from the spec: delete from the front of the ordered rows
    until the total is at or below the budget: the rows deleted, and the
    rows left. *)
Fixpoint evict (budget total : N) (ordered : list CacheEntry)
    : list CacheEntry * list CacheEntry :=
  match ordered with
  | [] => ([], [])
  | e :: rest =>
      if (total <=? budget)%N then ([], ordered)
      else
        let '(gone, kept) := evict budget (total - sizeBytes e) rest in
        (e :: gone, kept)
  end.

(** Modelled from the spec: Max total size (section 4.4): when the sum of
    [sizeBytes] exceeds the budget, evict in eviction order. *)
Definition size_pass (budget : N) (rows : list CacheEntry)
    : list CacheEntry * list CacheEntry :=
  if (total_size rows <=? budget)%N then ([], rows)
  else evict budget (total_size rows) (eviction_order rows).

(** Modelled from the spec: a criterion applies when its option is given. *)
Definition optional_pass {A} (o : option A) (pass : A → list CacheEntry →
    list CacheEntry * list CacheEntry) (rows : list CacheEntry)
    : list CacheEntry * list CacheEntry :=
  match o with
  | Some a => pass a rows
  | None => ([], rows)
  end.

(** Modelled from the spec: the rows a cleanup leaves. *)
Definition survivors (now : Z) (opts : CleanupOptions) (rows : list CacheEntry)
    : list CacheEntry :=
  let rows1 :=
    match maxAgeDays opts with
    | Some d => List.filter (λ e, negb (older_than now d e)) rows
    | None => rows
    end in
  let rows2 :=
    match minAccessCount opts with
    | Some k => List.filter (λ e, negb (rarely_used k e)) rows1
    | None => rows1
    end in
  match maxTotalSizeBytes opts with
  | Some budget => snd (size_pass budget rows2)
  | None => rows2
  end.

(** Modelled from the spec: Cleanup (section 4.4). The three criteria in
    sequence, each on the rows the one before left; the files of all
    removed rows are deleted at the end. The counts are of what was
    deleted with its file. *)
Definition cleanup (io : Faults) (now : Z) (opts : CleanupOptions) (st : Store)
    : CleanupResult * Store :=
  let '(v1, rows1) :=
    optional_pass (maxAgeDays opts)
      (λ d, deleteByPredicate (older_than now d)) (index st) in
  let '(v2, rows2) :=
    optional_pass (minAccessCount opts)
      (λ k, deleteByPredicate (rarely_used k)) rows1 in
  let '(v3, rows3) := optional_pass (maxTotalSizeBytes opts) size_pass rows2 in
  let victims := v1 ++ v2 ++ v3 in
  ({| deletedCount := length (unlinked io victims);
      deletedBytes := total_size (unlinked io victims) |},
   {| index := rows3;
      blobs := unlink_all io victims (blobs st);
      log := log st ++ unlink_errors io victims |}).

(** *** Aggregate *)

(** Modelled from the spec: the summary of Aggregate (section 4.3); the
    averages are floating point and the ranked views are left out. *)
Record Summary := {
  totalEntries : nat;
  totalSize : N;
  maxSize : N;
  maxAccessCount : N
}.

(** Modelled from the spec: Stats, the summary over the live rows. *)
Definition getStats (st : Store) : Summary :=
  {| totalEntries := length (index st);
     totalSize := total_size (index st);
     maxSize := foldr (λ e acc, N.max (sizeBytes e) acc) 0%N (index st);
     maxAccessCount := foldr (λ e acc, N.max (accessCount e) acc) 0%N (index st) |}.

Section Gateway.
Context (K : KeyDeriver).

(** *** Key Deriver *)

(** Modelled from the spec: the body representation, part of the identity
    for mutating methods only. *)
Definition fingerprint (m : string) (b : JsValue) : option string :=
  if mutating K m then Some (stringify K b) else None.

(** Modelled from the spec: the identity of a request (url, method,
    body). *)
Definition request_identity (url m : string) (b : JsValue) : Identity :=
  (normalizeUrl K url, m, fingerprint m b).

(** Modelled from the spec: DeriveKey (section 4.1), the hash of
    method:normalizedUrl[:bodyRepresentation]. *)
Definition deriveKey (i : Identity) : string :=
  let '(n, m, fp) := i in
  digest K (m +:+ ":" +:+ n +:+
            match fp with
            | Some r => ":" +:+ r
            | None => EmptyString
            end).

(** Modelled from the spec: a string split at a separator. *)
Fixpoint split_on (sep : ascii) (s : string) : list string :=
  match s with
  | EmptyString => [EmptyString]
  | String c rest =>
      if Ascii.eqb c sep then EmptyString :: split_on sep rest
      else match split_on sep rest with
           | [] => [String c EmptyString]
           | seg :: segs => String c seg :: segs
           end
  end.

(** Modelled from the spec: the path segments of a normalized URL. *)
Definition segments (n : string) : list string :=
  List.filter (λ seg, negb (String.eqb seg EmptyString)) (split_on "/" n).

(** Modelled from the spec: DeriveLocation (section 4.1). The directory
    chain of the path, a shard named by the first two characters of the
    key, and a file named by the sanitized last segment and the whole
    key. *)
Definition deriveLocation (n key : string) : string :=
  let segs := segments n in
  let dirs := removelast segs in
  let stem := sanitize K (List.last segs EmptyString) in
  join "/" (["data"] ++ dirs ++
            [String.substring 0 2 key; stem +:+ "_" +:+ key +:+ ".json"]).

(** *** Cache Gateway *)

(** Modelled from the spec: Save (sections 4.2, 4.5, 7). The blob is
    written first and the row upserted after it; a write that fails is
    logged, stores nothing and returns the false flag. *)
Definition save (io : Faults) (now : Z) (url : string) (data : JsValue)
    (m : string) (b : JsValue) (st : Store) : bool * Store :=
  let i := request_identity url m b in
  let loc := deriveLocation (normalizeUrl K url) (deriveKey i) in
  if write_fails io loc then
    (false,
     {| index := index st; blobs := blobs st;
        log := log st ++ [console_error "Failed to save cache entry" [JStr url]] |})
  else
    let entry :=
      {| rawUrl := url; normalizedUrl := normalizeUrl K url; method := m;
         bodyFingerprint := fingerprint m b; location := loc;
         sizeBytes := N.of_nat (String.length (stringify K data));
         createdAt := now; accessedAt := now; accessCount := 1 |} in
    let file :=
      Stored {| blob_url := url; blob_normalizedUrl := normalizeUrl K url;
                blob_method := m; blob_body := b; blob_timestamp := now;
                payload := data |} in
    (true,
     {| index := upsert entry (index st);
        blobs := <[loc := file]> (blobs st);
        log := log st |}).

(** Modelled from the spec: Load (sections 4.3, 4.5, 7). The index is
    asked first; [None] is a miss: no row, no file where the row points,
    or a file that does not parse. A hit bumps the row. *)
Definition load (now : Z) (url m : string) (b : JsValue) (st : Store)
    : option JsValue * Store :=
  let i := request_identity url m b in
  match lookup_entry i (index st) with
  | None => (None, st)
  | Some e =>
      match blobs st !! location e with
      | Some (Stored blob) =>
          (Some (payload blob),
           {| index := touch now i (index st); blobs := blobs st; log := log st |})
      | Some Malformed | None => (None, st)
      end
  end.

(** Modelled from the spec: Exists (section 4.5), whether the index has a
    row of the identity. *)
Definition exists_ (url m : string) (b : JsValue) (st : Store) : bool :=
  match lookup_entry (request_identity url m b) (index st) with
  | Some _ => true
  | None => false
  end.

(** Modelled from the spec: Revalidate (sections 4.3, 4.5). Remove the
    rows under the prefix and their files; return how many rows. *)
Definition revalidatePath (io : Faults) (prefix : string) (st : Store) : nat * Store :=
  let '(victims, rest) := deleteByPredicate (under_prefix prefix) (index st) in
  (length victims,
   {| index := rest;
      blobs := unlink_all io victims (blobs st);
      log := log st ++ unlink_errors io victims |}).

(** Modelled from the spec: ClearAll (section 4.5). Every row goes, and
    every file whose removal does not fail. *)
Definition clearAll (io : Faults) (st : Store) : bool * Store :=
  (true,
   {| index := [];
      blobs := filter (λ kv, unlink_fails io (fst kv) = true) (blobs st);
      log := log st |}).

(** *** Sequences of Gateway operations *)

(** Modelled from the spec: the operations of the Cache Gateway (section
    4.5), with the time and the disk faults of each call. *)
Inductive Op :=
| Load (now : Z) (url m : string) (b : JsValue)
| Save (io : Faults) (now : Z) (url : string) (data : JsValue) (m : string) (b : JsValue)
| Exists (url m : string) (b : JsValue)
| Revalidate (io : Faults) (prefix : string)
| ClearAll (io : Faults)
| Cleanup (io : Faults) (now : Z) (opts : CleanupOptions)
| Stats.

(** Modelled from the spec: the store one operation leaves. *)
Definition step (st : Store) (o : Op) : Store :=
  match o with
  | Load now url m b => snd (load now url m b st)
  | Save io now url data m b => snd (save io now url data m b st)
  | Exists _ _ _ => st
  | Revalidate io prefix => snd (revalidatePath io prefix st)
  | ClearAll io => snd (clearAll io st)
  | Cleanup io now opts => snd (cleanup io now opts st)
  | Stats => st
  end.

(** Modelled from the spec: the store a sequence of operations leaves. *)
Definition run (ops : list Op) (st : Store) : Store := foldl step st ops.

End Gateway.

End CacheManager.

(** ** The cache manager behind the middleware

    Modelled from the spec: how the methods of [cacheManager.js] answer
    their callers. [load] resolves to the payload, or to [null] on a miss;
    [save] to the success flag; [revalidatePath] to [{deletedCount}];
    [initializeDatabase] throws when the cache root or the index cannot be
    set up ([init_error]). The disk faults and the clock of a call are
    those of the request being served. *)
Definition gateway_api (K : CacheManager.KeyDeriver) (io : CacheManager.Faults)
    (now : Z) (init_error : option JsValue) : CacheManagerAPI CacheManager.Store :=
  {| cm_load url m b st :=
       let r := CacheManager.load K now url m b st in
       (Normal (default JNull (fst r)), snd r);
     cm_save url d m b st :=
       let r := CacheManager.save K io now url d m b st in
       (Normal (JBool (fst r)), snd r);
     cm_initializeDatabase st :=
       match init_error with
       | Some error => (Throw error, st)
       | None => (Normal tt, st)
       end;
     cm_revalidatePath p st :=
       match p with
       | JStr prefix =>
           let r := CacheManager.revalidatePath io prefix st in
           (Normal (JObj [("deletedCount", JNum (Z.of_nat (fst r)))]), snd r)
       | _ => (Throw (js_error "path must be a string"), st)
       end |}.

(** A manager with another [load] in its place. *)
Definition with_load {C} (A : CacheManagerAPI C)
    (f : string → string → JsValue → C → Completion JsValue * C)
    : CacheManagerAPI C :=
  {| cm_load := f;
     cm_save := @cm_save C A;
     cm_initializeDatabase := @cm_initializeDatabase C A;
     cm_revalidatePath := @cm_revalidatePath C A |}.

(** ** A small installation, for running the definitions *)
Module Sample.

Definition deriver : CacheManager.KeyDeriver :=
  {| CacheManager.normalizeUrl := λ url, url;
     CacheManager.mutating := λ m, String.eqb m "POST";
     CacheManager.stringify := λ v,
       match v with
       | JStr s => s
       | JNull => "null"
       | JBool true => "true"
       | JBool false => "false"
       | _ => "{}"
       end;
     CacheManager.digest := λ s, s;
     CacheManager.sanitize := λ s, s |}.

Definition cfg : Config :=
  {| auth_email := Some "service@example.com"; auth_password := Some "secret";
     server_port := 3000; server_env := "production" |}.

(** The TypeErrors as V8 words them. *)
Definition v8_typeError (f : Fault) : JsValue :=
  match f with
  | ReadOfNullish v property =>
      js_error ("Cannot read properties of "
                +:+ (match v with JNull => "null" | _ => "undefined" end)
                +:+ " (reading '" +:+ property +:+ "')")
  | NotAFunction callee => js_error (callee +:+ " is not a function")
  end.

(** The caller is whoever the authorization header names. *)
Definition deps (upstream : Upstream) : Deps :=
  {| authenticate := λ req r,
       match headers req !! "authorization" with
       | Some who => (Some (JObj [("email", JStr who)]), r)
       | None =>
           (None,
            res_end (SentJson (JObj [("error", JStr "Authentication required")]))
                    (res_status 400 r))
       end;
     authMiddleware := λ _ r, (Some "upstream-token", r);
     makeRequest := λ _, Normal upstream;
     isFontFile := λ _, false;
     normalizeAssetPath := λ p, p;
     getContentType := λ _, "application/octet-stream";
     publicPath := λ p, "public" +:+ p;
     typeError := v8_typeError |}.

Definition users : JsValue := JObj [("name", JStr "a")].

Definition ok_upstream : Upstream :=
  {| status := 200; up_headers := [("content-type", "application/json")];
     data := users; data_is_stream := false |}.

Definition get_users (who : string) : Request :=
  {| method := "GET"; originalUrl := "/api/users?id=5"; path := "/api/users";
     headers := {[ "authorization" := who ]}; body := JUndefined;
     user := JUndefined; accessToken := None |}.

Definition put_users : Request :=
  {| method := "PUT"; originalUrl := "/api/users?id=5"; path := "/api/users";
     headers := {[ "authorization" := "alice" ]}; body := JUndefined;
     user := JUndefined; accessToken := None |}.

Definition disk_full : CacheManager.Faults :=
  {| CacheManager.write_fails := λ _, true;
     CacheManager.unlink_fails := λ _, false |}.

Definition healthy : CacheManagerAPI CacheManager.Store :=
  gateway_api deriver CacheManager.no_faults 1000 None.

Definition index_down : JsValue := js_error "SQLITE_CANTOPEN".

End Sample.

(** ** A caller let through by [proxyRequest]

    [authenticate] called its [next], leaving [u] in [req.user], and
    [authMiddleware] left a token that is not empty; [r] is the response
    object as the handler holds it then. *)
Definition let_through_as (D : Deps) (req : Request) (u : JsValue)
    (token : string) (r : Res) : Prop :=
  ∃ r1 r2,
    authenticate D req freshRes = (Some u, r1) ∧
    authMiddleware D (with_user u req) (keep_hook freshRes r1) = (Some token, r2) ∧
    token ≠ EmptyString ∧
    r = keep_hook (keep_hook freshRes r1) r2.

Definition let_through (D : Deps) (req : Request) (token : string) (r : Res) : Prop :=
  ∃ u, let_through_as D req u token r.

(** The request is cacheable and the lookup for it gives [v], leaving the
    cache as [c']. *)
Definition looked_up {C} `{CacheManagerAPI C} (req : Request) (c : C)
    (v : Completion JsValue) (c' : C) : Prop :=
  arrayIncludes ["GET"; "POST"] (method req) = true ∧
  isApiRequest req = true ∧
  cm_load (originalUrl req) (method req) (body req) c = (v, c').

(** The response the handler holds when the upstream is asked: nothing was
    sent by the checks, and the lookup, if there was one, found nothing to
    serve. *)
Definition not_served {C} `{CacheManagerAPI C} (req : Request) (r : Res) (c c' : C) : Prop :=
  sent r = None ∧
  ((arrayIncludes ["GET"; "POST"] (method req) && isApiRequest req = false ∧ c' = c) ∨
   ∃ v, looked_up req c v c' ∧ ∀ d, v = Normal d → truthy d = false).

(** The options [proxyRequest] hands to [proxyService.makeRequest]. *)
Definition requestOptions (req : Request) (token : string) : RequestOptions :=
  let isApi := proxyService_isApiRequest req in
  {| ro_method := method req; ro_url := originalUrl req;
     ro_headers := buildHeaders req token isApi;
     ro_data := body req;
     ro_responseType := if isApi then "json" else "stream" |}.

Module Sample2.

Definition failing_upstream : Deps :=
  {| authenticate := authenticate (Sample.deps Sample.ok_upstream);
     authMiddleware := authMiddleware (Sample.deps Sample.ok_upstream);
     makeRequest := λ _, Throw (JObj [("message", JStr "ECONNRESET");
                                      ("stack", JStr "at makeRequest")]);
     isFontFile := λ _, false;
     normalizeAssetPath := λ p, p;
     getContentType := λ _, "application/octet-stream";
     publicPath := λ p, "public" +:+ p;
     typeError := Sample.v8_typeError |}.


Definition anonymous : Request :=
  {| method := "GET"; originalUrl := "/api/users?id=5"; path := "/api/users";
     headers := ∅; body := JUndefined; user := JUndefined; accessToken := None |}.

(** A request whose URL does not tell that it is an API request: it is
    one with the accept header of [as_json], and not one without. *)
Definition get_list (who : string) (as_json : bool) : Request :=
  {| method := "GET"; originalUrl := "/vehicle/list"; path := "/vehicle/list";
     headers := if as_json
                then <[ "accept" := "application/json" ]> {[ "authorization" := who ]}
                else {[ "authorization" := who ]};
     body := JUndefined; user := JUndefined; accessToken := None |}.

(** The auth server vouches for the token and names no user. *)
Definition no_user : Deps :=
  {| authenticate := λ _ r, (Some JUndefined, r);
     authMiddleware := authMiddleware (Sample.deps Sample.ok_upstream);
     makeRequest := makeRequest (Sample.deps Sample.ok_upstream);
     isFontFile := λ _, false;
     normalizeAssetPath := λ p, p;
     getContentType := λ _, "application/octet-stream";
     publicPath := λ p, "public" +:+ p;
     typeError := Sample.v8_typeError |}.




End Sample2.

(** * authManager.js and middleware/auth.js

    The token of the upstream service: kept in memory ([this.cachedToken])
    and in the file TOKEN_CACHE_FILE. Times are milliseconds as [Date.now()]
    gives them. The upstream API is taken to send strings for the two
    tokens and integers for the two lifetimes. *)
Module AuthManager.

Record TokenData := {
  td_accessToken : string;
  td_refreshToken : string;
  td_expiresInAccessToken : Z;
  td_expiresInRefreshToken : Z;
  td_customer : JsValue
}.

(** [issuedAt] is [new Date(token.issuedAt).getTime()]; [None] stands for a
    field that is missing, empty or not a date (the comparisons with NaN
    are false, as is the result for a falsy field). *)
Record Token := {
  tok_accessToken : string;
  tok_refreshToken : string;
  expiresInAccessToken : Z;
  expiresInRefreshToken : Z;
  issuedAt : option Z;
  customerData : JsValue
}.

(** What [axios.post] and [axios.patch] come back with: an error with its
    message, or a response with [data.statusCode] and [data.data]. *)
Inductive Reply :=
  | NetworkError (message : string)
  | Answer (statusCode : Z) (payload : TokenData).

(** What one call finds around it: the clock when it starts ([now], read
    by the validity checks, which follow each other without a wait) and
    when the reply of the upstream API is in ([replied], the [new Date()]
    of the token), the replies, and whether writing the token file
    fails. *)
Record Env := {
  now : Z;
  replied : Z;
  post_login : JsValue → JsValue → Reply;
  patch_refresh : string → Reply;
  writeFile_error : option JsValue;
  chmod_error : option JsValue
}.

Record State := {
  cachedToken : option Token;
  tokenFile : option Token;
  console : list LogLine
}.

(** [new AuthManager(email, password)] before [loadCachedToken] has read
    the file. *)
Definition fresh (file : option Token) : State :=
  {| cachedToken := None; tokenFile := file; console := [] |}.

Definition log (l : LogLine) (st : State) : State :=
  {| cachedToken := cachedToken st; tokenFile := tokenFile st;
     console := console st ++ [l] |}.

Definition isTokenValid (env : Env) (token : Token) : bool :=
  match issuedAt token with
  | None => false
  | Some issued => now env <? issued + expiresInAccessToken token
  end.

Definition isRefreshTokenValid (env : Env) (token : Token) : bool :=
  match issuedAt token with
  | None => false
  | Some issued => now env <? issued + expiresInRefreshToken token
  end.

Definition loadCachedToken (env : Env) (st : State) : State :=
  match tokenFile st with
  | Some token =>
      if isTokenValid env token
      then {| cachedToken := Some token; tokenFile := tokenFile st;
              console := console st |}
      else st
  | None => st
  end.

Definition saveCachedToken (env : Env) (token : Token) (st : State) : State :=
  match writeFile_error env with
  | Some error => log (console_error "Failed to save token cache:" [error]) st
  | None =>
      let st' := {| cachedToken := cachedToken st; tokenFile := Some token;
                    console := console st |} in
      match chmod_error env with
      | Some error => log (console_error "Failed to save token cache:" [error]) st'
      | None => st'
      end
  end.

Definition token_of (env : Env) (d : TokenData) : Token :=
  {| tok_accessToken := td_accessToken d;
     tok_refreshToken := td_refreshToken d;
     expiresInAccessToken := td_expiresInAccessToken d;
     expiresInRefreshToken := td_expiresInRefreshToken d;
     issuedAt := Some (replied env);
     customerData := td_customer d |}.

(** The [try] block shared by [login] and [refreshToken], from the reply
    on; [what] is "Login" or "Token refresh". *)
Definition accept (what : string) (env : Env) (reply : Reply) (st : State)
    : Completion string * State :=
  match reply with
  | NetworkError message => (Throw (js_error (what +:+ " failed: " +:+ message)), st)
  | Answer statusCode payload =>
      if negb (statusCode =? 201)
      then (Throw (js_error (what +:+ " failed: " +:+ what +:+
                             " failed with status code: " +:+ pretty statusCode)),
            st)
      else
        let token := token_of env payload in
        (Normal (tok_accessToken token),
         saveCachedToken env token
           {| cachedToken := Some token; tokenFile := tokenFile st;
              console := console st |})
  end.

Definition login (env : Env) (email password : JsValue) (st : State)
    : Completion string * State :=
  accept "Login" env (post_login env email password) st.

Definition refreshToken (env : Env) (st : State) : Completion string * State :=
  match cachedToken st with
  | Some token =>
      if isRefreshTokenValid env token
      then accept "Token refresh" env (patch_refresh env (tok_refreshToken token)) st
      else (Throw (js_error "No valid refresh token available"), st)
  | None => (Throw (js_error "No valid refresh token available"), st)
  end.

Definition console_warn (msg : string) (vs : list JsValue) : LogLine :=
  {| sink := Console; level := "warn"; text := msg; args := vs |}.

Definition fall_back_to_login (env : Env) (email password : JsValue) (st : State)
    : Completion string * State :=
  login env email password
    (log (console_log "No valid token, attempting login with:"
            [JStr (if truthy email then "email provided" else "no email")]) st).

Definition getValidToken (env : Env) (email password : JsValue) (st : State)
    : Completion string * State :=
  let st := log (console_log "getValidToken called" []) st in
  match cachedToken st with
  | Some token =>
      if isTokenValid env token
      then (Normal (tok_accessToken token), log (console_log "Using cached token" []) st)
      else if isRefreshTokenValid env token
      then
        match refreshToken env (log (console_log "Attempting to refresh token" []) st) with
        | (Normal accessToken, st') => (Normal accessToken, st')
        | (Throw error, st') =>
            fall_back_to_login env email password
              (log (console_warn "Token refresh failed, falling back to login:"
                      [js_field "message" error]) st')
        end
      else fall_back_to_login env email password st
  | None => fall_back_to_login env email password st
  end.

(** The same surroundings with other outcomes of writing the token file. *)
Definition with_write_errors (w ch : option JsValue) (env : Env) : Env :=
  {| now := now env; replied := replied env; post_login := post_login env;
     patch_refresh := patch_refresh env; writeFile_error := w; chmod_error := ch |}.

(** ** middleware/auth.js *)

(** [config.auth.email] and [config.auth.password] as JavaScript has
    them. *)
Definition credential (v : option string) : JsValue :=
  match v with Some s => JStr s | None => JUndefined end.

(** What a call of [authMiddleware] leaves: the state of the shared
    manager, the request, the response, whether [next] was called, and the
    value the function returned. *)
Record Outcome := {
  out_state : State;
  out_req : Request;
  out_res : Res;
  nextCalled : bool;
  returned : JsValue
}.

Definition authMiddleware (env : Env) (cfg : Config) (st : State)
    (req : Request) (r : Res) : Outcome :=
  match getValidToken env (credential (auth_email cfg))
          (credential (auth_password cfg)) st with
  | (Normal accessToken, st') =>
      {| out_state := st'; out_req := with_accessToken (Some accessToken) req;
         out_res := r; nextCalled := true; returned := JUndefined |}
  | (Throw error, st') =>
      {| out_state := log (console_error "Authentication error:" [error]) st';
         out_req := req;
         out_res := res_end (SentJson (JObj [("error", JStr "Authentication failed");
                                             ("details", js_field "message" error)]))
                      (res_status 500 r);
         nextCalled := false; returned := JUndefined |}
  end.

End AuthManager.

(** The handlers of [server.js] with the [authMiddleware] of
    [middleware/auth.js] for the one they are given. *)
Definition with_authManager (env : AuthManager.Env) (cfg : Config)
    (st : AuthManager.State) (D : Deps)
    : Deps :=
  {| authenticate := authenticate D;
     authMiddleware := λ req r,
       let o := AuthManager.authMiddleware env cfg st req r in
       (accessToken (AuthManager.out_req o), AuthManager.out_res o);
     makeRequest := makeRequest D;
     isFontFile := isFontFile D;
     normalizeAssetPath := normalizeAssetPath D;
     getContentType := getContentType D;
     publicPath := publicPath D;
     typeError := typeError D |}.

(** ** routes/auth.js: POST /login

    The route makes a manager of its own for the credentials in the body
    and logs it in; the manager writes the token file of the service.
    [file] is that file before and after. Destructuring a body that is
    [undefined] or [null] throws a TypeError, whose message is the
    engine's ([destructure_message]). *)
Definition login_route (destructure_message : string) (env : AuthManager.Env)
    (file : option AuthManager.Token) (req : Request) (r : Res)
    : Res * option AuthManager.Token :=
  let unauthorized error file' :=
    (res_end (SentJson (JObj [("success", JBool false);
                              ("error", js_field "message" error)]))
       (res_status 401 r), file') in
  match body req with
  | JUndefined | JNull => unauthorized (js_error destructure_message) file
  | _ =>
      let email := js_field "email" (body req) in
      let password := js_field "password" (body req) in
      if negb (truthy email) || negb (truthy password) then
        (res_end (SentJson (JObj [("success", JBool false);
                                  ("error", JStr "Email and password are required")]))
           (res_status 400 r), file)
      else
        match AuthManager.login env email password (AuthManager.fresh file) with
        | (Normal token, st') =>
            (res_end (SentJson (JObj [("success", JBool true);
                                      ("accessToken", JStr token)])) r,
             AuthManager.tokenFile st')
        | (Throw error, st') => unauthorized error (AuthManager.tokenFile st')
        end
  end.

(** ** [handleReactRoute] of [server.js]

    Up to the check of what [authMiddleware] returned; [rest] is the code
    after it (the request for the page and its rewriting). What
    [authMiddleware] and the manager write to the console goes to the
    console of the handler's world; the token the manager is left with is
    in [out_state] of [AuthManager.authMiddleware] and is not part of that
    world. *)
Section ReactRoute.
Context {C : Type} `{CacheManagerAPI C}.
Context (D : Deps) (cfg : Config) (env : AuthManager.Env).

Definition console_write_all (lines : list LogLine) : M C unit :=
  λ w, (Normal tt,
        {| cache := cache w; res := res w; console := console w ++ lines;
           publicFiles := publicFiles w; calls := calls w |}).

(** The manager with nothing on its console yet: what it holds after a
    call is what the call wrote. *)
Definition quiet (st : AuthManager.State) : AuthManager.State :=
  {| AuthManager.cachedToken := AuthManager.cachedToken st;
     AuthManager.tokenFile := AuthManager.tokenFile st;
     AuthManager.console := [] |}.

Definition handleReactRoute (rest : Request → M C unit) (st : AuthManager.State)
    (req : Request) : M C unit :=
  try_catch
    (auth <- on_res (authenticate D req) ;;
     match auth with
     | None => ret tt
     | Some u =>
         let req1 := with_user u req in
         r <- get_res ;;
         let o := AuthManager.authMiddleware env cfg (quiet st) req1 r in
         console_write_all (AuthManager.console (AuthManager.out_state o)) ;;;
         modify_res (λ _, AuthManager.out_res o) ;;;
         let accessToken := AuthManager.returned o in
         if negb (truthy accessToken) then ret tt
         else rest (AuthManager.out_req o)
     end)
    (λ error,
       console_write (logger_line "error" "Error handling React route:" [error]) ;;;
       modify_res (res_status 500) ;;;
       modify_res (res_end (SentJson (JObj [("error",
                                             JStr "Failed to load application")])))).

End ReactRoute.

(** * middleware/jwtAuth.js

    The later of the two versions among the sources: the token is looked for
    in the Authorization header, the accesstoken header and the cookies. *)
Module JwtAuth.

(** [s.split(sep)] for a separator of one character *)
Fixpoint split (sep : ascii) (s : string) : list string :=
  match s with
  | EmptyString => [EmptyString]
  | String c rest =>
      if Ascii.eqb c sep then EmptyString :: split sep rest
      else match split sep rest with
           | [] => [String c EmptyString]
           | seg :: segs => String c seg :: segs
           end
  end.

(** White space of [trim]. The value of a header is a string of
    characters below U+0100, one for each byte received; the white space
    among them is tab, line feed, vertical tab, form feed, carriage
    return, space and the no-break space U+00A0. *)
Definition isWhitespace (c : ascii) : bool :=
  let n := nat_of_ascii c in
  ((9 <=? n)%nat && (n <=? 13)%nat) || (n =? 32)%nat || (n =? 160)%nat.

Fixpoint trimStart (s : string) : string :=
  match s with
  | EmptyString => EmptyString
  | String c rest => if isWhitespace c then trimStart rest else s
  end.

Fixpoint trimEnd (s : string) : string :=
  match s with
  | EmptyString => EmptyString
  | String c rest =>
      match trimEnd rest with
      | EmptyString => if isWhitespace c then EmptyString else String c EmptyString
      | kept => String c kept
      end
  end.

Definition trim (s : string) : string := trimEnd (trimStart s).

(** [req.headers[name]] when it is there and not empty *)
Definition header (req : Request) (name : string) : option string :=
  match headers req !! name with
  | Some v => if String.eqb v EmptyString then None else Some v
  | None => None
  end.

(** Step 1: the second word of a Bearer header. *)
Definition bearerToken (req : Request) : option string :=
  match header req "authorization" with
  | Some authHeader =>
      if startsWith authHeader "Bearer " then split " " authHeader !! 1%nat
      else None
  | None => None
  end.

(** Step 3: the loop over the cookies; it stops at the first one named
    accessToken, with its value or with undefined. *)
Fixpoint cookieToken (cookies : list string) (token : option string)
    : option string :=
  match cookies with
  | [] => token
  | cookie :: rest =>
      match split "=" (trim cookie) with
      | name :: parts =>
          if String.eqb name "accessToken" then head parts
          else cookieToken rest token
      | [] => cookieToken rest token
      end
  end.

Definition extractToken (req : Request) : option string :=
  let token := bearerToken req in
  let token :=
    if falsy_string token then
      match header req "accesstoken" with
      | Some v => Some v
      | None => token
      end
    else token in
  if falsy_string token then
    match header req "cookie" with
    | Some cookie => cookieToken (split ";" cookie) token
    | None => token
    end
  else token.

Record Entry := { entry_user : JsValue; expiry : Z }.

(** [tokenCache]: a Map from tokens to entries. *)
Abbreviation TokenCache := (gmap string Entry).

Definition CACHE_TTL : Z := 60 * 1000.

(** What [axios.post] to the auth server comes back with: an error (with
    [error.code], [error.response?.status] and [error.message]) or a
    response with [data.valid], [data.error] and [data.user]. *)
Inductive Reply :=
  | Rejected (code : option string) (status : option Z) (message : JsValue)
  | Replied (valid error user : JsValue).

(** What one call finds around it: the clock at the look into the cache
    ([now]) and when the auth server has answered ([answered], read for
    the expiry of the new entry and again, with no wait between, for the
    sweep), the answers of the auth server, and what [jwt.verify] makes of
    a token with the configured secret and issuer. *)
Record Env := {
  now : Z;
  answered : Z;
  validate : string → Reply;
  validate_api_key : JsValue → Reply;
  verify : string → Completion JsValue;
  authServerUrl : string
}.

Record Outcome := {
  tokenCache : TokenCache;
  out_req : Request;
  out_res : Res;
  nextCalled : bool;
  logged : list LogLine
}.

Definition respond (cache : TokenCache) (req : Request) (r : Res) (code : Z)
    (payload : list (string * JsValue)) (lines : list LogLine) : Outcome :=
  {| tokenCache := cache; out_req := req;
     out_res := res_end (SentJson (JObj payload)) (res_status code r);
     nextCalled := false; logged := lines |}.

Definition pass (cache : TokenCache) (req : Request) (r : Res) (u : JsValue)
    (lines : list LogLine) : Outcome :=
  {| tokenCache := cache; out_req := with_user u req; out_res := r;
     nextCalled := true; logged := lines |}.

(** [a || b] *)
Definition js_or (a b : JsValue) : JsValue := if truthy a then a else b.

(** The sweep over the entries once there are more than 1000: those
    whose expiry is before the clock are deleted. *)
Definition prune (clock : Z) (cache : TokenCache) : TokenCache :=
  if (1000 <? size cache)%nat
  then filter (λ kv : string * Entry, clock ≤ expiry (snd kv)) cache
  else cache.

Definition is_access (decoded : JsValue) : bool :=
  match js_field "type" decoded with
  | JStr s => String.eqb s "access"
  | _ => false
  end.

Definition no_token : list (string * JsValue) :=
  [("error", JStr "Access token required"); ("code", JStr "NO_TOKEN");
   ("msg_code", JStr "NO_TOKEN")].

Definition auth_failed : list (string * JsValue) :=
  [("error", JStr "Authentication failed"); ("code", JStr "AUTH_FAILED")].

Definition rate_limited : list (string * JsValue) :=
  [("error", JStr "Request limit exceeded"); ("code", JStr "RATE_LIMIT_EXCEEDED")].

Definition is_429 (status : option Z) : bool :=
  match status with Some s => s =? 429 | None => false end.

Definition is_down (code : option string) : bool :=
  match code with
  | Some c => String.eqb c "ECONNREFUSED" || String.eqb c "ETIMEDOUT"
  | None => false
  end.

(** The [catch] of [validateJWT]. *)
Definition validateJWT_catch (env : Env) (cache : TokenCache) (req : Request)
    (r : Res) (token : string) (code : option string) (status : option Z)
    (message : JsValue) : Outcome :=
  let line := logger_line "error" "JWT validation error"
                [message; JStr (authServerUrl env)] in
  if is_down code then
    match verify env token with
    | Normal decoded =>
        if is_access decoded then
          pass cache req r
            (JObj [("id", js_field "id" decoded);
                   ("email", js_field "email" decoded);
                   ("username", js_field "username" decoded);
                   ("licenseType", js_field "licenseType" decoded)])
            [line;
             logger_line "warn"
               "Auth server unavailable, using fallback JWT validation"
               [js_field "id" decoded]]
        else respond cache req r 401 auth_failed [line]
    | Throw _ => respond cache req r 401 auth_failed [line]
    end
  else if is_429 status then respond cache req r 429 rate_limited [line]
  else respond cache req r 401 auth_failed [line].

(** [cached && cached.expiry > Date.now()] *)
Definition fresh_entry (env : Env) (cache : TokenCache) (token : string)
    : option Entry :=
  match cache !! token with
  | Some cached => if now env <? expiry cached then Some cached else None
  | None => None
  end.

Definition validateJWT (env : Env) (cache : TokenCache) (req : Request) (r : Res)
    : Outcome :=
  match extractToken req with
  | None => respond cache req r 400 no_token []
  | Some token =>
      if String.eqb token EmptyString then respond cache req r 400 no_token []
      else
        match fresh_entry env cache token with
        | Some cached => pass cache req r (entry_user cached) []
        | None =>
            match validate env token with
            | Replied valid error u =>
                if negb (truthy valid) then
                  respond cache req r 401
                    [("error", js_or error (JStr "Invalid token"));
                     ("code", JStr "INVALID_TOKEN")] []
                else
                  pass (prune (answered env)
                          (<[token := {| entry_user := u;
                                         expiry := answered env + CACHE_TTL |}]> cache))
                    req r u []
            | Rejected code status message =>
                validateJWT_catch env cache req r token code status message
            end
        end
  end.

(** [req.headers['x-api-key'] || req.query.apiKey]; the query of the
    request is given beside it. *)
Definition apiKey_of (req : Request) (query_apiKey : JsValue) : JsValue :=
  match header req "x-api-key" with
  | Some k => JStr k
  | None => query_apiKey
  end.

Definition validateAPIKey (env : Env) (cache : TokenCache) (req : Request)
    (query_apiKey : JsValue) (r : Res) : Outcome :=
  let apiKey := apiKey_of req query_apiKey in
  if negb (truthy apiKey) then
    respond cache req r 401
      [("error", JStr "API key required"); ("code", JStr "NO_API_KEY")] []
  else
    match validate_api_key env apiKey with
    | Replied valid error u =>
        if negb (truthy valid) then
          respond cache req r 401
            [("error", js_or error (JStr "Invalid API key"));
             ("code", JStr "INVALID_API_KEY")] []
        else pass cache req r u []
    | Rejected code status message =>
        let line := logger_line "error" "API key validation error" [message] in
        if is_429 status then respond cache req r 429 rate_limited [line]
        else respond cache req r 401 auth_failed [line]
    end.

Definition hasCookieToken (req : Request) : bool :=
  match header req "cookie" with
  | Some cookie => includes cookie "accessToken="
  | None => false
  end.

Definition authenticate (env : Env) (cache : TokenCache) (req : Request)
    (query_apiKey : JsValue) (r : Res) : Outcome :=
  if bool_decide (is_Some (header req "authorization"))
     || bool_decide (is_Some (header req "accesstoken"))
     || hasCookieToken req
  then validateJWT env cache req r
  else if truthy (apiKey_of req query_apiKey)
  then validateAPIKey env cache req query_apiKey r
  else
    respond cache req r 400
      [("error", JStr "Authentication required"); ("code", JStr "NO_AUTH");
       ("msg_code", JStr "NO_TOKEN")] [].

(** One request as [authenticate] sees it, and a sequence of them against
    the one token cache of the process. *)
Record Call := {
  call_env : Env;
  call_req : Request;
  call_query_apiKey : JsValue;
  call_res : Res
}.

Definition serve (cache : TokenCache) (c : Call) : TokenCache :=
  tokenCache (authenticate (call_env c) cache (call_req c) (call_query_apiKey c)
                (call_res c)).

Definition run (calls : list Call) (cache : TokenCache) : TokenCache :=
  foldl serve cache calls.

(** The entry was made from an answer of the auth server to one of the
    calls: the server declared the token valid, for this user, and the
    entry expires CACHE_TTL after that answer. *)
Definition vouched (calls : list Call) (token : string) (e : Entry) : Prop :=
  ∃ c valid error,
    c ∈ calls ∧
    validate (call_env c) token = Replied valid error (entry_user e) ∧
    truthy valid = true ∧
    expiry e = answered (call_env c) + CACHE_TTL.

End JwtAuth.

(** ** [app.use('/api/cache', authenticate, cacheRoutes)], POST /revalidate

    The value is the token cache of [authenticate] after the request. *)
Definition guarded_revalidate {C : Type} `{CacheManagerAPI C}
    (destructure_message : string) (env : JwtAuth.Env)
    (tokens : JwtAuth.TokenCache) (req : Request) (query_apiKey : JsValue)
    : M C JwtAuth.TokenCache :=
  r <- get_res ;;
  let o := JwtAuth.authenticate env tokens req query_apiKey r in
  modify_res (λ _, JwtAuth.out_res o) ;;;
  (if JwtAuth.nextCalled o
   then revalidate_route destructure_message (JwtAuth.out_req o)
   else ret tt) ;;;
  ret (JwtAuth.tokenCache o).

Module Sample3.

Definition payload : AuthManager.TokenData :=
  {| AuthManager.td_accessToken := "access-1";
     AuthManager.td_refreshToken := "refresh-1";
     AuthManager.td_expiresInAccessToken := 3600000;
     AuthManager.td_expiresInRefreshToken := 86400000;
     AuthManager.td_customer := JNull |}.

(** The upstream API answers every login with [payload]; the clock is at
    [clock]. *)
Definition upstream_up (clock : Z) : AuthManager.Env :=
  {| AuthManager.now := clock; AuthManager.replied := clock;
     AuthManager.post_login := λ _ _, AuthManager.Answer 201 payload;
     AuthManager.patch_refresh := λ _, AuthManager.NetworkError "ETIMEDOUT";
     AuthManager.writeFile_error := None; AuthManager.chmod_error := None |}.

Definition upstream_down (clock : Z) : AuthManager.Env :=
  {| AuthManager.now := clock; AuthManager.replied := clock;
     AuthManager.post_login := λ _ _, AuthManager.NetworkError "ECONNREFUSED";
     AuthManager.patch_refresh := λ _, AuthManager.NetworkError "ECONNREFUSED";
     AuthManager.writeFile_error := None; AuthManager.chmod_error := None |}.

Definition logged_in : AuthManager.State :=
  {| AuthManager.cachedToken := Some (AuthManager.token_of (upstream_up 1000) payload);
     AuthManager.tokenFile := Some (AuthManager.token_of (upstream_up 1000) payload);
     AuthManager.console := [] |}.

Definition login_request : Request :=
  {| method := "POST"; originalUrl := "/api/auth/login"; path := "/api/auth/login";
     headers := ∅;
     body := JObj [("email", JStr "user@example.com"); ("password", JStr "pw")];
     user := JUndefined; accessToken := None |}.

Definition alice : JsValue := JObj [("id", JNum 7); ("email", JStr "alice@example.com")].

(** The auth server accepts the token "good" and nothing else. *)
Definition auth_server (clock : Z) : JwtAuth.Env :=
  {| JwtAuth.now := clock; JwtAuth.answered := clock;
     JwtAuth.validate := λ t,
       if String.eqb t "good" then JwtAuth.Replied (JBool true) JUndefined alice
       else JwtAuth.Replied (JBool false) (JStr "Token revoked") JUndefined;
     JwtAuth.validate_api_key := λ _,
       JwtAuth.Replied (JBool false) JUndefined JUndefined;
     JwtAuth.verify := λ _, Throw (js_error "invalid signature");
     JwtAuth.authServerUrl := "http://localhost:3001" |}.

(** The auth server is unreachable; the token "good" verifies locally. *)
Definition auth_server_down (clock : Z) : JwtAuth.Env :=
  {| JwtAuth.now := clock; JwtAuth.answered := clock;
     JwtAuth.validate := λ _,
       JwtAuth.Rejected (Some "ECONNREFUSED") None (JStr "connect ECONNREFUSED");
     JwtAuth.validate_api_key := λ _,
       JwtAuth.Rejected (Some "ECONNREFUSED") None (JStr "connect ECONNREFUSED");
     JwtAuth.verify := λ t,
       if String.eqb t "good"
       then Normal (JObj [("id", JNum 7); ("type", JStr "access");
                          ("role", JStr "admin")])
       else Throw (js_error "invalid signature");
     JwtAuth.authServerUrl := "http://localhost:3001" |}.

Definition with_bearer (t : string) : Request :=
  {| method := "GET"; originalUrl := "/api/users?id=5"; path := "/api/users";
     headers := {[ "authorization" := "Bearer " +:+ t ]}; body := JUndefined;
     user := JUndefined; accessToken := None |}.

End Sample3.

(** [!config.auth.email]: the variable is not set, or set to the empty
    string. *)
Definition missing (v : option string) : Prop := v = None ∨ v = Some EmptyString.

(** ** routes/auth.js: POST /refresh

    The route is mounted with [app.use('/api/auth', authRoutes)], before
    and without [authenticate]; it reads nothing of the request and works
    on the manager of the service. *)
Definition refresh_route (env : AuthManager.Env) (st : AuthManager.State) (r : Res)
    : Res * AuthManager.State :=
  match AuthManager.refreshToken env st with
  | (Normal token, st') =>
      (res_end (SentJson (JObj [("success", JBool true);
                                ("accessToken", JStr token)])) r, st')
  | (Throw error, st') =>
      (res_end (SentJson (JObj [("success", JBool false);
                                ("error", js_field "message" error)]))
         (res_status 401 r), st')
  end.

(** * Facts *)

Lemma forwardHeaders_fields (hs : list (string * string)) (r : Res) :
  saveToCache (forwardHeaders hs r) = saveToCache r ∧
  sent (forwardHeaders hs r) = sent r ∧
  statusCode (forwardHeaders hs r) = statusCode r.
Proof.
  unfold forwardHeaders. revert r.
  induction hs as [|kv hs IH]; intros r; [by simpl|].
  change (foldl forwardHeader r (kv :: hs))
    with (foldl forwardHeader (forwardHeader r kv) hs).
  destruct (IH (forwardHeader r kv)) as (-> & -> & ->).
  unfold forwardHeader. by case_match.
Qed.

Lemma saveToCache_forwardHeaders (hs : list (string * string)) (r : Res) :
  saveToCache (forwardHeaders hs r) = saveToCache r.
Proof. apply forwardHeaders_fields. Qed.

(** Unfold the monad of handlers down to functions on worlds. *)
Ltac unfold_monad :=
  unfold proxy_error, on_res, cacheManager_load, cacheManager_save, call_manager,
    try_catch, bind, ret, lift, get_res, modify_res, console_write,
    write_public, freshWorld in *.

(** Go through the branches of an unfolded handler. *)
Ltac split_cases :=
  repeat (first [ rewrite saveToCache_forwardHeaders in *
                | case_match ];
          simpl in *; simplify_eq; simpl in * ).

Section HandlerFacts.
Context {C : Type} `{CacheManagerAPI C}.

Lemma arrayIncludes_GET_POST (m : string) :
  arrayIncludes ["GET"; "POST"] m = false ↔ m ≠ "GET" ∧ m ≠ "POST".
Proof.
  unfold arrayIncludes. simpl. rewrite !orb_false_r, orb_false_iff.
  rewrite !String.eqb_neq. tauto.
Qed.

Lemma isApiRequest_false (req : Request) :
  isApiRequest req = false ↔
  headerIncludes req "content-type" "application/json" = false ∧
  headerIncludes req "accept" "application/json" = false ∧
  includes (originalUrl req) "/api/" = false ∧
  includes (originalUrl req) "/alldata/" = false.
Proof. unfold isApiRequest. rewrite !orb_false_iff. tauto. Qed.

Lemma proxyService_isApiRequest_eq (req : Request) :
  proxyService_isApiRequest req = isApiRequest req.
Proof. reflexivity. Qed.

Lemma cacheMiddleware_skip (req : Request) (w : World C) :
  arrayIncludes ["GET"; "POST"] (method req) = false ∨ isApiRequest req = false →
  cacheMiddleware req w = (Normal CalledNext, w).
Proof.
  intros Hgate. unfold cacheMiddleware.
  destruct Hgate as [-> | ->]; simpl; [reflexivity|].
  rewrite orb_true_r. reflexivity.
Qed.

Lemma proxyRequest_skip D cfg (req : Request) (c : C) :
  arrayIncludes ["GET"; "POST"] (method req) = false ∨ isApiRequest req = false →
  cache (snd (proxyRequest D cfg req (freshWorld c))) = c ∧
  calls (snd (proxyRequest D cfg req (freshWorld c))) = [].
Proof.
  intros Hgate. unfold proxyRequest. unfold_monad. simpl.
  destruct (authenticate D req freshRes) as [[u|] r1]; simpl; [|auto].
  destruct (authMiddleware D (with_user u req) _) as [[token|] r2]; simpl; [|auto].
  destruct (String.eqb token EmptyString); simpl; [auto|].
  rewrite cacheMiddleware_skip by exact Hgate. simpl.
  unfold proxy_forward, run_saveToCache. unfold_monad. simpl.
  split_cases; auto.
Qed.

Lemma proxy_forward_without_hook D (req : Request) (token : string) (w : World C) :
  saveToCache (res w) = None →
  cache (snd (proxy_forward D req token w)) = cache w ∧
  calls (snd (proxy_forward D req token w)) = calls w.
Proof.
  intros Hhook. unfold proxy_forward, run_saveToCache. unfold_monad. simpl.
  split_cases; auto; congruence.
Qed.

Lemma proxyRequest_standalone_without_hook D cfg (req : Request) (w : World C) :
  saveToCache (res w) = None →
  cache (snd (proxyRequest_standalone D cfg req w)) = cache w ∧
  calls (snd (proxyRequest_standalone D cfg req w)) = calls w.
Proof.
  intros Hhook. unfold proxyRequest_standalone. unfold_monad. simpl.
  destruct (authenticate D req (res w)) as [[u|] r1]; simpl; [|auto].
  destruct (authMiddleware D (with_user u req) _) as [[token|] r2]; simpl; [|auto].
  destruct (String.eqb token EmptyString); simpl; [auto|].
  match goal with
  | |- context [proxy_forward D ?r ?t ?w0] =>
      destruct (proxy_forward_without_hook D r t w0) as [Hc Hl];
      [exact Hhook|]; simpl in Hc, Hl;
      destruct (proxy_forward D r t w0) as [[?|?] w1]; simpl in *; auto
  end.
Qed.

(** C9: a request whose method is neither GET nor POST, or which is not
    classified as an API request (no application/json content-type or
    accept header, and neither "/api/" nor "/alldata/" in the URL), passes
    [cacheMiddleware] with nothing done: no lookup, no save hook, the
    response untouched (the world is the one it was given, and [next] is
    called). Handled by [proxyRequest], or by the other version's chain of
    [cacheMiddleware] and [proxyRequest], it leaves the cache as it was and
    makes no call to the cache manager. *)
Theorem uncacheable_request_bypasses_cache D cfg (req : Request) (w : World C) (c : C) :
  (method req ≠ "GET" ∧ method req ≠ "POST") ∨
  (headerIncludes req "content-type" "application/json" = false ∧
   headerIncludes req "accept" "application/json" = false ∧
   includes (originalUrl req) "/api/" = false ∧
   includes (originalUrl req) "/alldata/" = false) →
  cacheMiddleware req w = (Normal CalledNext, w) ∧
  (cache (snd (proxyRequest D cfg req (freshWorld c))) = c ∧
   calls (snd (proxyRequest D cfg req (freshWorld c))) = []) ∧
  (cache (snd (cacheMiddleware_then_proxyRequest D cfg req (freshWorld c))) = c ∧
   calls (snd (cacheMiddleware_then_proxyRequest D cfg req (freshWorld c))) = []).
Proof.
  intros Hreq.
  assert (Hgate : arrayIncludes ["GET"; "POST"] (method req) = false
                  ∨ isApiRequest req = false).
  { destruct Hreq as [Hm | Ha].
    - left. by apply arrayIncludes_GET_POST.
    - right. by apply isApiRequest_false. }
  split; [by apply cacheMiddleware_skip|].
  split; [by apply proxyRequest_skip|].
  unfold cacheMiddleware_then_proxyRequest, bind.
  rewrite cacheMiddleware_skip by exact Hgate.
  by apply (proxyRequest_standalone_without_hook D cfg req (freshWorld c)).
Qed.

(** What [cacheMiddleware] does to the world: at most one call, a load for
    (originalUrl, method, body) of the request; the cache is changed by
    that load alone; the hook is left as it was or closed over the
    request. *)
Lemma cacheMiddleware_effect (req : Request) (w : World C) :
  let w' := snd (cacheMiddleware req w) in
  (calls w' = calls w ∧ cache w' = cache w ∨
   calls w' = calls w ++ [CallLoad (originalUrl req) (method req) (body req)] ∧
   cache w' = snd (cm_load (originalUrl req) (method req) (body req) (cache w))) ∧
  (saveToCache (res w') = saveToCache (res w) ∨ saveToCache (res w') = Some req) ∧
  ∃ s, fst (cacheMiddleware req w) = Normal s.
Proof.
  unfold cacheMiddleware. unfold_monad. simpl.
  split_cases; eauto 8.
Qed.

(** What the tail of [proxyRequest] does to the cache: nothing, or one save
    through the hook, of the data of an upstream response whose status
    is 200. *)
Lemma proxy_forward_effect D (req : Request) (token : string) (w : World C) :
  let w' := snd (proxy_forward D req token w) in
  (calls w' = calls w ∧ cache w' = cache w) ∨
  ∃ opts response closure,
    makeRequest D opts = Normal response ∧ status response = 200 ∧
    saveToCache (res w) = Some closure ∧
    calls w' = calls w ++ [CallSave (originalUrl closure) (data response)
                                    (method closure) (body closure)].
Proof.
  unfold proxy_forward, run_saveToCache. unfold_monad. simpl.
  split_cases; auto;
    right; eexists _, _, _; (split; [eassumption|]);
    (split; [by apply Z.eqb_eq|]); (split; [eassumption|reflexivity]).
Qed.

Lemma proxyRequest_calls D cfg (req : Request) (c : C) :
  request_calls D req c
    (calls (snd (proxyRequest D cfg req (freshWorld c))))
    (cache (snd (proxyRequest D cfg req (freshWorld c)))).
Proof.
  unfold request_calls, proxyRequest, cacheMiddleware, proxy_forward,
    run_saveToCache. unfold_monad. simpl.
  split_cases; auto;
    try (right; left; split; [reflexivity|];
         match goal with Hl : cm_load _ _ _ _ = _ |- _ => by rewrite Hl end);
    right; right; eexists _, _; (split; [eassumption|]);
    (split; [by apply Z.eqb_eq|]); (split; [reflexivity|]);
    repeat match goal with Hl : cm_load _ _ _ _ = _ |- _ => rewrite Hl; clear Hl
                         | Hs : cm_save _ _ _ _ _ = _ |- _ => rewrite Hs; clear Hs
           end; reflexivity.
Qed.

Lemma cacheMiddleware_then_proxyRequest_calls D cfg (req : Request) (c : C) :
  request_calls D req c
    (calls (snd (cacheMiddleware_then_proxyRequest D cfg req (freshWorld c))))
    (cache (snd (cacheMiddleware_then_proxyRequest D cfg req (freshWorld c)))).
Proof.
  unfold request_calls, cacheMiddleware_then_proxyRequest, proxyRequest_standalone,
    cacheMiddleware, proxy_forward, run_saveToCache. unfold_monad. simpl.
  split_cases; auto; simplify_eq;
    try (right; left; split; [reflexivity|];
         match goal with Hl : cm_load _ _ _ _ = _ |- _ => by rewrite Hl end);
    right; right; eexists _, _; (split; [eassumption|]);
    (split; [by apply Z.eqb_eq|]); (split; [reflexivity|]);
    repeat match goal with Hl : cm_load _ _ _ _ = _ |- _ => rewrite Hl; clear Hl
                         | Hs : cm_save _ _ _ _ _ = _ |- _ => rewrite Hs; clear Hs
           end; reflexivity.
Qed.

Lemma proxied_calls D cfg (req : Request) (c : C) out :
  out ∈ proxied D cfg req c →
  request_calls D req c (calls (snd out)) (cache (snd out)).
Proof.
  unfold proxied. rewrite !elem_of_cons, elem_of_nil.
  intros [-> | [-> | []]].
  - apply proxyRequest_calls.
  - apply cacheMiddleware_then_proxyRequest_calls.
Qed.

(** C10: handling a proxied request saves to the cache only the data of an
    upstream response whose status is exactly 200: every save call made
    is for such a response, and when the upstream answers with any other
    status the cache is left as it was, or as the lookup left it. *)
Theorem only_status_200_is_saved D cfg (req : Request) (c : C) out :
  out ∈ proxied D cfg req c →
  (∀ call, call ∈ calls (snd out) → is_save call = true →
     ∃ opts response,
       makeRequest D opts = Normal response ∧ status response = 200 ∧
       call = CallSave (originalUrl req) (data response) (method req) (body req)) ∧
  ((∀ opts response, makeRequest D opts = Normal response → status response ≠ 200) →
     cache (snd out) = c ∨
     cache (snd out) = snd (cm_load (originalUrl req) (method req) (body req) c)).
Proof.
  intros Hout. pose proof (proxied_calls D cfg req c out Hout) as Hcalls.
  destruct Hcalls as [[-> ->] | [[-> ->] | (opts & response & Hup & H200 & -> & ->)]].
  - split; [|auto]. intros call Hin. by apply elem_of_nil in Hin.
  - split; [|auto]. intros call Hin Hsave.
    apply list_elem_of_singleton in Hin. by subst call.
  - split.
    + intros call Hin Hsave.
      rewrite elem_of_cons, list_elem_of_singleton in Hin.
      destruct Hin as [-> | ->]; [done|]. eauto.
    + intros Hnot. by destruct (Hnot opts response Hup).
Qed.

End HandlerFacts.

(** ** A failing lookup against a lookup that finds nothing *)

Lemma proxy_error_catches {C} (cfg : Config) (req : Request) (m : M C unit)
    (w : World C) :
  fst (try_catch m (proxy_error cfg req) w) = Normal tt.
Proof.
  unfold try_catch. destruct (m w) as [[[]|e] w']; [reflexivity|].
  unfold proxy_error. unfold_monad. reflexivity.
Qed.

(** No error of a proxied request escapes its handler. *)
Lemma proxied_ends_normally {C} (A : CacheManagerAPI C) D cfg (req : Request)
    (c : C) out :
  out ∈ @proxied C A D cfg req c → fst out = Normal tt.
Proof.
  unfold proxied. rewrite !elem_of_cons, elem_of_nil.
  intros [-> | [-> | []]].
  - apply proxy_error_catches.
  - unfold cacheMiddleware_then_proxyRequest, bind.
    destruct (@cacheMiddleware_effect C A req (freshWorld c)) as (_ & _ & s & Hs).
    destruct (cacheMiddleware req (freshWorld c)) as [r w']. simpl in Hs.
    subst r. destruct s; [|reflexivity]. apply proxy_error_catches.
Qed.

Section FailingLookup.
Context {C : Type} (failing missing : CacheManagerAPI C).

(** C5: a lookup that throws is a miss. Take two cache managers that save
    alike; for the request at hand the first one's [load] throws and the
    second one's returns a value that is not truthy (nothing cached),
    leaving the same cache behind. Then [cacheMiddleware] ends normally
    and calls [next] under both, having sent nothing and hung the save
    hook on the response; and the request as a whole, handled by
    [proxyRequest] or by the other version's chain, ends normally under
    both with the same response, the same cache, the same calls to the
    manager and the same files: of the thrown error only the console line
    is left. *)
Theorem load_failure_is_a_miss D cfg (req : Request) (c c' : C) (e v : JsValue) :
  (∀ u d m b st, @cm_save C failing u d m b st = @cm_save C missing u d m b st) →
  @cm_load C failing (originalUrl req) (method req) (body req) c = (Throw e, c') →
  @cm_load C missing (originalUrl req) (method req) (body req) c = (Normal v, c') →
  truthy v = false →
  (∀ w, cache w = c →
     arrayIncludes ["GET"; "POST"] (method req) = true →
     isApiRequest req = true →
     let r1 := @cacheMiddleware C failing req w in
     let r2 := @cacheMiddleware C missing req w in
     fst r1 = Normal CalledNext ∧ fst r2 = Normal CalledNext ∧
     res (snd r1) = res_attach req (res w) ∧
     res (snd r2) = res_attach req (res w) ∧
     cache (snd r1) = cache (snd r2) ∧
     calls (snd r1) = calls (snd r2) ∧
     console (snd r1) =
       console (snd r2) ++ [console_error "Cache middleware error:" [e]]) ∧
  outcome <$> @proxied C failing D cfg req c =
  outcome <$> @proxied C missing D cfg req c ∧
  (∀ out, out ∈ @proxied C failing D cfg req c → fst out = Normal tt).
Proof.
  intros Hsave Hthrow Hmiss Hv. split; [|split].
  - intros w Hc Hmeth Hapi. subst c.
    unfold cacheMiddleware. rewrite Hmeth, Hapi. unfold_monad. simpl.
    rewrite Hthrow, Hmiss. simpl. rewrite Hv. simpl. auto 10.
  - unfold proxied, outcome, proxyRequest, cacheMiddleware_then_proxyRequest,
      proxyRequest_standalone, cacheMiddleware, proxy_forward, run_saveToCache.
    unfold_monad. simpl. f_equal; [|f_equal].
    + destruct (authenticate D req freshRes) as [[u|] r1]; simpl; [|done].
      destruct (authMiddleware D (with_user u req) _) as [[token|] r2]; simpl;
        [|done].
      destruct (String.eqb token EmptyString); simpl; [done|].
      destruct (negb _ || negb _) eqn:Hgate; simpl.
      * split_cases; congruence.
      * rewrite Hthrow, Hmiss. simpl. rewrite Hv. simpl.
        destruct (headersSent _); simpl; [done|].
        destruct (nullish u); simpl; [done|].
        destruct (makeRequest D _) as [response|err]; simpl; [|done].
        rewrite !saveToCache_forwardHeaders. simpl.
        destruct (isFontFile D (path req) && _); simpl.
        { destruct (nullish (data response)); simpl; [done|].
          by destruct (data_is_stream response). }
        destruct (proxyService_isApiRequest _ && _); simpl.
        -- rewrite Hsave.
           by destruct (cm_save _ _ _ _ _) as [[?|?] ?].
        -- by destruct (truthy (data response) && _).
    + destruct (negb _ || negb _) eqn:Hgate; simpl.
      * destruct (authenticate D req freshRes) as [[u|] r1]; simpl; [|done].
        destruct (authMiddleware D (with_user u req) _) as [[token|] r2]; simpl;
          [|done].
        destruct (String.eqb token EmptyString); simpl; [done|].
        split_cases; congruence.
      * rewrite Hthrow, Hmiss. simpl. rewrite Hv. simpl.
        destruct (authenticate D req _) as [[u|] r1]; simpl; [|done].
        destruct (authMiddleware D (with_user u req) _) as [[token|] r2]; simpl;
          [|done].
        destruct (String.eqb token EmptyString); simpl; [done|].
        destruct (nullish u); simpl; [done|].
        destruct (makeRequest D _) as [response|err]; simpl; [|done].
        rewrite !saveToCache_forwardHeaders. simpl.
        destruct (isFontFile D (path req) && _); simpl.
        { destruct (nullish (data response)); simpl; [done|].
          by destruct (data_is_stream response). }
        destruct (proxyService_isApiRequest _ && _); simpl.
        -- rewrite Hsave.
           by destruct (cm_save _ _ _ _ _) as [[?|?] ?].
        -- by destruct (truthy (data response) && _).
  - apply proxied_ends_normally.
Qed.

End FailingLookup.

(** ** More of what the handlers do *)

Section MoreHandlerFacts.
Context {C : Type} `{CacheManagerAPI C}.

(** X1: a cached payload that JavaScript treats as false ([false], [0],
    the empty string, [null]) is never served: [cacheMiddleware] takes the hit
    for a miss, hangs the save hook and calls [next]. *)
Theorem falsy_payload_is_not_served (req : Request) (w : World C) (v : JsValue)
    (c' : C) :
  arrayIncludes ["GET"; "POST"] (method req) = true →
  isApiRequest req = true →
  cm_load (originalUrl req) (method req) (body req) (cache w) = (Normal v, c') →
  truthy v = false →
  fst (cacheMiddleware req w) = Normal CalledNext ∧
  res (snd (cacheMiddleware req w)) = res_attach req (res w) ∧
  cache (snd (cacheMiddleware req w)) = c'.
Proof.
  intros Hm Hapi Hload Hv. unfold cacheMiddleware. rewrite Hm, Hapi.
  unfold_monad. simpl. rewrite Hload. simpl. rewrite Hv. simpl. auto.
Qed.

(** X2: POST /revalidate answers 500 with the message of the TypeError
    when the request has no body (undefined or null: the destructuring
    throws), and 400 'Path is required' when the body has no [path] or
    one that JavaScript treats as false (the empty string among them); in
    both cases the cache is left alone. Any other [path] is handed to
    [revalidatePath] as it is. *)
Theorem revalidate_route_requires_path (destructure_message : string)
    (req : Request) (w : World C) :
  let out := revalidate_route destructure_message req w in
  let p := js_field "path" (body req) in
  (nullish (body req) = true →
   statusCode (res (snd out)) = 500 ∧
   sent (res (snd out)) =
     Some (SentJson (JObj [("error", JStr destructure_message)])) ∧
   cache (snd out) = cache w) ∧
  (nullish (body req) = false → truthy p = false →
   statusCode (res (snd out)) = 400 ∧
   sent (res (snd out)) =
     Some (SentJson (JObj [("error", JStr "Path is required")])) ∧
   cache (snd out) = cache w) ∧
  (nullish (body req) = false → truthy p = true →
   cache (snd out) = snd (cm_revalidatePath p (cache w))).
Proof.
  intros out p. subst out p. unfold revalidate_route. unfold_monad.
  destruct (body req) as [| |b|n|str|items|fields] eqn:Hbody; simpl;
    (split; [intros; try done|split; intros ? Hp; try done]);
    try (rewrite Hp; simpl; auto; fail);
    rewrite Hp; simpl;
    by destruct (cm_revalidatePath _ _) as [[result|error] c'].
Qed.

(** X3: in the other [server.js], where [cacheMiddleware] stands before
    the main handler, a cache hit is answered before [authenticate] is asked:
    whatever the authentication would have said, the cached payload is
    sent. *)
Theorem chained_middleware_serves_hits_unauthenticated D cfg (req : Request) (c c' : C)
    (v : JsValue) :
  arrayIncludes ["GET"; "POST"] (method req) = true →
  isApiRequest req = true →
  cm_load (originalUrl req) (method req) (body req) c = (Normal v, c') →
  truthy v = true →
  sent (res (snd (cacheMiddleware_then_proxyRequest D cfg req (freshWorld c))))
    = Some (SentJson v).
Proof.
  intros Hm Hapi Hload Hv.
  unfold cacheMiddleware_then_proxyRequest, cacheMiddleware. rewrite Hm, Hapi.
  unfold_monad. simpl. rewrite Hload. simpl. rewrite Hv. reflexivity.
Qed.

End MoreHandlerFacts.

(** ** The cache manager: facts *)

Module CacheManagerFacts.
Import CacheManager.

Lemma identity_with_accessCount (n : N) (e : CacheEntry) :
  identity (with_accessCount n e) = identity e.
Proof. reflexivity. Qed.

Lemma identity_bump (now : Z) (e : CacheEntry) : identity (bump now e) = identity e.
Proof. reflexivity. Qed.

Lemma has_identity_true (i : Identity) (e : CacheEntry) :
  has_identity i e = true ↔ identity e = i.
Proof. unfold has_identity. apply bool_decide_eq_true. Qed.

Lemma has_identity_false (i : Identity) (e : CacheEntry) :
  has_identity i e = false ↔ identity e ≠ i.
Proof. unfold has_identity. apply bool_decide_eq_false. Qed.

Lemma lookup_entry_Some (i : Identity) (rows : list CacheEntry) (e : CacheEntry) :
  lookup_entry i rows = Some e → e ∈ rows ∧ identity e = i.
Proof.
  unfold lookup_entry. intros Hfind. apply List.find_some in Hfind as [Hin Hid].
  split; [by apply list_elem_of_In | by apply has_identity_true].
Qed.

Lemma lookup_entry_None (i : Identity) (rows : list CacheEntry) :
  lookup_entry i rows = None ↔ i ∉ identity <$> rows.
Proof.
  unfold lookup_entry. induction rows as [|e rows IH]; simpl.
  - split; [intros _; apply not_elem_of_nil | done].
  - rewrite not_elem_of_cons. destruct (has_identity i e) eqn:Hid.
    + apply has_identity_true in Hid. split; [done|]. intros [Hne _]. by destruct Hne.
    + apply has_identity_false in Hid. rewrite IH. split; [|tauto].
      intros Hnin. split; [congruence | done].
Qed.

Lemma lookup_upsert (new : CacheEntry) (rows : list CacheEntry) :
  lookup_entry (identity new) (upsert new rows) = Some (upserted new rows).
Proof.
  unfold upserted, lookup_entry. induction rows as [|e rows IH]; simpl.
  - rewrite (proj2 (has_identity_true _ _)); done.
  - destruct (has_identity (identity new) e) eqn:Hid; simpl.
    + rewrite (proj2 (has_identity_true _ _)); done.
    + by rewrite Hid.
Qed.

Lemma identities_upsert (new : CacheEntry) (rows : list CacheEntry) :
  identity <$> upsert new rows =
  if decide (identity new ∈ identity <$> rows)
  then identity <$> rows
  else (identity <$> rows) ++ [identity new].
Proof.
  induction rows as [|e rows IH].
  - case_decide as Hin; [by apply elem_of_nil in Hin | done].
  - cbn [upsert]. destruct (has_identity (identity new) e) eqn:Hid.
    + clear IH. apply has_identity_true in Hid.
      rewrite decide_True by (rewrite fmap_cons, Hid; left).
      by rewrite !fmap_cons, Hid.
    + apply has_identity_false in Hid. rewrite !fmap_cons, IH.
      destruct (decide (identity new ∈ identity <$> rows)) as [Hin | Hnin].
      * rewrite decide_True; [done | by right].
      * rewrite decide_False; [done|].
        rewrite not_elem_of_cons. split; [congruence | done].
Qed.

Lemma unique_upsert (new : CacheEntry) (rows : list CacheEntry) :
  unique_identities rows → unique_identities (upsert new rows).
Proof.
  unfold unique_identities. intros Huniq. rewrite identities_upsert.
  case_decide as Hin; [done|].
  apply NoDup_app. split; [done|]. split.
  - intros i Hi Hnew. apply list_elem_of_singleton in Hnew. by subst.
  - apply NoDup_singleton.
Qed.

Lemma identities_touch (now : Z) (i : Identity) (rows : list CacheEntry) :
  identity <$> touch now i rows = identity <$> rows.
Proof.
  induction rows as [|e rows IH]; [done|]. cbn [touch].
  destruct (has_identity i e); [done|]. by rewrite !fmap_cons, IH.
Qed.

Lemma elem_of_filter_bool (p : CacheEntry → bool) (rows : list CacheEntry)
    (e : CacheEntry) :
  e ∈ List.filter p rows ↔ e ∈ rows ∧ p e = true.
Proof. rewrite !list_elem_of_In. apply List.filter_In. Qed.

Lemma unique_filter (p : CacheEntry → bool) (rows : list CacheEntry) :
  unique_identities rows → unique_identities (List.filter p rows).
Proof.
  unfold unique_identities. induction rows as [|e rows IH]; [done|].
  rewrite fmap_cons, NoDup_cons. intros [Hnin Huniq]. cbn [List.filter].
  destruct (p e); [|by apply IH].
  rewrite fmap_cons. apply NoDup_cons. split; [|by apply IH].
  intros Hin. apply Hnin.
  apply list_elem_of_fmap in Hin as (e' & -> & Hin).
  apply list_elem_of_fmap. exists e'. split; [done|].
  by apply elem_of_filter_bool in Hin as [? _].
Qed.

Lemma unique_Permutation (rows rows' : list CacheEntry) :
  rows ≡ₚ rows' → unique_identities rows → unique_identities rows'.
Proof. unfold unique_identities. by intros ->. Qed.

Lemma unique_suffix (gone kept : list CacheEntry) :
  unique_identities (gone ++ kept) → unique_identities kept.
Proof.
  unfold unique_identities. rewrite fmap_app. intros Huniq.
  by apply NoDup_app in Huniq as (_ & _ & ?).
Qed.

Lemma filter_has_identity_nil (i : Identity) (rows : list CacheEntry) :
  i ∉ identity <$> rows → List.filter (has_identity i) rows = [].
Proof.
  induction rows as [|e rows IH]; [done|].
  rewrite fmap_cons, not_elem_of_cons. intros [Hne Hnin]. cbn [List.filter].
  rewrite (proj2 (has_identity_false i e)) by congruence. by apply IH.
Qed.

Lemma filter_has_identity_unique (i : Identity) (rows : list CacheEntry)
    (e : CacheEntry) :
  unique_identities rows → lookup_entry i rows = Some e →
  List.filter (has_identity i) rows = [e].
Proof.
  unfold unique_identities, lookup_entry.
  induction rows as [|e0 rows IH]; [done|].
  rewrite fmap_cons, NoDup_cons. intros [Hnin Huniq]. cbn [List.find List.filter].
  destruct (has_identity i e0) eqn:Hid.
  - intros [= ->]. apply has_identity_true in Hid. subst i.
    by rewrite filter_has_identity_nil.
  - by apply IH.
Qed.

(** *** The eviction order and the size pass *)

Lemma lru_le_total : Total lru_le.
Proof.
  intros x y. unfold lru_le.
  destruct (Z.lt_total (accessedAt x) (accessedAt y)) as [Hlt | [Heq | Hgt]];
    [left; by left | | right; by left].
  destruct (N.le_ge_cases (accessCount x) (accessCount y)); [left | right];
    right; split; auto.
Qed.

Lemma lru_le_trans : Transitive lru_le.
Proof. intros x y z. unfold lru_le. intros [?|[? ?]] [?|[? ?]]; lia. Qed.

#[local] Existing Instance lru_le_total.
#[local] Existing Instance lru_le_trans.

Lemma eviction_order_Sorted (rows : list CacheEntry) :
  Sorted lru_le (eviction_order rows).
Proof. apply Sorted_merge_sort, _. Qed.

Lemma eviction_order_Permutation (rows : list CacheEntry) :
  eviction_order rows ≡ₚ rows.
Proof. apply merge_sort_Permutation. Qed.

Lemma total_size_app (l1 l2 : list CacheEntry) :
  total_size (l1 ++ l2) = (total_size l1 + total_size l2)%N.
Proof. induction l1 as [|e l1 IH]; simpl; [done | rewrite IH; lia]. Qed.

Lemma total_size_Permutation (l1 l2 : list CacheEntry) :
  l1 ≡ₚ l2 → total_size l1 = total_size l2.
Proof. induction 1; simpl; lia. Qed.

Lemma evict_spec (budget : N) (ordered : list CacheEntry) :
  let gone := fst (evict budget (total_size ordered) ordered) in
  let kept := snd (evict budget (total_size ordered) ordered) in
  ordered = gone ++ kept ∧
  (total_size kept ≤ budget)%N ∧
  ∀ j, (j < length gone)%nat → (budget < total_size (drop j ordered))%N.
Proof.
  induction ordered as [|e rest IH]; simpl.
  - split; [done|]. split; [lia|]. intros j Hj. simpl in Hj. lia.
  - destruct (N.leb_spec (sizeBytes e + total_size rest) budget) as [Hle | Hgt]; simpl.
    + split; [done|]. split; [lia|]. intros j Hj. lia.
    + replace (sizeBytes e + total_size rest - sizeBytes e)%N
        with (total_size rest) by lia.
      destruct (evict budget (total_size rest) rest) as [gone kept]; simpl in *.
      destruct IH as (Heq & Hle & Hmin). split; [by rewrite <- Heq|].
      split; [done|]. intros [|j] Hj; simpl; [lia|]. apply Hmin. lia.
Qed.

(** The size pass deletes an initial segment of the eviction order, the
    shortest one that brings the total to the budget or below. *)
Lemma size_pass_spec (budget : N) (rows : list CacheEntry) :
  let gone := fst (size_pass budget rows) in
  let kept := snd (size_pass budget rows) in
  let ordered := eviction_order rows in
  (total_size kept ≤ budget)%N ∧
  gone = take (length gone) ordered ∧
  kept ≡ₚ drop (length gone) ordered ∧
  ∀ j, (j < length gone)%nat → (budget < total_size (drop j ordered))%N.
Proof.
  unfold size_pass.
  destruct (N.leb_spec (total_size rows) budget) as [Hle | Hgt]; simpl.
  - split; [done|]. split; [done|].
    split; [by rewrite eviction_order_Permutation | intros j Hj; lia].
  - rewrite <- (total_size_Permutation _ _ (eviction_order_Permutation rows)).
    destruct (evict_spec budget (eviction_order rows)) as (Heq & Hle & Hmin).
    destruct (evict budget _ (eviction_order rows)) as [gone kept]; simpl in *.
    split; [done|].
    assert (Htake : take (length gone) (eviction_order rows) = gone)
      by (rewrite Heq; apply take_app_length).
    assert (Hdrop : drop (length gone) (eviction_order rows) = kept)
      by (rewrite Heq; apply drop_app_length).
    by rewrite Htake, Hdrop.
Qed.

Lemma size_pass_split (budget : N) (rows : list CacheEntry) :
  fst (size_pass budget rows) ++ snd (size_pass budget rows) ≡ₚ rows.
Proof.
  destruct (size_pass_spec budget rows) as (_ & Hgone & Hkept & _).
  rewrite Hgone at 1. rewrite Hkept, take_drop.
  apply eviction_order_Permutation.
Qed.

Lemma unique_size_pass (budget : N) (rows : list CacheEntry) :
  unique_identities rows → unique_identities (snd (size_pass budget rows)).
Proof.
  intros Huniq. apply (unique_suffix (fst (size_pass budget rows))).
  eapply unique_Permutation; [|exact Huniq].
  symmetry. apply size_pass_split.
Qed.

(** *** Deleting the files of removed rows *)

Lemma unlink_all_None (io : Faults) (victims : list CacheEntry)
    (files : gmap string File) (l : string) :
  files !! l = None → unlink_all io victims files !! l = None.
Proof.
  unfold unlink_all. revert files.
  induction victims as [|v victims IH]; intros files Hnone; simpl; [done|].
  apply IH. destruct (unlink_fails io (location v)); [done|].
  rewrite lookup_delete. by case_decide.
Qed.

Lemma unlink_all_deleted (io : Faults) (victims : list CacheEntry)
    (files : gmap string File) (e : CacheEntry) :
  e ∈ victims → unlink_fails io (location e) = false →
  unlink_all io victims files !! location e = None.
Proof.
  revert files. induction victims as [|v victims IH]; intros files Hin Hok.
  - by apply elem_of_nil in Hin.
  - apply elem_of_cons in Hin as [<- | Hin].
    + unfold unlink_all. simpl. rewrite Hok.
      apply (unlink_all_None io victims). apply lookup_delete_eq.
    + unfold unlink_all. simpl. by apply IH.
Qed.

Lemma unlink_all_frame (io : Faults) (victims : list CacheEntry)
    (files : gmap string File) (l : string) :
  (∀ v, v ∈ victims → location v ≠ l) →
  unlink_all io victims files !! l = files !! l.
Proof.
  unfold unlink_all. revert files.
  induction victims as [|v victims IH]; intros files Hne; simpl; [done|].
  rewrite IH by (intros v' Hv'; apply Hne; by right).
  destruct (unlink_fails io (location v)); [done|].
  apply lookup_delete_ne, Hne. left.
Qed.

Section GatewayFacts.
Context (K : KeyDeriver).

Lemma save_ok (io : Faults) (now : Z) (url : string) (data : JsValue)
    (m : string) (b : JsValue) (st : Store) :
  fst (save K io now url data m b st) = true →
  let i := request_identity K url m b in
  let loc := deriveLocation K (normalizeUrl K url) (deriveKey K i) in
  write_fails io loc = false ∧
  ∃ entry,
    identity entry = i ∧ location entry = loc ∧
    index (snd (save K io now url data m b st)) = upsert entry (index st) ∧
    blobs (snd (save K io now url data m b st)) !! loc =
      Some (Stored {| blob_url := url; blob_normalizedUrl := normalizeUrl K url;
                      blob_method := m; blob_body := b; blob_timestamp := now;
                      payload := data |}).
Proof.
  unfold save. simpl. destruct (write_fails io _) eqn:Hw; simpl; [done|].
  intros _. split; [done|]. eexists. split; [|split; [|split; [reflexivity|]]].
  - reflexivity.
  - reflexivity.
  - apply lookup_insert_eq.
Qed.

(** C1: Save followed by Load gives the payload back. When
    [save url data m b] reports success, [load url m b] on the store it
    leaves returns [data], whatever the URL, method, body and payload,
    whatever the store held before and whenever the two calls are made. *)
Theorem save_then_load_round_trip (io : Faults) (now now' : Z) (url : string)
    (data : JsValue) (m : string) (b : JsValue) (st : Store) :
  fst (save K io now url data m b st) = true →
  fst (load K now' url m b (snd (save K io now url data m b st))) = Some data.
Proof.
  intros Hok. destruct (save_ok io now url data m b st Hok)
    as (_ & entry & Hid & Hloc & Hidx & Hblob).
  unfold load. rewrite Hidx, <- Hid, lookup_upsert.
  replace (location (upserted entry (index st))) with (location entry)
    by (unfold upserted; by case_match).
  rewrite Hloc, Hblob. reflexivity.
Qed.

(** *** Identity uniqueness *)

Lemma cleanup_index (io : Faults) (now : Z) (opts : CleanupOptions) (st : Store) :
  index (snd (cleanup io now opts st)) = survivors now opts (index st).
Proof.
  unfold cleanup, survivors, optional_pass, deleteByPredicate.
  destruct (maxAgeDays opts), (minAccessCount opts), (maxTotalSizeBytes opts);
    simpl; try done;
    by destruct (size_pass _ _).
Qed.

Lemma unique_step (st : Store) (o : Op) :
  unique_identities (index st) → unique_identities (index (step K st o)).
Proof.
  intros Huniq. destruct o as [now url m b | io now url data m b | url m b
                               | io prefix | io | io now opts | ]; simpl.
  - unfold load. repeat case_match; simpl; try done.
    unfold unique_identities. by rewrite identities_touch.
  - unfold save. case_match; simpl; [done|]. by apply unique_upsert.
  - done.
  - by apply unique_filter.
  - apply NoDup_nil_2.
  - rewrite cleanup_index. unfold survivors.
    repeat case_match; simpl;
      repeat first [apply unique_size_pass | apply unique_filter]; done.
  - done.
Qed.

Lemma unique_run (ops : list Op) (st : Store) :
  unique_identities (index st) → unique_identities (index (run K ops st)).
Proof.
  unfold run. revert st. induction ops as [|o ops IH]; intros st Huniq; simpl;
    [done|]. by apply IH, unique_step.
Qed.

Lemma save_row (io : Faults) (now : Z) (url : string) (data : JsValue)
    (m : string) (b : JsValue) (st : Store) :
  unique_identities (index st) →
  fst (save K io now url data m b st) = true →
  let i := request_identity K url m b in
  let st' := snd (save K io now url data m b st) in
  ∃ e',
    lookup_entry i (index st') = Some e' ∧
    List.filter (has_identity i) (index st') = [e'] ∧
    accessCount e' =
      match lookup_entry i (index st) with
      | Some e => (accessCount e + 1)%N
      | None => 1%N
      end.
Proof.
  intros Huniq Hok.
  destruct (save_ok io now url data m b st Hok)
    as (_ & entry & Hid & _ & Hidx & _).
  exists (upserted entry (index st)). simpl. rewrite Hidx, <- Hid.
  split; [apply lookup_upsert|]. split.
  - apply filter_has_identity_unique; [by apply unique_upsert|].
    apply lookup_upsert.
  - unfold upserted. by case_match.
Qed.

(** C2: the identity tuple is unique in the index, and an upsert counts
    up. After any sequence of Gateway operations from the empty store, no
    two rows of the index have the same (normalizedUrl, method,
    bodyFingerprint). If an identity has a row [e] there and a Save to
    that identity succeeds, the index afterwards has exactly one row of
    that identity, and its accessCount is that of [e] plus one: strictly
    greater, not reset. In particular, of two successful Saves to one
    identity, each leaves one row of it, and the second's accessCount is
    strictly greater than the first's. *)
Theorem identity_unique_and_upsert_counts_up (ops : list Op) :
  let st := run K ops empty_store in
  unique_identities (index st) ∧
  (∀ io now url data m b e,
     lookup_entry (request_identity K url m b) (index st) = Some e →
     fst (save K io now url data m b st) = true →
     ∃ e',
       List.filter (has_identity (request_identity K url m b))
                   (index (snd (save K io now url data m b st))) = [e'] ∧
       accessCount e' = (accessCount e + 1)%N ∧
       (accessCount e < accessCount e')%N) ∧
  (∀ io1 now1 data1 io2 now2 data2 url m b,
     let i := request_identity K url m b in
     let st1 := snd (save K io1 now1 url data1 m b st) in
     let st2 := snd (save K io2 now2 url data2 m b st1) in
     fst (save K io1 now1 url data1 m b st) = true →
     fst (save K io2 now2 url data2 m b st1) = true →
     ∃ e1 e2,
       List.filter (has_identity i) (index st1) = [e1] ∧
       List.filter (has_identity i) (index st2) = [e2] ∧
       (accessCount e1 < accessCount e2)%N).
Proof.
  intros st.
  assert (Huniq : unique_identities (index st)).
  { apply unique_run. apply NoDup_nil_2. }
  split; [done|]. split.
  - intros io now url data m b e Hrow Hok.
    destruct (save_row io now url data m b st Huniq Hok) as (e' & _ & Hone & Hcount).
    exists e'. rewrite Hrow in Hcount. split; [done|]. lia.
  - intros io1 now1 data1 io2 now2 data2 url m b i st1 st2 Hok1 Hok2.
    destruct (save_row io1 now1 url data1 m b st Huniq Hok1)
      as (e1 & Hrow1 & Hone1 & _).
    assert (Huniq1 : unique_identities (index st1)).
    { apply (unique_step st (Save io1 now1 url data1 m b) Huniq). }
    destruct (save_row io2 now2 url data2 m b st1 Huniq1 Hok2)
      as (e2 & _ & Hone2 & Hcount2).
    exists e1, e2. simpl in Hrow1, Hcount2. unfold st1 in Hcount2.
    rewrite Hrow1 in Hcount2. split; [done|]. split; [done|]. lia.
Qed.

Lemma lookup_entry_filter (i : Identity) (q : CacheEntry → bool)
    (rows : list CacheEntry) :
  (∀ e, identity e = i → q e = true) →
  lookup_entry i (List.filter q rows) = lookup_entry i rows.
Proof.
  intros Hq. unfold lookup_entry.
  induction rows as [|e rows IH]; [done|]. cbn [List.filter List.find].
  destruct (has_identity i e) eqn:Hid.
  - rewrite (Hq e) by (by apply has_identity_true). cbn [List.find]. by rewrite Hid.
  - destruct (q e); [|done]. cbn [List.find]. by rewrite Hid.
Qed.

(** C3: a cleanup with a size budget alone leaves at most the budget.
    After [cleanup {maxTotalSizeBytes: budget}] the sizes of the rows left
    sum to at most [budget]. With the rows ordered by (accessedAt
    ascending, accessCount ascending), the rows removed are the first [k]
    of that order and the rows left are the others; [k] is the least
    number that reaches the budget (while fewer are removed the total is
    above it); and the file of every removed row is gone, unless removing
    that file failed. *)
Theorem cleanup_respects_size_budget (io : Faults) (now : Z) (budget : N)
    (st : Store) :
  let opts := {| maxAgeDays := None; minAccessCount := None;
                 maxTotalSizeBytes := Some budget |} in
  let st' := snd (cleanup io now opts st) in
  let ordered := eviction_order (index st) in
  (total_size (index st') ≤ budget)%N ∧
  StronglySorted lru_le ordered ∧
  ordered ≡ₚ index st ∧
  ∃ k,
    index st' ≡ₚ drop k ordered ∧
    (∀ j, (j < k)%nat → (budget < total_size (drop j ordered))%N) ∧
    (∀ e, e ∈ take k ordered → unlink_fails io (location e) = false →
          blobs st' !! location e = None).
Proof.
  intros opts st' ordered.
  destruct (size_pass_spec budget (index st)) as (Hle & Hgone & Hkept & Hmin).
  assert (Hidx : index st' = snd (size_pass budget (index st))).
  { unfold st'. by rewrite cleanup_index. }
  assert (Hblobs : blobs st' = unlink_all io (fst (size_pass budget (index st)))
                                 (blobs st)).
  { unfold st', cleanup, optional_pass. simpl.
    by destruct (size_pass budget (index st)). }
  split; [by rewrite Hidx|].
  split; [apply Sorted_StronglySorted; [apply _ | apply eviction_order_Sorted]|].
  split; [apply eviction_order_Permutation|].
  exists (length (fst (size_pass budget (index st)))).
  split; [by rewrite Hidx|]. split; [done|].
  intros e Hin Hok. rewrite Hblobs. apply unlink_all_deleted; [|done].
  by rewrite Hgone.
Qed.

(** C4: revalidating a path prefix deletes the entries under it and no
    other. After [revalidatePath prefix] the index holds the rows whose
    normalizedUrl does not start with [prefix], each as it was and in the
    order they had; the count returned is the number of rows that did
    start with it, and their files are gone (unless removing one failed).
    For a request whose normalized URL does not start with [prefix],
    [exists_] answers as before, so it is still true where it was true;
    and the file of a row left is untouched unless a removed row pointed
    at the same location. *)
Theorem revalidate_deletes_exactly_the_prefix (io : Faults) (prefix : string)
    (st : Store) :
  let st' := snd (revalidatePath io prefix st) in
  index st' =
    List.filter (λ e, negb (startsWith (normalizedUrl e) prefix)) (index st) ∧
  (∀ e, e ∈ index st' ↔
        e ∈ index st ∧ startsWith (normalizedUrl e) prefix = false) ∧
  fst (revalidatePath io prefix st) = length (prefixSearch prefix (index st)) ∧
  (∀ e, e ∈ index st → startsWith (normalizedUrl e) prefix = true →
        unlink_fails io (location e) = false →
        blobs st' !! location e = None) ∧
  (∀ url m b, startsWith (normalizeUrl K url) prefix = false →
        exists_ K url m b st' = exists_ K url m b st) ∧
  (∀ e, e ∈ index st → startsWith (normalizedUrl e) prefix = false →
        (∀ v, v ∈ index st → startsWith (normalizedUrl v) prefix = true →
              location v ≠ location e) →
        blobs st' !! location e = blobs st !! location e).
Proof.
  intros st'. unfold st', revalidatePath, deleteByPredicate. simpl.
  split; [done|]. split.
  { intros e. rewrite elem_of_filter_bool. unfold under_prefix.
    by rewrite negb_true_iff. }
  split; [done|]. split.
  { intros e Hin Hpre Hok. apply unlink_all_deleted; [|done].
    by apply elem_of_filter_bool. }
  split.
  { intros url m b Hpre. unfold exists_. simpl.
    rewrite lookup_entry_filter; [done|].
    intros e Hid. unfold under_prefix.
    replace (normalizedUrl e) with (normalizeUrl K url); [by rewrite Hpre|].
    unfold request_identity, identity in Hid. congruence. }
  intros e Hin Hpre Hshare. apply unlink_all_frame.
  intros v Hv. apply elem_of_filter_bool in Hv as [Hv Hvp]. by apply Hshare.
Qed.

End GatewayFacts.

End CacheManagerFacts.

(** ** What a failed save does to the request in flight *)

Section SaveOutcome.
Context {C : Type}.

(** The save hook never throws: an error of [save] ends in the console. *)
Lemma run_saveToCache_catches (A : CacheManagerAPI C) (req : Request)
    (d : JsValue) (w : World C) :
  fst (@run_saveToCache C A req d w) = Normal tt ∧
  ∀ error c',
    @cm_save C A (originalUrl req) d (method req) (body req) (cache w)
      = (Throw error, c') →
    res (snd (@run_saveToCache C A req d w)) = res w ∧
    console (snd (@run_saveToCache C A req d w)) =
      console w ++ [console_error "Failed to save to cache:" [error]].
Proof.
  unfold run_saveToCache. unfold_monad. simpl.
  destruct (cm_save _ _ _ _ _) as [[v|error] c']; simpl.
  - split; [done|]. intros ? ? [=].
  - split; [done|]. by intros ? ? [= <- <-].
Qed.

(** Two managers that look up alike and whose [save] does not throw give
    the same response, whatever their saves report and store. *)
Lemma response_ignores_save_flag (A1 A2 : CacheManagerAPI C) D cfg
    (req : Request) (c : C) :
  (∀ u m b st, @cm_load C A1 u m b st = @cm_load C A2 u m b st) →
  (∀ u d m b st, ∃ v st', @cm_save C A1 u d m b st = (Normal v, st')) →
  (∀ u d m b st, ∃ v st', @cm_save C A2 u d m b st = (Normal v, st')) →
  (λ out, res (snd out)) <$> @proxied C A1 D cfg req c =
  (λ out, res (snd out)) <$> @proxied C A2 D cfg req c.
Proof.
  intros Hload Hs1 Hs2.
  unfold proxied, proxyRequest, cacheMiddleware_then_proxyRequest,
    proxyRequest_standalone, cacheMiddleware, proxy_forward, run_saveToCache.
  unfold_monad. simpl. f_equal; [|f_equal].
  - destruct (authenticate D req freshRes) as [[u|] r1]; simpl; [|done].
    destruct (authMiddleware D (with_user u req) _) as [[token|] r2]; simpl; [|done].
    destruct (String.eqb token EmptyString); simpl; [done|].
    destruct (negb _ || negb _); simpl.
    + split_cases; congruence.
    + rewrite Hload.
      destruct (cm_load _ _ _ c) as [[v|e] c']; simpl.
      * destruct (truthy v); simpl; [done|].
        destruct (headersSent _); simpl; [done|].
        destruct (nullish u); simpl; [done|].
        destruct (makeRequest D _) as [response|err]; simpl; [|done].
        rewrite !saveToCache_forwardHeaders. simpl.
        destruct (isFontFile D (path req) && _); simpl.
        { destruct (nullish (data response)); simpl; [done|].
          by destruct (data_is_stream response). }
        destruct (proxyService_isApiRequest _ && _); simpl.
        -- destruct (Hs1 (originalUrl req) (data response) (method req) (body req) c')
             as (v1 & st1 & ->).
           destruct (Hs2 (originalUrl req) (data response) (method req) (body req) c')
             as (v2 & st2 & ->). done.
        -- by destruct (truthy (data response) && _).
      * destruct (headersSent _); simpl; [done|].
        destruct (nullish u); simpl; [done|].
        destruct (makeRequest D _) as [response|err]; simpl; [|done].
        rewrite !saveToCache_forwardHeaders. simpl.
        destruct (isFontFile D (path req) && _); simpl.
        { destruct (nullish (data response)); simpl; [done|].
          by destruct (data_is_stream response). }
        destruct (proxyService_isApiRequest _ && _); simpl.
        -- destruct (Hs1 (originalUrl req) (data response) (method req) (body req) c')
             as (v1 & st1 & ->).
           destruct (Hs2 (originalUrl req) (data response) (method req) (body req) c')
             as (v2 & st2 & ->). done.
        -- by destruct (truthy (data response) && _).
  - destruct (negb _ || negb _); simpl.
    + destruct (authenticate D req freshRes) as [[u|] r1]; simpl; [|done].
      destruct (authMiddleware D (with_user u req) _) as [[token|] r2]; simpl; [|done].
      destruct (String.eqb token EmptyString); simpl; [done|].
      split_cases; congruence.
    + rewrite Hload.
      destruct (cm_load _ _ _ c) as [[v|e] c']; simpl;
        [destruct (truthy v); simpl; [done|] |];
        (destruct (authenticate D req _) as [[u|] r1]; simpl; [|done];
         destruct (authMiddleware D (with_user u req) _) as [[token|] r2]; simpl;
           [|done];
         destruct (String.eqb token EmptyString); simpl; [done|];
         destruct (nullish u); simpl; [done|];
         destruct (makeRequest D _) as [response|err]; simpl; [|done];
         rewrite !saveToCache_forwardHeaders; simpl;
         destruct (isFontFile D (path req) && _); simpl;
           [destruct (nullish (data response)); simpl; [done|];
            by destruct (data_is_stream response)|];
         destruct (proxyService_isApiRequest _ && _); simpl;
           [ destruct (Hs1 (originalUrl req) (data response) (method req)
                           (body req) c') as (v1 & st1 & ->);
             destruct (Hs2 (originalUrl req) (data response) (method req)
                           (body req) c') as (v2 & st2 & ->); done
           | by destruct (truthy (data response) && _) ]).
Qed.

End SaveOutcome.

(** C6: a Save whose write fails is logged, reports failure, and leaves the
    request in flight alone. When the write at the entry's location fails,
    [save] returns [false], appends one line to the log and changes
    neither the index nor the files. Behind the middleware, the response a
    request gets with such a disk is, field for field, the response it
    gets with a disk that takes every write. *)
Theorem failed_save_is_logged_and_harmless (K : CacheManager.KeyDeriver)
    (io : CacheManager.Faults) (now : Z) (url : string) (d : JsValue)
    (m : string) (b : JsValue) (st : CacheManager.Store) :
  CacheManager.write_fails io
    (CacheManager.deriveLocation K (CacheManager.normalizeUrl K url)
       (CacheManager.deriveKey K (CacheManager.request_identity K url m b)))
    = true →
  fst (CacheManager.save K io now url d m b st) = false ∧
  CacheManager.log (snd (CacheManager.save K io now url d m b st)) =
    CacheManager.log st ++ [console_error "Failed to save cache entry" [JStr url]] ∧
  CacheManager.index (snd (CacheManager.save K io now url d m b st)) =
    CacheManager.index st ∧
  CacheManager.blobs (snd (CacheManager.save K io now url d m b st)) =
    CacheManager.blobs st ∧
  ∀ init D cfg req c,
    (λ out, res (snd out)) <$>
      @proxied _ (gateway_api K io now init) D cfg req c =
    (λ out, res (snd out)) <$>
      @proxied _ (gateway_api K CacheManager.no_faults now init) D cfg req c.
Proof.
  intros Hfail. unfold CacheManager.save. rewrite Hfail. simpl.
  repeat (split; [done|]).
  intros init D cfg req c. apply response_ignores_save_flag.
  - done.
  - intros. simpl. eauto.
  - intros. simpl. eauto.
Qed.

(** ** Start-up *)

(** C7, as the code has it: a failure of [initializeDatabase] is caught and
    logged, and the server starts all the same. With a valid
    configuration, when [initializeDatabase] throws [error] the process
    ends up listening on its port, and the console holds "Failed to
    initialize cache database:" with that error. Only an invalid
    configuration makes the process exit. *)
Theorem initialization_failure_is_logged_and_server_starts {C : Type}
    (A : CacheManagerAPI C) (cfg : Config) (c c' : C) (error : JsValue) :
  validateConfig cfg = Normal true →
  @cm_initializeDatabase C A c = (Throw error, c') →
  process (@startup C A cfg c) = Listening (server_port cfg) ∧
  boot_cache (@startup C A cfg c) = Some c' ∧
  console_error "Failed to initialize cache database:" [error]
    ∈ boot_log (@startup C A cfg c).
Proof.
  intros Hcfg Hinit. unfold startup, initializeDatabase_block.
  rewrite Hcfg, Hinit. simpl. split; [done|]. split; [done|].
  right. left.
Qed.

(** C7 as the specification states it does not hold: here the index
    cannot be opened at start-up, and the server listens all the same. *)
Lemma initialization_failure_is_not_fatal :
  let A := gateway_api Sample.deriver CacheManager.no_faults 0
             (Some Sample.index_down) in
  fst (@cm_initializeDatabase _ A CacheManager.empty_store)
    = Throw Sample.index_down ∧
  process (@startup _ A Sample.cfg CacheManager.empty_store) = Listening 3000 ∧
  ∀ code, process (@startup _ A Sample.cfg CacheManager.empty_store) ≠ Exited code.
Proof. vm_compute. split; [done|]. split; [done|]. intros code [=]. Qed.

(** ** The theorems at work on the small installation *)

Lemma save_then_load_round_trip_witness :
  fst (CacheManager.load Sample.deriver 2000 "/api/users?id=5" "POST" Sample.users
         (snd (CacheManager.save Sample.deriver CacheManager.no_faults 1000
                 "/api/users?id=5" (JStr "b") "POST" Sample.users
                 CacheManager.empty_store)))
  = Some (JStr "b").
Proof.
  apply (CacheManagerFacts.save_then_load_round_trip Sample.deriver
           CacheManager.no_faults 1000 2000).
  reflexivity.
Defined.

Lemma identity_unique_and_upsert_counts_up_witness :
  let first := CacheManager.Save CacheManager.no_faults 1000 "/api/users?id=5"
                 (JStr "a") "GET" JUndefined in
  let st := CacheManager.run Sample.deriver [first] CacheManager.empty_store in
  let e := {| CacheManager.rawUrl := "/api/users?id=5";
              CacheManager.normalizedUrl := "/api/users?id=5";
              CacheManager.method := "GET";
              CacheManager.bodyFingerprint := None;
              CacheManager.location :=
                "data/api/GE/users?id=5_GET:/api/users?id=5.json";
              CacheManager.sizeBytes := 1;
              CacheManager.createdAt := 1000;
              CacheManager.accessedAt := 1000;
              CacheManager.accessCount := 1 |} in
  ∃ e',
    List.filter
      (CacheManager.has_identity
         (CacheManager.request_identity Sample.deriver "/api/users?id=5" "GET"
            JUndefined))
      (CacheManager.index
         (snd (CacheManager.save Sample.deriver CacheManager.no_faults 2000
                 "/api/users?id=5" (JStr "b") "GET" JUndefined st))) = [e'] ∧
    CacheManager.accessCount e' = (CacheManager.accessCount e + 1)%N ∧
    (CacheManager.accessCount e < CacheManager.accessCount e')%N.
Proof.
  intros first st e.
  apply (proj1 (proj2 (CacheManagerFacts.identity_unique_and_upsert_counts_up
                         Sample.deriver [first]))
           CacheManager.no_faults 2000 "/api/users?id=5" (JStr "b") "GET"
           JUndefined e).
  - reflexivity.
  - reflexivity.
Defined.

Lemma load_failure_is_a_miss_witness :
  let failing := with_load Sample.healthy
                   (λ _ _ _ st, (Throw Sample.index_down, st)) in
  let missing := with_load Sample.healthy (λ _ _ _ st, (Normal JNull, st)) in
  let D := Sample.deps Sample.ok_upstream in
  let req := Sample.get_users "alice" in
  outcome <$> @proxied _ failing D Sample.cfg req CacheManager.empty_store =
  outcome <$> @proxied _ missing D Sample.cfg req CacheManager.empty_store.
Proof.
  intros failing missing D req.
  apply (proj1 (proj2 (load_failure_is_a_miss failing missing D Sample.cfg req
                         CacheManager.empty_store CacheManager.empty_store
                         Sample.index_down JNull
                         (λ _ _ _ _ _, eq_refl) eq_refl eq_refl eq_refl))).
Defined.

Lemma failed_save_is_logged_and_harmless_witness :
  fst (CacheManager.save Sample.deriver Sample.disk_full 1000 "/api/users?id=5"
         Sample.users "GET" JUndefined CacheManager.empty_store) = false.
Proof.
  apply (failed_save_is_logged_and_harmless Sample.deriver Sample.disk_full 1000
           "/api/users?id=5" Sample.users "GET" JUndefined
           CacheManager.empty_store).
  reflexivity.
Defined.

Lemma initialization_failure_is_logged_and_server_starts_witness :
  let A := gateway_api Sample.deriver CacheManager.no_faults 0
             (Some Sample.index_down) in
  process (@startup _ A Sample.cfg CacheManager.empty_store) = Listening 3000.
Proof.
  intros A.
  apply (initialization_failure_is_logged_and_server_starts A Sample.cfg
           CacheManager.empty_store CacheManager.empty_store Sample.index_down).
  - reflexivity.
  - reflexivity.
Defined.

Lemma uncacheable_request_bypasses_cache_witness :
  calls (snd (@proxyRequest _ Sample.healthy (Sample.deps Sample.ok_upstream)
                Sample.cfg Sample.put_users
                (freshWorld CacheManager.empty_store))) = [].
Proof.
  refine (proj2 (proj1 (proj2
    (@uncacheable_request_bypasses_cache _ Sample.healthy
       (Sample.deps Sample.ok_upstream) Sample.cfg Sample.put_users
       (freshWorld CacheManager.empty_store) CacheManager.empty_store
       (or_introl (conj _ _)))))); discriminate.
Defined.

Lemma only_status_200_is_saved_witness :
  let D := Sample.deps Sample.ok_upstream in
  let req := Sample.get_users "alice" in
  ∃ opts response,
    makeRequest D opts = Normal response ∧ status response = 200 ∧
    CallSave "/api/users?id=5" Sample.users "GET" JUndefined =
    CallSave (originalUrl req) (data response) (method req) (body req).
Proof.
  intros D req.
  apply (proj1 (@only_status_200_is_saved _ Sample.healthy D Sample.cfg req
                  CacheManager.empty_store
                  (@proxyRequest _ Sample.healthy D Sample.cfg req
                     (freshWorld CacheManager.empty_store))
                  (list_elem_of_here _ _))).
  - vm_compute. right. left.
  - reflexivity.
Defined.

(** ** The installation, run *)

Example sample_miss_then_hit :
  let first := @proxyRequest _ Sample.healthy (Sample.deps Sample.ok_upstream)
                 Sample.cfg (Sample.get_users "alice")
                 (freshWorld CacheManager.empty_store) in
  let second := @proxyRequest _ Sample.healthy (Sample.deps Sample.ok_upstream)
                 Sample.cfg (Sample.get_users "bob")
                 (freshWorld (cache (snd first))) in
  resHeaders (res (snd first)) !! "X-Cache" = Some "MISS" ∧
  resHeaders (res (snd second)) !! "X-Cache" = Some "HIT" ∧
  sent (res (snd second)) = Some (SentJson Sample.users).
Proof. vm_compute. auto. Qed.

Lemma falsy_payload_is_not_served_witness :
  let st := snd (CacheManager.save Sample.deriver CacheManager.no_faults 1000
                   "/api/flag" (JBool false) "GET" JUndefined
                   CacheManager.empty_store) in
  let req := {| method := "GET"; originalUrl := "/api/flag"; path := "/api/flag";
                headers := ∅; body := JUndefined; user := JUndefined;
                accessToken := None |} in
  fst (CacheManager.load Sample.deriver 1000 "/api/flag" "GET" JUndefined st)
    = Some (JBool false) ∧
  fst (@cacheMiddleware _ Sample.healthy req (freshWorld st)) = Normal CalledNext.
Proof.
  intros st req. split; [reflexivity|].
  apply (@falsy_payload_is_not_served _ Sample.healthy req (freshWorld st)
           (JBool false)
           (snd (CacheManager.load Sample.deriver 1000 "/api/flag" "GET"
                   JUndefined st))
           eq_refl eq_refl eq_refl eq_refl).
Defined.

Lemma chained_middleware_serves_hits_unauthenticated_witness :
  let st := snd (CacheManager.save Sample.deriver CacheManager.no_faults 1000
                   "/api/users?id=5" Sample.users "GET" JUndefined
                   CacheManager.empty_store) in
  let anonymous := {| method := "GET"; originalUrl := "/api/users?id=5";
                      path := "/api/users"; headers := ∅; body := JUndefined;
                      user := JUndefined; accessToken := None |} in
  sent (res (snd (@cacheMiddleware_then_proxyRequest _ Sample.healthy
                    (Sample.deps Sample.ok_upstream) Sample.cfg anonymous
                    (freshWorld st))))
    = Some (SentJson Sample.users).
Proof.
  intros st anonymous.
  apply (@chained_middleware_serves_hits_unauthenticated _ Sample.healthy
           (Sample.deps Sample.ok_upstream) Sample.cfg anonymous st
           (snd (CacheManager.load Sample.deriver 1000 "/api/users?id=5" "GET"
                   JUndefined st))
           Sample.users eq_refl eq_refl eq_refl eq_refl).
Defined.

(** The scenario of the specification: entries under /api/users and
    /alldata/vehicle; revalidating "/api" deletes the former only. *)
Example revalidate_api_keeps_alldata :
  let st := CacheManager.run Sample.deriver
              [CacheManager.Save CacheManager.no_faults 1 "/api/users"
                 (JStr "u") "GET" JUndefined;
               CacheManager.Save CacheManager.no_faults 2 "/alldata/vehicle"
                 (JStr "v") "GET" JUndefined]
              CacheManager.empty_store in
  let st' := snd (CacheManager.revalidatePath CacheManager.no_faults "/api" st) in
  fst (CacheManager.revalidatePath CacheManager.no_faults "/api" st) = 1%nat ∧
  CacheManager.exists_ Sample.deriver "/api/users" "GET" JUndefined st' = false ∧
  CacheManager.exists_ Sample.deriver "/alldata/vehicle" "GET" JUndefined st' = true ∧
  fst (CacheManager.load Sample.deriver 3 "/alldata/vehicle" "GET" JUndefined st')
    = Some (JStr "v").
Proof. vm_compute. auto. Qed.

(** Three entries of 4, 4 and 2 bytes, the first read again later; a budget
    of 6 bytes evicts the one that was accessed longest ago, and no more. *)
Example cleanup_evicts_least_recently_used :
  let st := CacheManager.run Sample.deriver
              [CacheManager.Save CacheManager.no_faults 1 "/api/a" (JStr "aaaa")
                 "GET" JUndefined;
               CacheManager.Save CacheManager.no_faults 2 "/api/b" (JStr "bbbb")
                 "GET" JUndefined;
               CacheManager.Save CacheManager.no_faults 3 "/api/c" (JStr "cc")
                 "GET" JUndefined;
               CacheManager.Load 4 "/api/a" "GET" JUndefined]
              CacheManager.empty_store in
  let r := CacheManager.cleanup CacheManager.no_faults 5
             {| CacheManager.maxAgeDays := None;
                CacheManager.minAccessCount := None;
                CacheManager.maxTotalSizeBytes := Some 6%N |} st in
  CacheManager.normalizedUrl <$> CacheManager.index (snd r) = ["/api/c"; "/api/a"] ∧
  fst r = {| CacheManager.deletedCount := 1; CacheManager.deletedBytes := 4 |} ∧
  CacheManager.total_size (CacheManager.index (snd r)) = 6%N.
Proof. vm_compute. auto. Qed.

Example isApiRequest_by_url :
  @isApiRequest = @proxyService_isApiRequest ∧
  isApiRequest (Sample.get_users "alice") = true ∧
  isApiRequest {| method := "GET"; originalUrl := "/index.html";
                  path := "/index.html"; headers := {[ "accept" := "text/html" ]};
                  body := JUndefined; user := JUndefined; accessToken := None |}
    = false.
Proof. vm_compute. auto. Qed.

Example js_strings :
  includes "/v1/api/users" "/api/" = true ∧
  includes "/apix" "/api/" = false ∧
  includes "text/html, application/json;q=0.9" "application/json" = true ∧
  startsWith "/api/users" "/api" = true ∧
  startsWith "/alldata/vehicle" "/api" = false ∧
  toLowerCase "Content-Length" = "content-length" ∧
  arrayIncludes ["GET"; "POST"] "PUT" = false.
Proof. vm_compute. auto 10. Qed.

(** ** More of [proxyRequest] *)

Section ProxyFacts.
Context {C : Type} `{CacheManagerAPI C}.

Lemma let_through_as_run D cfg (req : Request) (u : JsValue) (token : string)
    (r : Res) (c : C) :
  let_through_as D req u token r →
  proxyRequest D cfg req (freshWorld c)
  = try_catch
      (s <- cacheMiddleware (with_accessToken (Some token) (with_user u req)) ;;
       match s with
       | Responded => ret tt
       | CalledNext =>
           r <- get_res ;;
           if headersSent r then ret tt
           else proxy_forward D (with_accessToken (Some token) (with_user u req))
                  token
       end)
      (proxy_error cfg req)
      {| cache := c; res := r; console := []; publicFiles := []; calls := [] |}.
Proof.
  intros (r1 & r2 & Hauth & Htok & Hne & ->).
  unfold proxyRequest. unfold_monad. simpl. rewrite Hauth. simpl. rewrite Htok. simpl.
  apply String.eqb_neq in Hne. rewrite Hne. reflexivity.
Qed.

Lemma let_through_as_hook D (req : Request) (u : JsValue) (token : string)
    (r : Res) :
  let_through_as D req u token r → saveToCache r = None.
Proof. intros (? & ? & _ & _ & _ & ->). reflexivity. Qed.

(** X4: a caller that fails [authenticate], or for whom [authMiddleware]
    leaves no token (or an empty one), is stopped before the cache: the
    handler makes no call to the cache manager, leaves the cache as it
    was and writes no file, and the response is what the failing check
    made of it. *)
Theorem rejected_caller_never_reaches_cache D cfg (req : Request) (c : C) :
  let a := authenticate D req freshRes in
  let out := proxyRequest D cfg req (freshWorld c) in
  (fst a = None →
     cache (snd out) = c ∧ calls (snd out) = [] ∧ publicFiles (snd out) = [] ∧
     res (snd out) = keep_hook freshRes (snd a)) ∧
  (∀ u, fst a = Some u →
     let t := authMiddleware D (with_user u req) (keep_hook freshRes (snd a)) in
     falsy_string (fst t) = true →
     fst out = Normal tt ∧ cache (snd out) = c ∧ calls (snd out) = [] ∧
     publicFiles (snd out) = [] ∧
     res (snd out) = keep_hook (keep_hook freshRes (snd a)) (snd t)).
Proof.
  intros a out. subst a out. unfold proxyRequest. unfold_monad. simpl.
  destruct (authenticate D req freshRes) as [[u|] r1]; simpl.
  - split; [discriminate|]. intros u' [= <-].
    destruct (authMiddleware D (with_user u req) (keep_hook freshRes r1))
      as [[t|] r2]; simpl; [|done].
    intros ->. done.
  - split; [done|]. discriminate.
Qed.

(** X5: a cache hit is answered from the cache alone: the payload found is
    sent with the status the response had, the three headers X-Cache,
    X-Cache-From and Content-Type are set, the one call made is the load,
    and nothing of this depends on the upstream server. *)
Theorem cache_hit_answers_without_upstream D cfg (req : Request) (token : string)
    (r : Res) (c c' : C) (v : JsValue) :
  let_through D req token r →
  looked_up req c (Normal v) c' →
  truthy v = true →
  let out := proxyRequest D cfg req (freshWorld c) in
  fst out = Normal tt ∧
  sent (res (snd out)) = Some (SentJson v) ∧
  statusCode (res (snd out)) = statusCode r ∧
  resHeaders (res (snd out))
    = <["Content-Type" := "application/json"]>
        (<["X-Cache-From" := "SQLite-Index"]>
           (<["X-Cache" := "HIT"]> (resHeaders r))) ∧
  cache (snd out) = c' ∧
  calls (snd out) = [CallLoad (originalUrl req) (method req) (body req)].
Proof.
  intros (u & Hadm) (Hm & Hapi & Hload) Hv out. subst out.
  rewrite (let_through_as_run D cfg req u token r c Hadm).
  unfold cacheMiddleware. cbn [method originalUrl body with_accessToken with_user].
  change (isApiRequest (with_accessToken (Some token) (with_user u req)))
    with (isApiRequest req).
  rewrite Hm, Hapi. unfold_monad. simpl. rewrite Hload. simpl. rewrite Hv. simpl.
  done.
Qed.

Lemma not_served_run D cfg (req : Request) (u : JsValue) (token : string)
    (r : Res) (c c' : C) :
  let_through_as D req u token r →
  not_served req r c c' →
  ∃ w,
    proxyRequest D cfg req (freshWorld c)
    = try_catch
        (proxy_forward D (with_accessToken (Some token) (with_user u req)) token)
        (proxy_error cfg req) w ∧
    cache w = c' ∧ statusCode (res w) = statusCode r ∧
    resHeaders (res w) = resHeaders r ∧ sent (res w) = None ∧
    publicFiles w = [] ∧
    (saveToCache (res w) = None ∨
     saveToCache (res w) = Some (with_accessToken (Some token) (with_user u req))) ∧
    (∀ call, call ∈ calls w → is_save call = false).
Proof.
  intros Hadm (Hsent & Hlook).
  rewrite (let_through_as_run D cfg req u token r c Hadm).
  pose proof (let_through_as_hook D req u token r Hadm) as Hhook.
  unfold cacheMiddleware. cbn [method originalUrl body with_accessToken with_user].
  change (isApiRequest (with_accessToken (Some token) (with_user u req)))
    with (isApiRequest req).
  destruct Hlook as [[Hskip ->]|(v & (Hm & Hapi & Hload) & Hv)].
  - apply andb_false_iff in Hskip.
    assert (negb (arrayIncludes ["GET"; "POST"] (method req))
            || negb (isApiRequest req) = true) as ->.
    { destruct Hskip as [-> | ->]; simpl; [done|]. apply orb_true_r. }
    unfold_monad. simpl. unfold headersSent. rewrite Hsent. simpl.
    eexists. split; [reflexivity|]. simpl.
    repeat split; auto. intros call Hc. by apply elem_of_nil in Hc.
  - rewrite Hm, Hapi. unfold_monad. simpl. rewrite Hload. simpl.
    destruct v as [d|e]; simpl.
    + rewrite (Hv d eq_refl). simpl. unfold headersSent. simpl. rewrite Hsent. simpl.
      eexists. split; [reflexivity|]. simpl.
      repeat split; auto.
      intros call Hc. apply list_elem_of_singleton in Hc. by subst.
    + unfold headersSent. simpl. rewrite Hsent. simpl.
      eexists. split; [reflexivity|]. simpl.
      repeat split; auto.
      intros call Hc. apply list_elem_of_singleton in Hc. by subst.
Qed.

Lemma proxy_forward_asks D (req : Request) (u : JsValue) (token : string)
    (w : World C) :
  proxy_forward D (with_accessToken (Some token) (with_user u req)) token w
  = ((if nullish u
      then lift (Throw (typeError D (ReadOfNullish u "email")))
      else ret tt) ;;;
     console_write (logger_line "info" "Proxying"
                      [JStr (method req); JStr (originalUrl req); js_field "email" u]) ;;;
     response <- lift (makeRequest D (requestOptions req token)) ;;
     console_write (logger_line "info" "Proxy response:"
                      [JNum (status response); JStr (originalUrl req)]) ;;;
     modify_res (res_status (status response)) ;;;
     modify_res (forwardHeaders (up_headers response)) ;;;
     r <- get_res ;;
     if isFontFile D (path req) && (status response =? 200) then
       let normalizedPath := normalizeAssetPath D (path req) in
       let localPath := publicPath D normalizedPath in
       modify_res (res_setHeader "Content-Type" (getContentType D normalizedPath)) ;;;
       modify_res (res_setHeader "Cache-Control" "public, max-age=31536000") ;;;
       modify_res (res_setHeader "Access-Control-Allow-Origin" "*") ;;;
       (if nullish (data response)
        then lift (Throw (typeError D (ReadOfNullish (data response) "on")))
        else if data_is_stream response then ret tt
        else lift (Throw (typeError D (NotAFunction "sourceStream.on")))) ;;;
       write_public localPath ;;;
       modify_res (res_end (SentStream (data response)))
     else
       match (if proxyService_isApiRequest req && (status response =? 200)
              then saveToCache r else None) with
       | Some closure =>
           run_saveToCache closure (data response) ;;;
           modify_res (res_end (SentJson (data response)))
       | None =>
           if truthy (data response) && data_is_stream response
           then modify_res (res_end (SentStream (data response)))
           else modify_res (res_end (SentJson (data response)))
       end) w.
Proof. reflexivity. Qed.

(** X6: when the upstream request fails, the caller gets status 500 and
    the body {error: 'Proxy error', message, stack}, the stack only when
    [config.server.env] is 'development' (its value also when NODE_ENV is
    not set); nothing is saved to the cache and no file is written. The
    caller is one whose [req.user] is an object or another value a
    property can be read from. *)
Theorem upstream_failure_is_answered_500 D cfg (req : Request) (u : JsValue)
    (token : string) (r : Res) (c c' : C) (e : JsValue) :
  let_through_as D req u token r →
  nullish u = false →
  not_served req r c c' →
  makeRequest D (requestOptions req token) = Throw e →
  let out := proxyRequest D cfg req (freshWorld c) in
  fst out = Normal tt ∧
  statusCode (res (snd out)) = 500 ∧
  sent (res (snd out))
    = Some (SentJson
              (JObj [("error", JStr "Proxy error");
                     ("message", js_field "message" e);
                     ("stack", if String.eqb (server_env cfg) "development"
                               then js_field "stack" e else JUndefined)])) ∧
  resHeaders (res (snd out)) = resHeaders r ∧
  cache (snd out) = c' ∧
  publicFiles (snd out) = [] ∧
  ∀ call, call ∈ calls (snd out) → is_save call = false.
Proof.
  intros Hadm Hu Hns Hup out. subst out.
  destruct (not_served_run D cfg req u token r c c' Hadm Hns)
    as (w & -> & Hc & Hst & Hh & Hs & Hp & _ & Hcalls).
  unfold try_catch. rewrite proxy_forward_asks. rewrite Hu.
  unfold_monad. simpl. rewrite Hup. simpl.
  unfold stack_if_development. repeat split; auto.
Qed.

(** X27: a caller that [authenticate] lets through without a user
    ([req.user] undefined or null) is answered 500: reading
    [req.user.email] for the log line throws inside the [try], so the body
    is {error: 'Proxy error', message, stack} with the message of that
    TypeError; the status, the body and the headers are these whatever the
    upstream server would answer, for it is not asked; nothing is saved
    and no file is written. *)
Theorem caller_without_user_is_answered_500 D cfg (req : Request) (u : JsValue)
    (token : string) (r : Res) (c c' : C) :
  let_through_as D req u token r →
  nullish u = true →
  not_served req r c c' →
  let out := proxyRequest D cfg req (freshWorld c) in
  let e := typeError D (ReadOfNullish u "email") in
  fst out = Normal tt ∧
  statusCode (res (snd out)) = 500 ∧
  sent (res (snd out))
    = Some (SentJson
              (JObj [("error", JStr "Proxy error");
                     ("message", js_field "message" e);
                     ("stack", if String.eqb (server_env cfg) "development"
                               then js_field "stack" e else JUndefined)])) ∧
  resHeaders (res (snd out)) = resHeaders r ∧
  cache (snd out) = c' ∧
  publicFiles (snd out) = [] ∧
  ∀ call, call ∈ calls (snd out) → is_save call = false.
Proof.
  intros Hadm Hu Hns out e. subst out e.
  destruct (not_served_run D cfg req u token r c c' Hadm Hns)
    as (w & -> & Hc & Hst & Hh & Hs & Hp & _ & Hcalls).
  unfold try_catch. rewrite proxy_forward_asks. rewrite Hu.
  unfold_monad. simpl.
  unfold stack_if_development. repeat split; auto.
Qed.

End ProxyFacts.

(** ** Headers *)






(** X10: the headers sent upstream are the caller's own, except that Host,
    Connection and Content-Length are removed and Cookie, Origin, Referer
    and accessToken are overwritten with the upstream token and target;
    an API request also gets Accesstoken and Content-Type. Every other
    header of the caller, Authorization included, goes upstream as it
    came. *)
Theorem buildHeaders_strips_and_overrides (req : Request) (token : string)
    (isApi : bool) :
  let h := buildHeaders req token isApi in
  h !! "host" = None ∧ h !! "connection" = None ∧ h !! "content-length" = None ∧
  h !! "cookie" = Some ("accessToken=" +:+ token) ∧
  h !! "origin" = Some proxy_target ∧
  h !! "referer" = Some (proxy_target +:+ "/") ∧
  h !! "accessToken" = Some token ∧
  (isApi = true →
     h !! "Accesstoken" = Some token ∧ h !! "Content-Type" = Some "application/json") ∧
  (∀ k, k ∉ ["host"; "connection"; "content-length"; "cookie"; "origin"; "referer";
             "accessToken"] →
        (isApi = true → k ∉ ["Accesstoken"; "Content-Type"]) →
        h !! k = headers req !! k).
Proof.
  intros h. subst h. unfold buildHeaders.
  set (h0 := <["accessToken" := token]> _).
  assert (Hwf : match headers req !! "web-from" with
                | Some v => if falsy_string (Some v) then h0 else <["web-from" := v]> h0
                | None => h0
                end = h0).
  { destruct (headers req !! "web-from") as [v|] eqn:Hv; [|reflexivity].
    case_match; [reflexivity|].
    apply insert_id. subst h0.
    rewrite !lookup_insert_ne by discriminate. done. }
  rewrite Hwf. clear Hwf. subst h0.
  repeat split.
  - by rewrite lookup_delete_ne, lookup_delete_ne, lookup_delete_eq.
  - by rewrite lookup_delete_ne, lookup_delete_eq.
  - by rewrite lookup_delete_eq.
  - rewrite !lookup_delete_ne by discriminate. destruct isApi.
    + rewrite !lookup_insert_ne by discriminate. apply lookup_insert_eq.
    + rewrite !lookup_insert_ne by discriminate. apply lookup_insert_eq.
  - rewrite !lookup_delete_ne by discriminate. destruct isApi.
    + rewrite 4!lookup_insert_ne by discriminate. apply lookup_insert_eq.
    + rewrite 2!lookup_insert_ne by discriminate. apply lookup_insert_eq.
  - rewrite !lookup_delete_ne by discriminate. destruct isApi.
    + rewrite 3!lookup_insert_ne by discriminate. apply lookup_insert_eq.
    + rewrite 1!lookup_insert_ne by discriminate. apply lookup_insert_eq.
  - rewrite !lookup_delete_ne by discriminate. destruct isApi.
    + rewrite 2!lookup_insert_ne by discriminate. apply lookup_insert_eq.
    + apply lookup_insert_eq.
  - subst. rewrite !lookup_delete_ne by discriminate.
    rewrite lookup_insert_ne by discriminate. apply lookup_insert_eq.
  - subst. rewrite !lookup_delete_ne by discriminate. apply lookup_insert_eq.
  - intros k Hk Hapi.
    rewrite !not_elem_of_cons in Hk.
    destruct Hk as (? & ? & ? & ? & ? & ? & ? & _).
    rewrite !lookup_delete_ne by done.
    destruct isApi.
    + specialize (Hapi eq_refl). rewrite !not_elem_of_cons in Hapi.
      destruct Hapi as (? & ? & _).
      by rewrite !lookup_insert_ne by done.
    + by rewrite !lookup_insert_ne by done.
Qed.

Section ProxyAnswers.
Context {C : Type} `{CacheManagerAPI C}.




(** X8: a miss followed by the same request is a hit. When the first
    request for (url, method, body) finds nothing, the upstream answers
    200 to an API request, and the cache manager gives back on load what
    it was given on save, the first caller is sent the upstream data with
    X-Cache: MISS, and the next caller asking for the same, whoever it is,
    is sent the same data with X-Cache: HIT, with one call to the cache
    manager, the load. The first caller is one whose [req.user] a
    property can be read from. *)
Theorem second_request_is_a_hit D cfg (req1 req2 : Request) (u1 : JsValue)
    (token1 token2 : string)
    (r1 r2 : Res) (c c1 c2 c3 : C) (v0 : Completion JsValue)
    (response : Upstream) (flag : JsValue) :
  originalUrl req2 = originalUrl req1 →
  method req2 = method req1 →
  body req2 = body req1 →
  isApiRequest req2 = true →
  let_through_as D req1 u1 token1 r1 →
  nullish u1 = false →
  let_through D req2 token2 r2 →
  sent r1 = None →
  isFontFile D (path req1) = false →
  looked_up req1 c v0 c1 →
  (∀ d, v0 = Normal d → truthy d = false) →
  makeRequest D (requestOptions req1 token1) = Normal response →
  status response = 200 →
  truthy (data response) = true →
  cm_save (originalUrl req1) (data response) (method req1) (body req1) c1
    = (Normal flag, c2) →
  cm_load (originalUrl req1) (method req1) (body req1) c2
    = (Normal (data response), c3) →
  let first := proxyRequest D cfg req1 (freshWorld c) in
  let second := proxyRequest D cfg req2 (freshWorld (cache (snd first))) in
  sent (res (snd first)) = Some (SentJson (data response)) ∧
  resHeaders (res (snd first)) !! "X-Cache" = Some "MISS" ∧
  cache (snd first) = c2 ∧
  sent (res (snd second)) = Some (SentJson (data response)) ∧
  resHeaders (res (snd second)) !! "X-Cache" = Some "HIT" ∧
  calls (snd second) = [CallLoad (originalUrl req1) (method req1) (body req1)].
Proof.
  intros Hurl Hmeth Hbody Hapi2 Hadm1 Hu1 (u2 & Hadm2) Hsent Hfont
    (Hm & Hapi & Hload) Hmiss Hup H200 Htruthy Hsave Hload2 first second.
  assert (Hfirst : sent (res (snd first)) = Some (SentJson (data response)) ∧
            resHeaders (res (snd first)) !! "X-Cache" = Some "MISS" ∧
            cache (snd first) = c2).
  { subst first second.
    rewrite (let_through_as_run D cfg req1 u1 token1 r1 c Hadm1).
    unfold cacheMiddleware.
    cbn [method originalUrl body with_accessToken with_user].
    change (isApiRequest (with_accessToken (Some token1) (with_user u1 req1)))
      with (isApiRequest req1).
    rewrite Hm, Hapi. cbn [negb orb].
    assert (Hrest : ∀ w0 : World C,
              saveToCache (res w0) = Some (with_accessToken (Some token1)
                                             (with_user u1 req1)) →
              cache w0 = c1 →
              let out := proxy_forward D (with_accessToken (Some token1)
                                            (with_user u1 req1)) token1 w0 in
              fst out = Normal tt ∧
              sent (res (snd out)) = Some (SentJson (data response)) ∧
              resHeaders (res (snd out)) !! "X-Cache" = Some "MISS" ∧
              cache (snd out) = c2).
    { intros w0 Hw0 <-. rewrite proxy_forward_asks. rewrite Hu1.
      unfold run_saveToCache. unfold_monad. simpl. rewrite Hup. simpl.
      rewrite Hfont. simpl. rewrite proxyService_isApiRequest_eq, Hapi.
      apply Z.eqb_eq in H200. rewrite H200. simpl.
      rewrite saveToCache_forwardHeaders. simpl. rewrite Hw0. simpl.
      rewrite Hsave. simpl.
      split; [reflexivity|]. split; [reflexivity|].
      split; [apply lookup_insert_eq|reflexivity]. }
    unfold_monad. simpl. rewrite Hload. simpl.
    destruct v0 as [d|e]; simpl.
    - rewrite (Hmiss d eq_refl). simpl. unfold headersSent. simpl. rewrite Hsent.
      match goal with |- context [proxy_forward D ?q ?t ?w0] =>
        destruct (Hrest w0 eq_refl eq_refl) as (Hn & ? & ? & ?);
        destruct (proxy_forward D q t w0) as [[[]|?] ?]; [done|discriminate Hn]
      end.
    - unfold headersSent. simpl. rewrite Hsent.
      match goal with |- context [proxy_forward D ?q ?t ?w0] =>
        destruct (Hrest w0 eq_refl eq_refl) as (Hn & ? & ? & ?);
        destruct (proxy_forward D q t w0) as [[[]|?] ?]; [done|discriminate Hn]
      end. }
  destruct Hfirst as (Hf1 & Hf2 & Hf3).
  split; [done|]. split; [done|]. split; [done|].
  subst second. rewrite Hf3.
  rewrite (let_through_as_run D cfg req2 u2 token2 r2 c2 Hadm2).
  unfold cacheMiddleware.
  cbn [method originalUrl body with_accessToken with_user].
  change (isApiRequest (with_accessToken (Some token2) (with_user u2 req2)))
    with (isApiRequest req2).
  rewrite Hurl, Hmeth, Hbody, Hm, Hapi2. unfold_monad. simpl.
  rewrite Hload2. simpl. rewrite Htruthy. simpl.
  split; [reflexivity|]. split; [|reflexivity].
  rewrite !lookup_insert_ne by discriminate. apply lookup_insert_eq.
Qed.

End ProxyAnswers.

Lemma sample_let_through_as (up : Upstream) (who : string) :
  let_through_as (Sample.deps up) (Sample.get_users who)
    (JObj [("email", JStr who)]) "upstream-token" freshRes.
Proof.
  exists freshRes, freshRes. repeat split; discriminate.
Defined.

Lemma sample_let_through (up : Upstream) (who : string) :
  let_through (Sample.deps up) (Sample.get_users who) "upstream-token" freshRes.
Proof.
  exists (JObj [("email", JStr who)]). apply sample_let_through_as.
Defined.

Lemma sample_miss (req : Request) :
  arrayIncludes ["GET"; "POST"] (method req) = true →
  isApiRequest req = true →
  @not_served _ Sample.healthy req freshRes CacheManager.empty_store
    (snd (CacheManager.load Sample.deriver 1000 (originalUrl req) (method req)
            (body req) CacheManager.empty_store)).
Proof.
  intros Hm Hapi. split; [reflexivity|]. right.
  exists (Normal JNull). split; [repeat split; auto|].
  intros d [= <-]. reflexivity.
Defined.

Lemma rejected_caller_never_reaches_cache_witness :
  calls (snd (@proxyRequest _ Sample.healthy (Sample.deps Sample.ok_upstream)
                Sample.cfg Sample2.anonymous (freshWorld CacheManager.empty_store)))
    = [] ∧
  statusCode (res (snd (@proxyRequest _ Sample.healthy
                          (Sample.deps Sample.ok_upstream) Sample.cfg
                          Sample2.anonymous (freshWorld CacheManager.empty_store))))
    = 400.
Proof.
  destruct (proj1 (@rejected_caller_never_reaches_cache _ Sample.healthy
                     (Sample.deps Sample.ok_upstream) Sample.cfg Sample2.anonymous
                     CacheManager.empty_store) eq_refl)
    as (_ & Hcalls & _ & Hres).
  split; [exact Hcalls|]. rewrite Hres. reflexivity.
Defined.

Lemma cache_hit_answers_without_upstream_witness :
  let st := snd (CacheManager.save Sample.deriver CacheManager.no_faults 1000
                   "/api/users?id=5" Sample.users "GET" JUndefined
                   CacheManager.empty_store) in
  sent (res (snd (@proxyRequest _ Sample.healthy Sample2.failing_upstream
                    Sample.cfg (Sample.get_users "bob") (freshWorld st))))
    = Some (SentJson Sample.users).
Proof.
  intros st.
  refine (proj1 (proj2 (@cache_hit_answers_without_upstream _ Sample.healthy
            Sample2.failing_upstream Sample.cfg (Sample.get_users "bob")
            "upstream-token" freshRes st
            (snd (CacheManager.load Sample.deriver 1000 "/api/users?id=5" "GET"
                    JUndefined st))
            Sample.users _ _ eq_refl))).
  - exists (JObj [("email", JStr "bob")]), freshRes, freshRes.
    repeat split; discriminate.
  - repeat split.
Defined.

Lemma upstream_failure_is_answered_500_witness :
  statusCode (res (snd (@proxyRequest _ Sample.healthy Sample2.failing_upstream
                          Sample.cfg (Sample.get_users "bob")
                          (freshWorld CacheManager.empty_store))))
    = 500.
Proof.
  refine (proj1 (proj2 (@upstream_failure_is_answered_500 _ Sample.healthy
            Sample2.failing_upstream Sample.cfg (Sample.get_users "bob")
            (JObj [("email", JStr "bob")])
            "upstream-token" freshRes CacheManager.empty_store
            CacheManager.empty_store
            (JObj [("message", JStr "ECONNRESET"); ("stack", JStr "at makeRequest")])
            _ eq_refl (sample_miss (Sample.get_users "bob") eq_refl eq_refl) eq_refl))).
  exists freshRes, freshRes. repeat split; discriminate.
Defined.

Lemma caller_without_user_is_answered_500_witness :
  sent (res (snd (@proxyRequest _ Sample.healthy Sample2.no_user Sample.cfg
                    (Sample.get_users "bob")
                    (freshWorld CacheManager.empty_store))))
    = Some (SentJson
              (JObj [("error", JStr "Proxy error");
                     ("message",
                      JStr "Cannot read properties of undefined (reading 'email')");
                     ("stack", JUndefined)])).
Proof.
  refine (proj1 (proj2 (proj2 (@caller_without_user_is_answered_500 _
            Sample.healthy Sample2.no_user Sample.cfg (Sample.get_users "bob")
            JUndefined "upstream-token" freshRes CacheManager.empty_store
            CacheManager.empty_store
            _ eq_refl (sample_miss (Sample.get_users "bob") eq_refl eq_refl))))).
  exists freshRes, freshRes. repeat split; discriminate.
Defined.



Lemma second_request_is_a_hit_witness :
  let first := @proxyRequest _ Sample.healthy (Sample.deps Sample.ok_upstream)
                 Sample.cfg (Sample.get_users "alice")
                 (freshWorld CacheManager.empty_store) in
  let second := @proxyRequest _ Sample.healthy (Sample.deps Sample.ok_upstream)
                 Sample.cfg (Sample.get_users "bob")
                 (freshWorld (cache (snd first))) in
  sent (res (snd second)) = Some (SentJson Sample.users) ∧
  resHeaders (res (snd second)) !! "X-Cache" = Some "HIT".
Proof.
  intros first second.
  pose (c2 := snd (CacheManager.save Sample.deriver CacheManager.no_faults 1000
                     "/api/users?id=5" Sample.users "GET" JUndefined
                     CacheManager.empty_store)).
  destruct (@second_request_is_a_hit _ Sample.healthy (Sample.deps Sample.ok_upstream)
              Sample.cfg (Sample.get_users "alice") (Sample.get_users "bob")
              (JObj [("email", JStr "alice")])
              "upstream-token" "upstream-token" freshRes freshRes
              CacheManager.empty_store CacheManager.empty_store c2
              (snd (CacheManager.load Sample.deriver 1000 "/api/users?id=5" "GET"
                      JUndefined c2))
              (Normal JNull) Sample.ok_upstream (JBool true)
              eq_refl eq_refl eq_refl eq_refl
              (sample_let_through_as _ _) eq_refl (sample_let_through _ _)
              eq_refl eq_refl
              (conj eq_refl (conj eq_refl eq_refl))
              (λ d Hd, match Hd in _ = y return
                         match y with Normal d' => truthy d' = false | Throw _ => True end
                       with eq_refl => eq_refl end)
              eq_refl eq_refl eq_refl eq_refl eq_refl)
    as (_ & _ & _ & Hs & Hh & _).
  split; [exact Hs | exact Hh].
Defined.
(** ** The cache identity of two callers *)

Section CacheIdentity.
Context {C : Type} `{CacheManagerAPI C}.

(** [cacheMiddleware] on a request that passes its gate: one load, and
    then the hit is sent or the hook is hung. *)
Lemma cacheMiddleware_cacheable (req : Request) (w : World C) :
  arrayIncludes ["GET"; "POST"] (method req) = true →
  isApiRequest req = true →
  let out := cacheMiddleware req w in
  let found := cm_load (originalUrl req) (method req) (body req) (cache w) in
  calls (snd out)
    = calls w ++ [CallLoad (originalUrl req) (method req) (body req)] ∧
  cache (snd out) = snd found ∧
  publicFiles (snd out) = publicFiles w ∧
  ((∃ v, fst found = Normal v ∧ truthy v = true ∧
         fst out = Normal Responded ∧
         res (snd out)
           = res_end (SentJson v)
               (res_setHeader "Content-Type" "application/json"
                  (res_setHeader "X-Cache-From" "SQLite-Index"
                     (res_setHeader "X-Cache" "HIT" (res w))))) ∨
   ((∀ v, fst found = Normal v → truthy v = false) ∧
    fst out = Normal CalledNext ∧
    res (snd out) = res_attach req (res w))).
Proof.
  intros Hm Hapi out found. subst out found.
  unfold cacheMiddleware. rewrite Hm, Hapi. unfold_monad. simpl.
  destruct (cm_load _ _ _ (cache w)) as [[v|e] c'] eqn:Hload; simpl.
  - destruct (truthy v) eqn:Hv; simpl.
    + repeat split; auto. left. exists v. done.
    + repeat split; auto. right. split; [|done]. intros v' [= <-]. done.
  - repeat split; auto. right. split; [|done]. intros v' [=].
Qed.

Lemma proxy_forward_calls D (req : Request) (token : string) (w : World C) :
  ∃ rest, calls (snd (proxy_forward D req token w)) = calls w ++ rest.
Proof.
  destruct (proxy_forward_effect D req token w)
    as [[-> _]|(? & ? & ? & _ & _ & _ & ->)].
  - exists []. by rewrite app_nil_r.
  - by eexists.
Qed.

Lemma proxy_error_keeps cfg (req : Request) (m : M C unit) (w : World C) :
  calls (snd (try_catch m (proxy_error cfg req) w)) = calls (snd (m w)) ∧
  cache (snd (try_catch m (proxy_error cfg req) w)) = cache (snd (m w)).
Proof.
  unfold try_catch. destruct (m w) as [[[]|e] w']; [done|].
  unfold proxy_error. unfold_monad. done.
Qed.

(** A caller let through with a cacheable request starts with the load
    for (originalUrl, method, body). *)
Lemma proxyRequest_loads_first D cfg (req : Request) (u : JsValue)
    (token : string) (r : Res) (c : C) :
  let_through_as D req u token r →
  arrayIncludes ["GET"; "POST"] (method req) = true →
  isApiRequest req = true →
  ∃ rest,
    calls (snd (proxyRequest D cfg req (freshWorld c)))
    = CallLoad (originalUrl req) (method req) (body req) :: rest.
Proof.
  intros Hadm Hm Hapi.
  rewrite (let_through_as_run D cfg req u token r c Hadm).
  rewrite (proj1 (proxy_error_keeps cfg req _ _)).
  unfold bind at 1.
  match goal with |- context [cacheMiddleware ?q ?w0] =>
    destruct (cacheMiddleware_cacheable q w0 Hm Hapi)
      as (Hcalls & _ & _ & Hcases);
    destruct (cacheMiddleware q w0) as [s w1] eqn:Hmw
  end.
  simpl in Hcalls, Hcases.
  destruct Hcases as [(v & _ & _ & -> & _)|(_ & -> & _)].
  - simpl. rewrite Hcalls. by eexists.
  - unfold bind, get_res. simpl.
    destruct (headersSent (res w1)).
    + simpl. rewrite Hcalls. by eexists.
    + destruct (proxy_forward_calls D (with_accessToken (Some token) (with_user u req))
                  token w1) as (rest & ->).
      rewrite Hcalls. simpl. by eexists.
Qed.

(** C8, as the code has it: the cache identity does not depend on the
    caller, for requests the middleware treats as cacheable. Take two
    requests with the same original URL, method and body, a method that is
    GET or POST, and both classified as API requests by [isApiRequest]
    (which looks at each caller's content-type and accept headers besides
    the URL). Then
    - [cacheMiddleware] makes the same one call for both, the load for
      (originalUrl, method, body), leaves the same cache, and answers both
      alike: a truthy payload found is sent to either, and otherwise each
      gets the save hook;
    - the two hooks do the same: one save for (originalUrl, data, method,
      body);
    - in both versions of the server every call either request makes to
      the cache manager is for that one triple;
    - for authenticated callers: what the first caller's request saves
      after a miss is saved under that triple, the second caller's request
      starts with the load for the same triple, and when the manager gives
      back what was saved, the second caller is sent the data saved for
      the first. *)
Theorem cache_identity_ignores_caller D cfg (req1 req2 : Request) :
  originalUrl req1 = originalUrl req2 →
  method req1 = method req2 →
  body req1 = body req2 →
  arrayIncludes ["GET"; "POST"] (method req1) = true →
  isApiRequest req1 = true →
  isApiRequest req2 = true →
  let url := originalUrl req1 in
  let m := method req1 in
  let b := body req1 in
  (∀ w : World C,
     let r1 := cacheMiddleware req1 w in
     let r2 := cacheMiddleware req2 w in
     calls (snd r1) = calls w ++ [CallLoad url m b] ∧
     calls (snd r2) = calls w ++ [CallLoad url m b] ∧
     cache (snd r1) = snd (cm_load url m b (cache w)) ∧
     cache (snd r2) = snd (cm_load url m b (cache w)) ∧
     fst r1 = fst r2 ∧
     sent (res (snd r1)) = sent (res (snd r2)) ∧
     resHeaders (res (snd r1)) = resHeaders (res (snd r2)) ∧
     (∀ v, fst (cm_load url m b (cache w)) = Normal v → truthy v = true →
        fst r1 = Normal Responded ∧
        sent (res (snd r1)) = Some (SentJson v)) ∧
     (fst r1 = Normal CalledNext →
        saveToCache (res (snd r1)) = Some req1 ∧
        saveToCache (res (snd r2)) = Some req2)) ∧
  (∀ (data : JsValue) (w : World C),
     run_saveToCache req1 data w = run_saveToCache req2 data w ∧
     calls (snd (run_saveToCache req1 data w))
       = calls w ++ [CallSave url data m b] ∧
     cache (snd (run_saveToCache req1 data w))
       = snd (cm_save url data m b (cache w))) ∧
  (∀ (c1 c2 : C) out call,
     out ∈ proxied D cfg req1 c1 ++ proxied D cfg req2 c2 →
     call ∈ calls (snd out) →
     call_identity call = (url, m, b)) ∧
  (∀ (u1 : JsValue) (token1 token2 : string) (r1 r2 : Res) (c : C)
     (response : Upstream),
     let_through_as D req1 u1 token1 r1 →
     let_through D req2 token2 r2 →
     nullish u1 = false →
     sent r1 = None →
     isFontFile D (path req1) = false →
     (∀ d, fst (cm_load url m b c) = Normal d → truthy d = false) →
     makeRequest D (requestOptions req1 token1) = Normal response →
     status response = 200 →
     let first := proxyRequest D cfg req1 (freshWorld c) in
     let second := proxyRequest D cfg req2 (freshWorld (cache (snd first))) in
     calls (snd first) = [CallLoad url m b; CallSave url (data response) m b] ∧
     cache (snd first)
       = snd (cm_save url (data response) m b (snd (cm_load url m b c))) ∧
     head (calls (snd second)) = Some (CallLoad url m b) ∧
     (∀ c3, cm_load url m b (cache (snd first)) = (Normal (data response), c3) →
        truthy (data response) = true →
        sent (res (snd second)) = Some (SentJson (data response)) ∧
        calls (snd second) = [CallLoad url m b])).
Proof.
  intros Hu Hm Hb Hmeth Hapi1 Hapi2 url m b. subst url m b.
  assert (Hmeth2 : arrayIncludes ["GET"; "POST"] (method req2) = true)
    by by rewrite <- Hm.
  split; [|split; [|split]].
  - intros w r1 r2. subst r1 r2.
    destruct (cacheMiddleware_cacheable req1 w Hmeth Hapi1)
      as (Hc1 & Hk1 & _ & Hcases1).
    destruct (cacheMiddleware_cacheable req2 w Hmeth2 Hapi2)
      as (Hc2 & Hk2 & _ & Hcases2).
    rewrite <- Hu, <- Hm, <- Hb in Hc2, Hk2, Hcases2.
    split; [done|]. split; [done|]. split; [done|]. split; [done|].
    destruct Hcases1 as [(v1 & Hf1 & Hv1 & Hs1 & Hr1)|(Hmiss1 & Hs1 & Hr1)];
      destruct Hcases2 as [(v2 & Hf2 & Hv2 & Hs2 & Hr2)|(Hmiss2 & Hs2 & Hr2)].
    + rewrite Hf1 in Hf2. injection Hf2 as <-.
      rewrite Hs1, Hs2, Hr1, Hr2. simpl.
      split; [done|]. split; [done|]. split; [done|].
      split; [|discriminate].
      intros v Hv _. rewrite Hf1 in Hv. by injection Hv as <-.
    + rewrite (Hmiss2 v1 Hf1) in Hv1. discriminate.
    + rewrite (Hmiss1 v2 Hf2) in Hv2. discriminate.
    + rewrite Hs1, Hs2, Hr1, Hr2. simpl.
      split; [done|]. split; [done|]. split; [done|].
      split; [|done].
      intros v Hv Ht. rewrite (Hmiss1 v Hv) in Ht. discriminate.
  - intros data w. unfold run_saveToCache. rewrite <- Hu, <- Hm, <- Hb.
    split; [reflexivity|]. unfold_monad. simpl.
    destruct (cm_save _ _ _ _ _) as [[f|e] c']; simpl; done.
  - intros c1 c2 out call Hout Hcall.
    assert (Hcalls : request_calls D req1 c1 (calls (snd out)) (cache (snd out)) ∨
                     request_calls D req2 c2 (calls (snd out)) (cache (snd out))).
    { apply elem_of_app in Hout as [Hout | Hout]; [left | right];
        by apply (proxied_calls D cfg). }
    unfold request_calls in Hcalls. rewrite <- Hu, <- Hm, <- Hb in Hcalls.
    destruct Hcalls as [Hc | Hc];
      destruct Hc as [[Ht _] | [[Ht _] | (? & ? & _ & _ & Ht & _)]];
      rewrite Ht in Hcall;
      repeat (apply elem_of_cons in Hcall as [-> | Hcall]; [reflexivity|]);
      by apply elem_of_nil in Hcall.
  - intros u1 token1 token2 r1 r2 c response Hadm1 (u2 & Hadm2) Hu1 Hsent Hfont
      Hmiss Hup H200 first second.
    assert (Hfirst :
      calls (snd first)
        = [CallLoad (originalUrl req1) (method req1) (body req1);
           CallSave (originalUrl req1) (data response) (method req1) (body req1)] ∧
      cache (snd first)
        = snd (cm_save (originalUrl req1) (data response) (method req1) (body req1)
                 (snd (cm_load (originalUrl req1) (method req1) (body req1) c)))).
    { subst first second.
      rewrite (let_through_as_run D cfg req1 u1 token1 r1 c Hadm1).
      destruct (proxy_error_keeps cfg req1
        (s <- cacheMiddleware (with_accessToken (Some token1) (with_user u1 req1)) ;;
         match s with
         | Responded => ret tt
         | CalledNext =>
             r <- get_res ;;
             if headersSent r then ret tt
             else proxy_forward D (with_accessToken (Some token1) (with_user u1 req1))
                    token1
         end)
        {| cache := c; res := r1; console := []; publicFiles := []; calls := [] |})
        as [-> ->].
      unfold bind at 1 3.
      match goal with |- context [cacheMiddleware ?q ?w0] =>
        destruct (cacheMiddleware_cacheable q w0 Hmeth Hapi1)
          as (Hcalls & Hcache & _ & Hcases);
        destruct (cacheMiddleware q w0) as [s w1] eqn:Hmw
      end.
      simpl in Hcalls, Hcache, Hcases.
      destruct Hcases as [(v & Hf & Hv & _)|(_ & -> & Hres)].
      { rewrite (Hmiss v Hf) in Hv. discriminate. }
      unfold bind, get_res. simpl. unfold headersSent. rewrite Hres. simpl.
      rewrite Hsent. rewrite proxy_forward_asks. rewrite Hu1.
      unfold run_saveToCache. unfold_monad. simpl. rewrite Hup. simpl.
      rewrite Hfont. simpl. rewrite proxyService_isApiRequest_eq, Hapi1.
      apply Z.eqb_eq in H200. rewrite H200. simpl.
      rewrite saveToCache_forwardHeaders. simpl. rewrite Hres. simpl.
      rewrite Hcalls, Hcache.
      destruct (cm_save _ _ _ _ _) as [[f|e] c2]; simpl; done. }
    destruct Hfirst as [Hf1 Hf2].
    split; [done|]. split; [done|].
    assert (Hsecond : ∃ rest, calls (snd second)
              = CallLoad (originalUrl req1) (method req1) (body req1) :: rest).
    { subst second. rewrite Hu, Hm, Hb.
      apply (proxyRequest_loads_first D cfg req2 u2 token2 r2 _ Hadm2 Hmeth2 Hapi2). }
    split.
    { destruct Hsecond as (rest & ->). reflexivity. }
    intros c3 Hload Hv. subst second.
    assert (Hlu : looked_up req2 (cache (snd first)) (Normal (data response)) c3).
    { split; [done|]. split; [done|]. by rewrite <- Hu, <- Hm, <- Hb. }
    rewrite (let_through_as_run D cfg req2 u2 token2 r2 _ Hadm2).
    unfold cacheMiddleware.
    cbn [method originalUrl body with_accessToken with_user].
    change (isApiRequest (with_accessToken (Some token2) (with_user u2 req2)))
      with (isApiRequest req2).
    rewrite Hmeth2, Hapi2. unfold_monad. simpl.
    rewrite <- Hu, <- Hm, <- Hb. rewrite Hload. simpl. rewrite Hv. simpl. done.
Qed.

End CacheIdentity.

(** C8 at work: what alice's request saved is what bob's request is
    sent. *)
Lemma cache_identity_ignores_caller_witness :
  let first := @proxyRequest _ Sample.healthy (Sample.deps Sample.ok_upstream)
                 Sample.cfg (Sample.get_users "alice")
                 (freshWorld CacheManager.empty_store) in
  let second := @proxyRequest _ Sample.healthy (Sample.deps Sample.ok_upstream)
                  Sample.cfg (Sample.get_users "bob")
                  (freshWorld (cache (snd first))) in
  calls (snd first)
    = [CallLoad "/api/users?id=5" "GET" JUndefined;
       CallSave "/api/users?id=5" Sample.users "GET" JUndefined] ∧
  sent (res (snd second)) = Some (SentJson Sample.users) ∧
  calls (snd second) = [CallLoad "/api/users?id=5" "GET" JUndefined].
Proof.
  intros first second.
  destruct (proj2 (proj2 (proj2
              (@cache_identity_ignores_caller _ Sample.healthy
                 (Sample.deps Sample.ok_upstream) Sample.cfg
                 (Sample.get_users "alice") (Sample.get_users "bob")
                 eq_refl eq_refl eq_refl eq_refl eq_refl eq_refl)))
              (JObj [("email", JStr "alice")]) "upstream-token" "upstream-token"
              freshRes freshRes CacheManager.empty_store Sample.ok_upstream
              (sample_let_through_as _ _) (sample_let_through _ _)
              eq_refl eq_refl eq_refl
              (λ d Hd, match Hd in _ = y return
                         match y with Normal d' => truthy d' = false | Throw _ => True end
                       with eq_refl => eq_refl end)
              eq_refl eq_refl)
    as (Hfirst & _ & _ & Hhit).
  destruct (Hhit _ eq_refl eq_refl) as [Hsent Hcalls].
  split; [exact Hfirst|]. split; [exact Hsent | exact Hcalls].
Defined.

(** C8 as the specification states it does not hold: two authenticated
    callers ask for the same URL with the same method and body; the one
    who sends the header accept: application/json reads and writes the
    cache entry, and the other, asking next, makes no call to the cache
    manager and is not served the entry. *)
Lemma same_request_is_cached_for_one_caller_only :
  let D := Sample.deps Sample.ok_upstream in
  let alice := Sample2.get_list "alice" true in
  let bob := Sample2.get_list "bob" false in
  let first := @proxyRequest _ Sample.healthy D Sample.cfg alice
                 (freshWorld CacheManager.empty_store) in
  let second := @proxyRequest _ Sample.healthy D Sample.cfg bob
                  (freshWorld (cache (snd first))) in
  (originalUrl alice, method alice, body alice)
    = (originalUrl bob, method bob, body bob) ∧
  let_through D alice "upstream-token" freshRes ∧
  let_through D bob "upstream-token" freshRes ∧
  calls (snd first)
    = [CallLoad "/vehicle/list" "GET" JUndefined;
       CallSave "/vehicle/list" Sample.users "GET" JUndefined] ∧
  fst (CacheManager.load Sample.deriver 1000 "/vehicle/list" "GET" JUndefined
         (cache (snd first))) = Some Sample.users ∧
  calls (snd second) = [] ∧
  cache (snd second) = cache (snd first) ∧
  resHeaders (res (snd second)) !! "X-Cache" = None.
Proof.
  intros D alice bob first second.
  split; [reflexivity|].
  split; [exists (JObj [("email", JStr "alice")]), freshRes, freshRes;
          repeat split; discriminate|].
  split; [exists (JObj [("email", JStr "bob")]), freshRes, freshRes;
          repeat split; discriminate|].
  vm_compute. repeat split.
Qed.
(** * The token of the upstream service *)

Module AuthManagerFacts.
Import AuthManager.

Lemma saveCachedToken_cachedToken env token st :
  cachedToken (saveCachedToken env token st) = cachedToken st.
Proof.
  unfold saveCachedToken. destruct (writeFile_error env); [reflexivity|].
  by destruct (chmod_error env).
Qed.

Lemma accept_Normal what env reply st a st' :
  accept what env reply st = (Normal a, st') →
  ∃ payload, reply = Answer 201 payload ∧ a = td_accessToken payload ∧
    cachedToken st' = Some (token_of env payload).
Proof.
  unfold accept. destruct reply as [m|code payload]; [discriminate|].
  destruct (code =? 201) eqn:Hc; simpl; [|discriminate].
  apply Z.eqb_eq in Hc. subst code. intros [= <- <-].
  exists payload. rewrite saveCachedToken_cachedToken. done.
Qed.

Lemma accept_Throw what env reply st e st' :
  accept what env reply st = (Throw e, st') →
  st' = st ∧ (∃ m, e = js_error (what +:+ " failed: " +:+ m)) ∧
  ∀ payload, reply ≠ Answer 201 payload.
Proof.
  unfold accept. destruct reply as [m|code payload].
  - intros [= <- <-]. split; [done|]. split; [by eexists|]. discriminate.
  - destruct (code =? 201) eqn:Hc; simpl; [discriminate|].
    apply Z.eqb_neq in Hc.
    intros [= <- <-]. split; [done|]. split; [by eexists|].
    intros payload' [= ? ?]. done.
Qed.

Lemma accept_201 what env payload st :
  accept what env (Answer 201 payload) st
  = (Normal (td_accessToken payload),
     saveCachedToken env (token_of env payload)
       {| cachedToken := Some (token_of env payload); tokenFile := tokenFile st;
          console := console st |}).
Proof. reflexivity. Qed.

(** X11: a token in memory is handed out, with no request to the upstream
    API and no change of the token or of the file, as long as the clock is
    strictly before issuedAt + expiresInAccessToken; from that instant on
    it is not handed out any more: a token that is returned then comes
    from a 201 answer of the refresh or of the login. *)
Theorem cached_token_is_used_until_it_expires (env : Env) (email password : JsValue)
    (st : State) (t : Token) (issued : Z) :
  cachedToken st = Some t →
  issuedAt t = Some issued →
  (now env < issued + expiresInAccessToken t →
   fst (getValidToken env email password st) = Normal (tok_accessToken t) ∧
   cachedToken (snd (getValidToken env email password st)) = Some t ∧
   tokenFile (snd (getValidToken env email password st)) = tokenFile st) ∧
  (issued + expiresInAccessToken t ≤ now env →
   ∀ a, fst (getValidToken env email password st) = Normal a →
   ∃ payload, a = td_accessToken payload ∧
     cachedToken (snd (getValidToken env email password st))
       = Some (token_of env payload) ∧
     (patch_refresh env (tok_refreshToken t) = Answer 201 payload ∨
      post_login env email password = Answer 201 payload)).
Proof.
  intros Hc Hi. unfold getValidToken. simpl. rewrite Hc.
  unfold isTokenValid. rewrite Hi. split.
  - intros Hlt. apply Z.ltb_lt in Hlt. rewrite Hlt. simpl. done.
  - intros Hge. apply Z.ltb_ge in Hge. rewrite Hge.
    intros a.
    destruct (isRefreshTokenValid env t) eqn:Hr.
    + unfold refreshToken. simpl. rewrite Hc, Hr.
      destruct (accept "Token refresh" env _ _) as [[a'|e] st'] eqn:Hacc.
      * simpl. intros [= ->]. apply accept_Normal in Hacc as (payload & ? & ? & ?).
        exists payload. auto.
      * unfold fall_back_to_login, login.
        destruct (accept "Login" env _ _) as [[a'|e'] st''] eqn:Hlog; [|discriminate].
        simpl. intros [= ->]. apply accept_Normal in Hlog as (payload & ? & ? & ?).
        exists payload. auto.
    + unfold fall_back_to_login, login.
      destruct (accept "Login" env _ _) as [[a'|e'] st''] eqn:Hlog; [|discriminate].
      simpl. intros [= ->]. apply accept_Normal in Hlog as (payload & ? & ? & ?).
      exists payload. auto.
Qed.

Lemma fall_back_to_login_Throw env email password st e st' :
  fall_back_to_login env email password st = (Throw e, st') →
  (∃ m, e = js_error ("Login failed: " +:+ m)) ∧
  (∀ payload, post_login env email password ≠ Answer 201 payload) ∧
  cachedToken st' = cachedToken st ∧ tokenFile st' = tokenFile st.
Proof.
  unfold fall_back_to_login, login. intros Hacc.
  apply accept_Throw in Hacc as (-> & Hm & Hne). done.
Qed.

Lemma getValidToken_Throw env email password st e st' :
  getValidToken env email password st = (Throw e, st') →
  (∃ m, e = js_error ("Login failed: " +:+ m)) ∧
  (∀ payload, post_login env email password ≠ Answer 201 payload) ∧
  cachedToken st' = cachedToken st ∧ tokenFile st' = tokenFile st.
Proof.
  unfold getValidToken. simpl.
  destruct (cachedToken st) as [t|] eqn:Hc.
  - destruct (isTokenValid env t); [discriminate|].
    destruct (isRefreshTokenValid env t) eqn:Hr.
    + unfold refreshToken. simpl. rewrite Hc, Hr.
      destruct (accept "Token refresh" env _ _) as [[a'|e'] st1] eqn:Hacc;
        [discriminate|].
      apply accept_Throw in Hacc as (-> & _ & _).
      intros Hf. apply fall_back_to_login_Throw in Hf. simpl in Hf.
      by rewrite Hc in Hf.
    + intros Hf. apply fall_back_to_login_Throw in Hf. simpl in Hf.
      by rewrite Hc in Hf.
  - intros Hf. apply fall_back_to_login_Throw in Hf. simpl in Hf.
    by rewrite Hc in Hf.
Qed.

Lemma getValidToken_Normal env email password st a st' :
  getValidToken env email password st = (Normal a, st') →
  ∃ t, cachedToken st' = Some t ∧ tok_accessToken t = a.
Proof.
  unfold getValidToken. simpl.
  destruct (cachedToken st) as [t|] eqn:Hc.
  - destruct (isTokenValid env t).
    { intros [= <- <-]. exists t. done. }
    destruct (isRefreshTokenValid env t) eqn:Hr.
    + unfold refreshToken. simpl. rewrite Hc, Hr.
      destruct (accept "Token refresh" env _ _) as [[a'|e'] st1] eqn:Hacc.
      * intros [= <- <-]. apply accept_Normal in Hacc as (payload & _ & -> & ->).
        by eexists.
      * unfold fall_back_to_login, login. intros Hacc'.
        apply accept_Normal in Hacc' as (payload & _ & -> & ->). by eexists.
    + unfold fall_back_to_login, login. intros Hacc'.
      apply accept_Normal in Hacc' as (payload & _ & -> & ->). by eexists.
  - unfold fall_back_to_login, login. intros Hacc'.
    apply accept_Normal in Hacc' as (payload & _ & -> & ->). by eexists.
Qed.

(** X12: [getValidToken] fails only when the login fails: whatever the
    state of the cached token and whatever became of the refresh, a 201
    answer to the login gives a token; and an error that does come out is
    the login's ('Login failed: ...') and leaves the token in memory and
    the token file as they were. *)
Theorem getValidToken_fails_only_when_login_fails (env : Env)
    (email password : JsValue) (st : State) :
  (∀ payload, post_login env email password = Answer 201 payload →
     ∃ a, fst (getValidToken env email password st) = Normal a) ∧
  (∀ e, fst (getValidToken env email password st) = Throw e →
     (∃ m, e = js_error ("Login failed: " +:+ m)) ∧
     (∀ payload, post_login env email password ≠ Answer 201 payload) ∧
     cachedToken (snd (getValidToken env email password st)) = cachedToken st ∧
     tokenFile (snd (getValidToken env email password st)) = tokenFile st).
Proof.
  split.
  - intros payload Hp.
    destruct (getValidToken env email password st) as [[a|e] st'] eqn:Hg;
      [by eexists|].
    apply getValidToken_Throw in Hg as (_ & Hne & _). by destruct (Hne payload).
  - intros e He.
    destruct (getValidToken env email password st) as [[a|e'] st'] eqn:Hg;
      [discriminate|].
    simpl in He. injection He as ->. by apply getValidToken_Throw in Hg.
Qed.

(** X13: a token handed out is in memory afterwards, and is handed out
    again to every later call made while it is valid, whatever the
    upstream API would answer then and whatever credentials are given. *)
Theorem token_is_reused (env1 env2 : Env) (email password email' password' : JsValue)
    (st st1 : State) (a : string) :
  getValidToken env1 email password st = (Normal a, st1) →
  ∃ t, cachedToken st1 = Some t ∧ tok_accessToken t = a ∧
    (isTokenValid env2 t = true →
     fst (getValidToken env2 email' password' st1) = Normal a ∧
     cachedToken (snd (getValidToken env2 email' password' st1)) = Some t ∧
     tokenFile (snd (getValidToken env2 email' password' st1)) = tokenFile st1).
Proof.
  intros Hg. apply getValidToken_Normal in Hg as (t & Hc & <-).
  exists t. split; [done|]. split; [done|].
  intros Hv. unfold getValidToken. simpl. rewrite Hc, Hv. done.
Qed.

Lemma accept_write_errors what w ch env reply st1 st2 :
  cachedToken st1 = cachedToken st2 →
  fst (accept what (with_write_errors w ch env) reply st1)
    = fst (accept what env reply st2) ∧
  cachedToken (snd (accept what (with_write_errors w ch env) reply st1))
    = cachedToken (snd (accept what env reply st2)).
Proof.
  intros Hc. unfold accept. destruct reply as [m|code payload]; [done|].
  destruct (code =? 201); simpl; [|done].
  by rewrite !saveCachedToken_cachedToken.
Qed.

(** X14: a token file that cannot be written never fails a request: the
    token handed out, or the error, and the token kept in memory are the
    same whether writeFile and chmod succeed or fail. *)
Theorem token_file_failure_is_harmless (env : Env) (w ch : option JsValue)
    (email password : JsValue) (st : State) :
  let broken := with_write_errors w ch env in
  fst (getValidToken broken email password st)
    = fst (getValidToken env email password st) ∧
  cachedToken (snd (getValidToken broken email password st))
    = cachedToken (snd (getValidToken env email password st)).
Proof.
  intros broken. subst broken. unfold getValidToken. simpl.
  change (isTokenValid (with_write_errors w ch env)) with (isTokenValid env).
  change (isRefreshTokenValid (with_write_errors w ch env))
    with (isRefreshTokenValid env).
  assert (Hlogin : ∀ st1 st2, cachedToken st1 = cachedToken st2 →
            fst (fall_back_to_login (with_write_errors w ch env) email password st1)
              = fst (fall_back_to_login env email password st2) ∧
            cachedToken (snd (fall_back_to_login (with_write_errors w ch env)
                                email password st1))
              = cachedToken (snd (fall_back_to_login env email password st2))).
  { intros st1 st2 Hc. unfold fall_back_to_login, login.
    apply accept_write_errors. simpl. done. }
  destruct (cachedToken st) as [t|] eqn:Hc; [|by apply Hlogin].
  destruct (isTokenValid env t); [done|].
  destruct (isRefreshTokenValid env t) eqn:Hr; [|by apply Hlogin].
  unfold refreshToken. simpl. rewrite Hc.
  change (isRefreshTokenValid (with_write_errors w ch env) t)
    with (isRefreshTokenValid env t).
  rewrite Hr.
  change (patch_refresh (with_write_errors w ch env)) with (patch_refresh env).
  match goal with
  | |- context [accept "Token refresh" env ?reply ?s0] =>
      destruct (accept_write_errors "Token refresh" w ch env reply s0 s0 eq_refl)
        as (Hfst & Hsnd);
      destruct (accept "Token refresh" (with_write_errors w ch env) reply s0)
        as [[a1|e1] s1] eqn:H1;
      destruct (accept "Token refresh" env reply s0) as [[a2|e2] s2] eqn:H2;
      simpl in Hfst, Hsnd; try discriminate Hfst
  end.
  - done.
  - injection Hfst as ->. apply Hlogin. simpl. done.
Qed.

End AuthManagerFacts.

(** ** The manager behind the handlers *)

Section TokenFailure.
Context {C : Type} `{CacheManagerAPI C}.

(** X15: when no token of the upstream service can be had, a caller who
    passed [authenticate] is answered 500 {error: 'Authentication failed',
    details: 'Login failed: ...'}; the cache is not consulted and not
    changed. *)
Theorem token_failure_is_answered_500 (env : AuthManager.Env)
    (st : AuthManager.State) D cfg cfg' (req : Request) (c : C) (u e : JsValue)
    (r1 : Res) :
  authenticate D req freshRes = (Some u, r1) →
  accessToken req = None →
  fst (AuthManager.getValidToken env (AuthManager.credential (auth_email cfg))
         (AuthManager.credential (auth_password cfg)) st) = Throw e →
  let out := proxyRequest (with_authManager env cfg st D) cfg' req (freshWorld c) in
  fst out = Normal tt ∧
  statusCode (res (snd out)) = 500 ∧
  sent (res (snd out))
    = Some (SentJson (JObj [("error", JStr "Authentication failed");
                            ("details", js_field "message" e)])) ∧
  (∃ m, js_field "message" e = JStr ("Login failed: " +:+ m)) ∧
  calls (snd out) = [] ∧ cache (snd out) = c.
Proof.
  intros Hauth Htok Hg out. subst out.
  unfold proxyRequest. unfold_monad. simpl. rewrite Hauth. simpl.
  unfold AuthManager.authMiddleware.
  destruct (AuthManager.getValidToken env _ _ st) as [[a|e'] st'] eqn:Hgvt;
    [discriminate|].
  simpl in Hg. injection Hg as ->. simpl. rewrite Htok. simpl.
  repeat split; auto.
  apply AuthManagerFacts.getValidToken_Throw in Hgvt as ((m & ->) & _).
  by exists m.
Qed.

Lemma getValidToken_quiet (env : AuthManager.Env) (email password : JsValue)
    (st : AuthManager.State) :
  fst (AuthManager.getValidToken env email password (quiet st))
    = fst (AuthManager.getValidToken env email password st) ∧
  console_log "getValidToken called" []
    ∈ AuthManager.console
        (snd (AuthManager.getValidToken env email password (quiet st))).
Proof.
  unfold AuthManager.getValidToken, AuthManager.refreshToken,
    AuthManager.fall_back_to_login, AuthManager.login, AuthManager.accept,
    AuthManager.saveCachedToken, AuthManager.log, quiet. simpl.
  repeat case_match; simplify_eq; simpl;
    (split; [done|]); rewrite ?elem_of_app, ?elem_of_cons; auto 10.
Qed.

(** X16: [handleReactRoute] never gets past its token check. What
    [authMiddleware] returns is undefined whether or not it found a token,
    so the code after the check never runs: the handler does the same
    whatever that code is, and makes no call to the cache manager and
    writes no file. For a caller [authenticate] lets through no error
    escapes, [getValidToken] is called (its line is on the console), and
    then: when it gives a token, the response is left as [authenticate]
    left it, so that nothing is sent when [authenticate] sent nothing;
    when it throws, the answer is 500 'Authentication failed'. *)
Theorem handleReactRoute_stops_at_token_check (env : AuthManager.Env)
    (st : AuthManager.State) D cfg (rest : Request → M C unit) (req : Request)
    (w : World C) :
  let out := handleReactRoute D cfg env rest st req w in
  let token := AuthManager.getValidToken env
                 (AuthManager.credential (auth_email cfg))
                 (AuthManager.credential (auth_password cfg)) st in
  out = handleReactRoute D cfg env (λ _, ret tt) st req w ∧
  cache (snd out) = cache w ∧ calls (snd out) = calls w ∧
  publicFiles (snd out) = publicFiles w ∧
  (∀ u, fst (authenticate D req (res w)) = Some u →
     fst out = Normal tt ∧
     console_log "getValidToken called" [] ∈ console (snd out) ∧
     (∀ a, fst token = Normal a →
        sent (res (snd out)) = sent (snd (authenticate D req (res w))) ∧
        statusCode (res (snd out))
          = statusCode (snd (authenticate D req (res w)))) ∧
     (∀ e, fst token = Throw e →
        statusCode (res (snd out)) = 500 ∧
        sent (res (snd out))
          = Some (SentJson (JObj [("error", JStr "Authentication failed");
                                  ("details", js_field "message" e)])))).
Proof.
  intros out token. subst out token.
  destruct (getValidToken_quiet env (AuthManager.credential (auth_email cfg))
              (AuthManager.credential (auth_password cfg)) st) as [Hfst Hline].
  rewrite <- Hfst.
  unfold handleReactRoute, console_write_all. unfold_monad. simpl.
  destruct (authenticate D req (res w)) as [[u|] r1] eqn:Hauth; simpl.
  - unfold AuthManager.authMiddleware.
    destruct (AuthManager.getValidToken env _ _ (quiet st)) as [[a|e] st'] eqn:Hg;
      simpl in *.
    + split; [done|]. split; [done|]. split; [done|]. split; [done|].
      intros u' _. split; [done|].
      split; [apply elem_of_app; by right|].
      split; [intros a' _; done|]. intros e' [=].
    + split; [done|]. split; [done|]. split; [done|]. split; [done|].
      intros u' _. split; [done|].
      split; [apply elem_of_app; right; apply elem_of_app; by left|].
      split; [intros a' [=]|]. intros e' [= <-]. done.
  - split; [done|]. split; [done|]. split; [done|]. split; [done|].
    intros u' [=].
Qed.

End TokenFailure.


(** ** POST /api/auth/login *)

(** X17: the login route answers 400 without asking the upstream API when
    the body lacks an email or a password, 401 with the error of the login
    when the login fails, and in both cases leaves the token file of the
    service as it was; only a login that succeeds answers with a token. *)
Theorem login_route_answers (msg : string) (env : AuthManager.Env)
    (file : option AuthManager.Token) (req : Request) (r : Res)
    (fields : list (string * JsValue)) :
  body req = JObj fields →
  let email := js_field "email" (body req) in
  let password := js_field "password" (body req) in
  let out := login_route msg env file req r in
  (truthy email = false ∨ truthy password = false →
     statusCode (fst out) = 400 ∧
     sent (fst out) = Some (SentJson (JObj [("success", JBool false);
                              ("error", JStr "Email and password are required")])) ∧
     snd out = file) ∧
  (truthy email = true → truthy password = true →
     (∀ payload, AuthManager.post_login env email password
                   = AuthManager.Answer 201 payload →
        statusCode (fst out) = statusCode r ∧
        sent (fst out)
          = Some (SentJson (JObj [("success", JBool true);
                    ("accessToken", JStr (AuthManager.td_accessToken payload))]))) ∧
     ((∀ payload, AuthManager.post_login env email password
                    ≠ AuthManager.Answer 201 payload) →
        statusCode (fst out) = 401 ∧ snd out = file ∧
        ∃ m, sent (fst out)
             = Some (SentJson (JObj [("success", JBool false);
                                     ("error", JStr ("Login failed: " +:+ m))])))).
Proof.
  intros Hbody email password out. subst email password out.
  unfold login_route. rewrite Hbody. split.
  - intros Hmissing.
    assert (negb (truthy (js_field "email" (JObj fields)))
            || negb (truthy (js_field "password" (JObj fields))) = true) as ->.
    { destruct Hmissing as [-> | ->]; [done|]. apply orb_true_r. }
    done.
  - intros -> ->. cbn [negb orb].
    destruct (AuthManager.login env _ _ (AuthManager.fresh file))
      as [[a|e] st'] eqn:Hlogin; unfold AuthManager.login in Hlogin.
    + apply AuthManagerFacts.accept_Normal in Hlogin as (payload & Hp & -> & _).
      split.
      * intros payload' Hp'. rewrite Hp in Hp'. injection Hp' as <-. done.
      * intros Hne. by destruct (Hne payload).
    + apply AuthManagerFacts.accept_Throw in Hlogin as (-> & (m & ->) & Hne).
      split.
      * intros payload Hp. by destruct (Hne payload).
      * intros _. simpl. repeat split; auto. by eexists.
Qed.

(** X18: a login through the route that succeeds writes the caller's token
    over the token file of the service; a manager started afterwards
    reads it, and while that token is valid hands it out for the service,
    whatever credentials the service is configured with and without
    asking the upstream API. *)
Theorem login_route_replaces_service_token (msg : string)
    (env env2 : AuthManager.Env) (cfg : Config) (file : option AuthManager.Token)
    (req : Request) (r : Res) (fields : list (string * JsValue))
    (payload : AuthManager.TokenData) :
  body req = JObj fields →
  truthy (js_field "email" (body req)) = true →
  truthy (js_field "password" (body req)) = true →
  AuthManager.post_login env (js_field "email" (body req))
    (js_field "password" (body req)) = AuthManager.Answer 201 payload →
  AuthManager.writeFile_error env = None →
  let file' := snd (login_route msg env file req r) in
  file' = Some (AuthManager.token_of env payload) ∧
  (AuthManager.now env2
     < AuthManager.replied env + AuthManager.td_expiresInAccessToken payload →
   fst (AuthManager.getValidToken env2
          (AuthManager.credential (auth_email cfg))
          (AuthManager.credential (auth_password cfg))
          (AuthManager.loadCachedToken env2 (AuthManager.fresh file')))
     = Normal (AuthManager.td_accessToken payload)).
Proof.
  intros Hbody He Hp Hlogin Hw file'. subst file'.
  assert (Hfile : snd (login_route msg env file req r)
                  = Some (AuthManager.token_of env payload)).
  { unfold login_route. rewrite Hbody in *. rewrite He, Hp. cbn [negb orb].
    unfold AuthManager.login. rewrite Hlogin.
    rewrite AuthManagerFacts.accept_201. cbn [snd].
    unfold AuthManager.saveCachedToken. rewrite Hw.
    by destruct (AuthManager.chmod_error env). }
  split; [done|]. rewrite Hfile. intros Hlt. apply Z.ltb_lt in Hlt.
  unfold AuthManager.loadCachedToken, AuthManager.fresh. cbn [AuthManager.tokenFile].
  unfold AuthManager.isTokenValid at 1. cbn [AuthManager.issuedAt AuthManager.token_of
    AuthManager.expiresInAccessToken]. rewrite Hlt.
  unfold AuthManager.getValidToken. simpl.
  unfold AuthManager.isTokenValid. simpl. by rewrite Hlt.
Qed.

(** * The token cache of [validateJWT] *)

Module JwtAuthFacts.
Import JwtAuth.

Lemma prune_lookup (clock : Z) (cache : TokenCache) (k : string) (e : Entry) :
  prune clock cache !! k = Some e → cache !! k = Some e.
Proof.
  unfold prune. case_match; [|done].
  intros Hf. by apply map_lookup_filter_Some in Hf as [? _].
Qed.

Lemma prune_keeps (clock : Z) (cache : TokenCache) (k : string) (e : Entry) :
  cache !! k = Some e → clock ≤ expiry e → prune clock cache !! k = Some e.
Proof.
  intros Hk He. unfold prune. case_match; [|done].
  by apply map_lookup_filter_Some.
Qed.

Lemma fresh_entry_Some env cache token e :
  fresh_entry env cache token = Some e ↔ cache !! token = Some e ∧ now env < expiry e.
Proof.
  unfold fresh_entry. destruct (cache !! token) as [c|].
  - destruct (now env <? expiry c) eqn:Hn.
    + apply Z.ltb_lt in Hn. split.
      * intros [= ->]. done.
      * intros [[= ->] _]. done.
    + apply Z.ltb_ge in Hn. split; [done|]. intros [[= ->] ?]. lia.
  - split; [done|]. intros [? _]. done.
Qed.

Lemma validateJWT_catch_cache env cache req r token code status message :
  tokenCache (validateJWT_catch env cache req r token code status message) = cache.
Proof.
  unfold validateJWT_catch. repeat case_match; reflexivity.
Qed.

(** X19: a token the auth server has declared valid is let through for the
    next 60 seconds without the auth server being asked again, with the
    user of that answer, whatever the auth server would say in the
    meantime; from 60 seconds after the answer on the auth server
    decides again. *)
Theorem validated_token_is_trusted_for_a_minute (env1 env2 : Env)
    (cache : TokenCache) (req1 req2 : Request) (r1 r2 : Res) (token : string)
    (valid error u : JsValue) :
  extractToken req1 = Some token →
  extractToken req2 = Some token →
  token ≠ EmptyString →
  fresh_entry env1 cache token = None →
  validate env1 token = Replied valid error u →
  truthy valid = true →
  let o1 := validateJWT env1 cache req1 r1 in
  let o2 := validateJWT env2 (tokenCache o1) req2 r2 in
  nextCalled o1 = true ∧ user (out_req o1) = u ∧
  (now env2 < answered env1 + 60000 →
     nextCalled o2 = true ∧ user (out_req o2) = u ∧ out_res o2 = r2 ∧
     tokenCache o2 = tokenCache o1 ∧ logged o2 = []) ∧
  (answered env1 + 60000 ≤ now env2 →
     ∀ valid' error' u', validate env2 token = Replied valid' error' u' →
     nextCalled o2 = truthy valid' ∧
     (truthy valid' = true → user (out_req o2) = u')).
Proof.
  intros Ht1 Ht2 Hne Hmiss Hv Hvalid o1 o2.
  apply String.eqb_neq in Hne.
  assert (Ho1 : o1 = pass (prune (answered env1)
                        (<[token := {| entry_user := u;
                                       expiry := answered env1 + CACHE_TTL |}]> cache))
                        req1 r1 u []).
  { subst o1. unfold validateJWT. rewrite Ht1, Hne, Hmiss, Hv, Hvalid. reflexivity. }
  assert (Hentry : tokenCache o1 !! token
                   = Some {| entry_user := u; expiry := answered env1 + CACHE_TTL |}).
  { rewrite Ho1. simpl. apply prune_keeps; [apply lookup_insert_eq|].
    simpl. unfold CACHE_TTL. lia. }
  split; [by rewrite Ho1|]. split; [by rewrite Ho1|].
  subst o2. unfold validateJWT. rewrite Ht2, Hne. split.
  - intros Hlt.
    assert (fresh_entry env2 (tokenCache o1) token
            = Some {| entry_user := u; expiry := answered env1 + CACHE_TTL |}) as ->.
    { apply fresh_entry_Some. split; [done|]. simpl. unfold CACHE_TTL. lia. }
    done.
  - intros Hge valid' error' u' Hv'.
    assert (fresh_entry env2 (tokenCache o1) token = None) as ->.
    { destruct (fresh_entry env2 (tokenCache o1) token) as [e|] eqn:Hf; [|done].
      apply fresh_entry_Some in Hf as [Hl Hlt]. rewrite Hentry in Hl.
      injection Hl as <-. simpl in Hlt. unfold CACHE_TTL in Hlt. lia. }
    rewrite Hv'. destruct (truthy valid'); simpl; done.
Qed.

Lemma validateJWT_lookup env cache req r token e :
  tokenCache (validateJWT env cache req r) !! token = Some e →
  cache !! token = Some e ∨
  ∃ valid error, validate env token = Replied valid error (entry_user e) ∧
    truthy valid = true ∧ expiry e = answered env + CACHE_TTL.
Proof.
  unfold validateJWT.
  destruct (extractToken req) as [t|]; [|by left].
  destruct (String.eqb t EmptyString); [by left|].
  destruct (fresh_entry env cache t); [by left|].
  destruct (validate env t) as [code status message|valid error u] eqn:Hv.
  - rewrite validateJWT_catch_cache. by left.
  - destruct (truthy valid) eqn:Hvalid; cbn [negb]; [|by left].
    unfold pass. cbn [tokenCache].
    intros Hl. apply prune_lookup in Hl.
    destruct (decide (t = token)) as [->|Hne].
    + rewrite lookup_insert_eq in Hl. injection Hl as <-. right.
      exists valid, error. done.
    + rewrite lookup_insert_ne in Hl by done. by left.
Qed.

Lemma serve_lookup cache c token e :
  serve cache c !! token = Some e →
  cache !! token = Some e ∨ vouched [c] token e.
Proof.
  unfold serve, authenticate. case_match.
  - intros Hl. apply validateJWT_lookup in Hl as [?|(valid & error & ? & ? & ?)];
      [by left|].
    right. exists c, valid, error. split; [apply list_elem_of_here|done].
  - case_match; [|by left].
    unfold validateAPIKey. repeat case_match; by left.
Qed.

Lemma vouched_mono calls calls' token e :
  (∀ c, c ∈ calls → c ∈ calls') → vouched calls token e → vouched calls' token e.
Proof.
  intros Hsub (c & valid & error & Hin & ?). exists c, valid, error.
  split; [by apply Hsub|done].
Qed.

Lemma run_lookup calls cache token e :
  run calls cache !! token = Some e →
  cache !! token = Some e ∨ vouched calls token e.
Proof.
  unfold run. revert cache. induction calls as [|c calls IH]; intros cache; [by left|].
  cbn [foldl]. intros Hl. apply IH in Hl as [Hl|Hl].
  - apply serve_lookup in Hl as [?|Hl]; [by left|]. right.
    eapply vouched_mono; [|exact Hl]. intros c' Hc'.
    apply list_elem_of_singleton in Hc'. subst. apply list_elem_of_here.
  - right. eapply vouched_mono; [|exact Hl]. intros c' Hc'.
    by apply list_elem_of_further.
Qed.

(** X20: the token cache only ever holds what the auth server vouched for:
    after any sequence of requests through [authenticate], every entry was
    made from an answer of the auth server, to one of these requests, that
    declared the token valid, carries the user of that answer, and expires
    60 seconds after it. A token accepted by the local fallback or an API
    key is never cached. *)
Theorem cache_holds_only_server_validated_tokens (calls : list Call)
    (token : string) (e : Entry) :
  run calls ∅ !! token = Some e → vouched calls token e.
Proof.
  intros Hl. apply run_lookup in Hl as [Hl|Hl]; [|done].
  by rewrite lookup_empty in Hl.
Qed.

Lemma authenticate_outcome (env : Env) (cache : TokenCache)
    (req : Request) (query_apiKey : JsValue) (r : Res) :
  let o := authenticate env cache req query_apiKey r in
  (nextCalled o = true ∧ out_res o = r ∧ ∃ u, out_req o = with_user u req) ∨
  (nextCalled o = false ∧ out_req o = req ∧ tokenCache o = cache ∧
   statusCode (out_res o) ∈ [400; 401; 429] ∧
   resHeaders (out_res o) = resHeaders r ∧
   ∃ payload, sent (out_res o) = Some (SentJson (JObj payload))).
Proof.
  intros o. subst o.
  unfold authenticate, validateAPIKey, validateJWT, validateJWT_catch.
  repeat case_match; simpl;
    first [ left; split; [reflexivity|]; split; [reflexivity|]; by eexists
          | right; split; [reflexivity|]; split; [reflexivity|];
            split; [reflexivity|];
            split; [rewrite !elem_of_cons; auto|];
            split; [reflexivity|]; by eexists ].
Qed.

(** X21: [authenticate] either lets the request through, with nothing sent
    and only [req.user] set, or answers 400, 401 or 429 with a JSON body
    and does not call [next]; a refusal leaves the request and the token
    cache as they were. *)
Theorem authenticate_passes_or_answers (env : Env) (cache : TokenCache)
    (req : Request) (query_apiKey : JsValue) (r : Res) :
  let o := authenticate env cache req query_apiKey r in
  (nextCalled o = true ∧ out_res o = r ∧ ∃ u, out_req o = with_user u req) ∨
  (nextCalled o = false ∧ out_req o = req ∧ tokenCache o = cache ∧
   statusCode (out_res o) ∈ [400; 401; 429] ∧
   resHeaders (out_res o) = resHeaders r ∧
   ∃ payload, sent (out_res o) = Some (SentJson (JObj payload))).
Proof. apply authenticate_outcome. Qed.





Lemma split_no_sep (sep : ascii) (s : string) :
  ¬ In sep (list_ascii_of_string s) → split sep s = [s].
Proof.
  induction s as [|c s IH]; [done|].
  intros Hno. cbn [split].
  destruct (Ascii.eqb c sep) eqn:Hc.
  - apply Ascii.eqb_eq in Hc. subst. destruct Hno. by left.
  - rewrite IH; [done|]. intros Hin. apply Hno. by right.
Qed.

(** X22: the token is taken from the Authorization header first: a header
    'Bearer t' gives t whatever the accesstoken header and the cookies
    hold; the accesstoken header is used when there is no Bearer token,
    whatever the cookies hold. *)
Theorem token_sources_in_order (req : Request) (t : string) :
  t ≠ EmptyString →
  (¬ In " "%char (list_ascii_of_string t) →
   headers req !! "authorization" = Some ("Bearer " +:+ t) →
   extractToken req = Some t) ∧
  (falsy_string (bearerToken req) = true →
   headers req !! "accesstoken" = Some t →
   extractToken req = Some t).
Proof.
  intros Hne. apply String.eqb_neq in Hne. split.
  - intros Hsp Hh.
    assert (Hb : bearerToken req = Some t).
    { unfold bearerToken, header. rewrite Hh.
      change ("Bearer " +:+ t =? "")%string with false.
      cbv beta iota.
      replace (startsWith ("Bearer " +:+ t) "Bearer ") with true
        by (by destruct t).
      replace (split " " ("Bearer " +:+ t)) with ["Bearer"; t]; [reflexivity|].
      change ("Bearer " +:+ t)
        with (String "B" (String "e" (String "a" (String "r" (String "e"
               (String "r" (String " " t))))))).
      cbn [split Ascii.eqb Bool.eqb]. by rewrite split_no_sep. }
    unfold extractToken. rewrite Hb. cbn [falsy_string]. rewrite Hne.
    cbv beta iota zeta. cbn [falsy_string]. by rewrite Hne.
  - intros Hb Ha.
    assert (Hh : header req "accesstoken" = Some t).
    { unfold header. by rewrite Ha, Hne. }
    unfold extractToken. rewrite Hb, Hh. cbv beta iota zeta.
    cbn [falsy_string]. by rewrite Hne.
Qed.

(** X23: with the auth server unreachable (ECONNREFUSED or ETIMEDOUT) a
    token that is not in the cache is let through exactly when it verifies
    locally as a token of type 'access'; the user is then made of the id,
    email, username and licenseType of the token alone, and the token is
    not put in the cache. *)
Theorem unreachable_auth_server_falls_back (env : Env) (cache : TokenCache)
    (req : Request) (r : Res) (token : string) (code : string) (status : option Z)
    (message : JsValue) :
  extractToken req = Some token →
  token ≠ EmptyString →
  fresh_entry env cache token = None →
  validate env token = Rejected (Some code) status message →
  code = "ECONNREFUSED" ∨ code = "ETIMEDOUT" →
  let o := validateJWT env cache req r in
  tokenCache o = cache ∧
  (nextCalled o = true ↔
   ∃ decoded, verify env token = Normal decoded ∧ is_access decoded = true) ∧
  (∀ decoded, verify env token = Normal decoded → is_access decoded = true →
     user (out_req o) = JObj [("id", js_field "id" decoded);
                              ("email", js_field "email" decoded);
                              ("username", js_field "username" decoded);
                              ("licenseType", js_field "licenseType" decoded)] ∧
     out_res o = r) ∧
  (nextCalled o = false → statusCode (out_res o) = 401).
Proof.
  intros Ht Hne Hmiss Hv Hcode o. subst o.
  apply String.eqb_neq in Hne.
  unfold validateJWT. rewrite Ht, Hne, Hmiss, Hv.
  unfold validateJWT_catch.
  assert (is_down (Some code) = true) as ->.
  { destruct Hcode as [-> | ->]; reflexivity. }
  destruct (verify env token) as [decoded|err].
  - destruct (is_access decoded) eqn:Hacc; simpl.
    + split; [done|]. split; [|split; [|done]].
      * split; [|done]. intros _. by exists decoded.
      * intros decoded' [= <-] _. done.
    + split; [done|]. split; [|split; [|done]].
      * split; [done|]. intros (decoded' & [= <-] & ?). congruence.
      * intros decoded' [= <-] ?. congruence.
  - simpl. split; [done|]. split; [|split; [|done]].
    + split; [done|]. intros (decoded' & ? & ?). done.
    + intros decoded' ?. done.
Qed.

End JwtAuthFacts.

Section GuardedRoutes.
Context {C : Type} `{CacheManagerAPI C}.

(** X24: the cache routes stand behind [authenticate] and nothing else. A
    caller [authenticate] refuses is answered 400, 401 or 429 and the
    cache is left as it was, whatever the body; for every caller it lets
    through, whoever the user is, POST /revalidate does what it does
    without the check: no role is looked at. *)
Theorem cache_routes_need_only_authentication (destructure_message : string)
    (env : JwtAuth.Env) (tokens : JwtAuth.TokenCache) (req : Request)
    (query_apiKey : JsValue) (w : World C) :
  let o := JwtAuth.authenticate env tokens req query_apiKey (res w) in
  let out := guarded_revalidate destructure_message env tokens req query_apiKey w in
  fst out = Normal (JwtAuth.tokenCache o) ∧
  (JwtAuth.nextCalled o = false →
     cache (snd out) = cache w ∧ res (snd out) = JwtAuth.out_res o ∧
     statusCode (res (snd out)) ∈ [400; 401; 429]) ∧
  (JwtAuth.nextCalled o = true →
     ∃ u, snd out = snd (revalidate_route destructure_message (with_user u req) w) ∧
          snd (revalidate_route destructure_message (with_user u req) w)
            = snd (revalidate_route destructure_message req w)).
Proof.
  intros o out.
  pose proof (JwtAuthFacts.authenticate_outcome env tokens req
                query_apiKey (res w)) as Hcases.
  fold o in Hcases.
  subst out. unfold guarded_revalidate. unfold_monad. simpl. fold o.
  destruct Hcases as [(Hn & Hr & u & Hu)|(Hn & Hq & Ht & Hs & _)].
  - rewrite Hn, Hr, Hu.
    assert (Hw : {| cache := cache w; res := res w; console := console w;
                    publicFiles := publicFiles w; calls := calls w |} = w)
      by by destruct w.
    rewrite Hw.
    assert (Hsame : revalidate_route destructure_message (with_user u req) w
                    = revalidate_route destructure_message req w)
      by reflexivity.
    rewrite Hsame.
    assert (Hnorm : fst (revalidate_route destructure_message req w) = Normal tt).
    { unfold revalidate_route. unfold_monad. simpl.
      destruct (body req); simpl; try done.
      all: match goal with |- context [truthy ?p] => destruct (truthy p) end;
        simpl; [|done].
      all: destruct (cm_revalidatePath _ _) as [[result|error] c']; reflexivity. }
    destruct (revalidate_route destructure_message req w) as [[[]|e] w'] eqn:Hrr;
      [|discriminate].
    cbn [fst snd]. split; [done|]. split; [done|]. intros _. exists u.
    rewrite Hsame. done.
  - rewrite Hn. simpl. split; [done|]. split; [|intros; discriminate]. intros _.
    split; [done|]. split; [done|]. exact Hs.
Qed.

End GuardedRoutes.



(** ** Instances *)

Lemma cached_token_is_used_until_it_expires_witness :
  fst (AuthManager.getValidToken (Sample3.upstream_down 2000) JUndefined JUndefined
         Sample3.logged_in) = Normal "access-1".
Proof.
  apply (proj1 (AuthManagerFacts.cached_token_is_used_until_it_expires
                  (Sample3.upstream_down 2000) JUndefined JUndefined
                  Sample3.logged_in
                  (AuthManager.token_of (Sample3.upstream_up 1000) Sample3.payload)
                  1000 eq_refl eq_refl) eq_refl).
Defined.

Lemma token_is_reused_witness :
  ∃ t, AuthManager.cachedToken
         (snd (AuthManager.getValidToken (Sample3.upstream_up 1000)
                 (JStr "service@example.com") (JStr "secret")
                 (AuthManager.fresh None))) = Some t ∧
       AuthManager.tok_accessToken t = "access-1".
Proof.
  destruct (AuthManagerFacts.token_is_reused (Sample3.upstream_up 1000)
              (Sample3.upstream_down 5000)
              (JStr "service@example.com") (JStr "secret") JUndefined JUndefined
              (AuthManager.fresh None)
              (snd (AuthManager.getValidToken (Sample3.upstream_up 1000)
                      (JStr "service@example.com") (JStr "secret")
                      (AuthManager.fresh None)))
              "access-1" eq_refl) as (t & Hc & Ha & _).
  by exists t.
Defined.

Lemma token_failure_is_answered_500_witness :
  statusCode (res (snd (@proxyRequest _ Sample.healthy
                          (with_authManager (Sample3.upstream_down 0) Sample.cfg
                             (AuthManager.fresh None)
                             (Sample.deps Sample.ok_upstream))
                          Sample.cfg (Sample.get_users "bob")
                          (freshWorld CacheManager.empty_store))))
    = 500.
Proof.
  refine (proj1 (proj2 (@token_failure_is_answered_500 _ Sample.healthy
            (Sample3.upstream_down 0) (AuthManager.fresh None)
            (Sample.deps Sample.ok_upstream) Sample.cfg Sample.cfg
            (Sample.get_users "bob") CacheManager.empty_store
            (JObj [("email", JStr "bob")])
            (js_error "Login failed: ECONNREFUSED") freshRes
            eq_refl eq_refl eq_refl))).
Defined.

Lemma login_route_answers_witness :
  statusCode (fst (login_route "req.body is undefined" (Sample3.upstream_down 0)
                     None Sample3.login_request freshRes)) = 401.
Proof.
  refine (proj1 (proj2 (proj2 (login_route_answers "req.body is undefined"
            (Sample3.upstream_down 0) None Sample3.login_request freshRes
            [("email", JStr "user@example.com"); ("password", JStr "pw")]
            eq_refl) eq_refl eq_refl) _)).
  intros payload. discriminate.
Defined.

Lemma login_route_replaces_service_token_witness :
  snd (login_route "req.body is undefined" (Sample3.upstream_up 1000) None
         Sample3.login_request freshRes)
    = Some (AuthManager.token_of (Sample3.upstream_up 1000) Sample3.payload).
Proof.
  refine (proj1 (login_route_replaces_service_token "req.body is undefined"
            (Sample3.upstream_up 1000) (Sample3.upstream_down 2000) Sample.cfg
            None Sample3.login_request freshRes
            [("email", JStr "user@example.com"); ("password", JStr "pw")]
            Sample3.payload eq_refl eq_refl eq_refl eq_refl eq_refl)).
Defined.

Lemma validated_token_is_trusted_for_a_minute_witness :
  let o1 := JwtAuth.validateJWT (Sample3.auth_server 1000) ∅
              (Sample3.with_bearer "good") freshRes in
  JwtAuth.nextCalled
    (JwtAuth.validateJWT (Sample3.auth_server_down 30000) (JwtAuth.tokenCache o1)
       (Sample3.with_bearer "good") freshRes) = true.
Proof.
  intros o1.
  refine (proj1 (proj1 (proj2 (proj2
            (JwtAuthFacts.validated_token_is_trusted_for_a_minute
               (Sample3.auth_server 1000) (Sample3.auth_server_down 30000) ∅
               (Sample3.with_bearer "good") (Sample3.with_bearer "good")
               freshRes freshRes "good" (JBool true) JUndefined Sample3.alice
               eq_refl eq_refl _ eq_refl eq_refl eq_refl))) eq_refl)).
  discriminate.
Defined.

Lemma cache_holds_only_server_validated_tokens_witness :
  JwtAuth.vouched
    [{| JwtAuth.call_env := Sample3.auth_server 1000;
        JwtAuth.call_req := Sample3.with_bearer "good";
        JwtAuth.call_query_apiKey := JUndefined;
        JwtAuth.call_res := freshRes |}]
    "good" {| JwtAuth.entry_user := Sample3.alice; JwtAuth.expiry := 61000 |}.
Proof.
  apply JwtAuthFacts.cache_holds_only_server_validated_tokens.
  reflexivity.
Defined.

Lemma token_sources_in_order_witness :
  JwtAuth.extractToken (Sample3.with_bearer "good") = Some "good".
Proof.
  refine (proj1 (JwtAuthFacts.token_sources_in_order (Sample3.with_bearer "good")
                   "good" _) _ eq_refl).
  - discriminate.
  - simpl. intros [H|[H|[H|[H|[]]]]]; discriminate H.
Defined.

Lemma unreachable_auth_server_falls_back_witness :
  JwtAuth.nextCalled
    (JwtAuth.validateJWT (Sample3.auth_server_down 1000) ∅
       (Sample3.with_bearer "good") freshRes) = true.
Proof.
  refine (proj2 (proj1 (proj2
            (JwtAuthFacts.unreachable_auth_server_falls_back
               (Sample3.auth_server_down 1000) ∅ (Sample3.with_bearer "good")
               freshRes "good" "ECONNREFUSED" None (JStr "connect ECONNREFUSED")
               eq_refl _ eq_refl eq_refl (or_introl eq_refl)))) _).
  - discriminate.
  - eexists. split; reflexivity.
Defined.

(** ** POST /api/auth/refresh *)

(** X26: the refresh route answers 401 'No valid refresh token available'
    without asking the upstream API when the service has no token in
    memory or its refresh token has expired, and 401 'Token refresh
    failed: ...' when the upstream API does not answer 201, leaving the
    manager as it was; with a 201 answer it puts the new token in memory
    and sends its access token, the token of the service, to the caller,
    also while the old access token is still valid. *)
Theorem refresh_route_answers (env : AuthManager.Env) (st : AuthManager.State)
    (r : Res) :
  let out := refresh_route env st r in
  ((AuthManager.cachedToken st = None ∨
    ∃ t, AuthManager.cachedToken st = Some t ∧
         AuthManager.isRefreshTokenValid env t = false) →
   statusCode (fst out) = 401 ∧
   sent (fst out) = Some (SentJson (JObj [("success", JBool false);
                      ("error", JStr "No valid refresh token available")])) ∧
   snd out = st) ∧
  (∀ t, AuthManager.cachedToken st = Some t →
        AuthManager.isRefreshTokenValid env t = true →
     (∀ payload, AuthManager.patch_refresh env (AuthManager.tok_refreshToken t)
                   = AuthManager.Answer 201 payload →
        statusCode (fst out) = statusCode r ∧
        sent (fst out)
          = Some (SentJson (JObj [("success", JBool true);
                    ("accessToken", JStr (AuthManager.td_accessToken payload))])) ∧
        AuthManager.cachedToken (snd out)
          = Some (AuthManager.token_of env payload)) ∧
     ((∀ payload, AuthManager.patch_refresh env (AuthManager.tok_refreshToken t)
                    ≠ AuthManager.Answer 201 payload) →
        statusCode (fst out) = 401 ∧ snd out = st ∧
        ∃ m, sent (fst out)
             = Some (SentJson (JObj [("success", JBool false);
                       ("error", JStr ("Token refresh failed: " +:+ m))])))).
Proof.
  intros out. subst out. unfold refresh_route, AuthManager.refreshToken. split.
  - intros [-> | (t & -> & ->)]; done.
  - intros t -> ->.
    destruct (AuthManager.accept "Token refresh" env _ st) as [[a|e] st'] eqn:Hacc.
    + apply AuthManagerFacts.accept_Normal in Hacc as (payload & Hp & -> & Hc).
      split.
      * intros payload' Hp'. rewrite Hp in Hp'. injection Hp' as <-. done.
      * intros Hne. by destruct (Hne payload).
    + apply AuthManagerFacts.accept_Throw in Hacc as (-> & (m & ->) & Hne).
      split.
      * intros payload Hp. by destruct (Hne payload).
      * intros _. simpl. repeat split; auto. by eexists.
Qed.

